(** * Block-sparse attention: the orchestration layer of
      [xformers/components/attention/blocksparse.py]

    The development embeds the Python class [BlockSparseAttention]
    ([__init__], [update_mask_type], [create_triton_kernels], [forward]) as
    executable Rocq functions.

    - Tensors are records (dtype, device, shape, row-major data).  Their
      elements are values of an abstract numeric interface, since the module
      never inspects them itself.
    - Python objects that have an identity (the caller's tensors, the results
      of casts and kernels) live in a heap of tensors addressed by location;
      [forward] runs in a state-and-exception monad over the module instance,
      the heap and a trace of observable events (warnings, kernel calls).
    - The Triton kernels, [torch.nn.Dropout] and the float arithmetic are
      external; they are the fields of two interfaces. *)

From Stdlib Require Import ZArith Lia Bool String DecimalString.
From stdpp Require Import base list.
Import ListNotations.

Local Open Scope nat_scope.

(** ** Tensors *)

Inductive dtype := Bool8 | Float16 | BFloat16 | Float32 | Float64 | Int64.

Inductive device := Cpu | Cuda (index : nat).

Definition dtype_eqb (a b : dtype) : bool :=
  match a, b with
  | Bool8, Bool8 | Float16, Float16 | BFloat16, BFloat16
  | Float32, Float32 | Float64, Float64 | Int64, Int64 => true
  | _, _ => false
  end.

Definition device_eqb (a b : device) : bool :=
  match a, b with
  | Cpu, Cpu => true
  | Cuda i, Cuda j => i =? j
  | _, _ => false
  end.

Record tensor (A : Type) := Tensor {
  t_dtype : dtype;
  t_device : device;
  t_shape : list nat;
  t_data : list A          (* row-major *)
}.
Arguments Tensor {A} _ _ _ _.
Arguments t_dtype {A} _.
Arguments t_device {A} _.
Arguments t_shape {A} _.
Arguments t_data {A} _.

(** Number of elements of a shape. *)
Definition numel (shape : list nat) : nat := fold_right Nat.mul 1 shape.

(** All multi-indices of a shape, in row-major (lexicographic) order. *)
Fixpoint indices (shape : list nat) : list (list nat) :=
  match shape with
  | [] => [[]]
  | n :: rest => flat_map (fun i => map (cons i) (indices rest)) (seq 0 n)
  end.

(** Flat offset of a multi-index (contiguous strides). *)
Fixpoint ravel (shape ix : list nat) : nat :=
  match shape, ix with
  | _ :: rest, i :: ix' => i * numel rest + ravel rest ix'
  | _, _ => 0
  end.

Fixpoint in_bounds (shape ix : list nat) : bool :=
  match shape, ix with
  | [], [] => true
  | n :: rest, i :: ix' => (i <? n) && in_bounds rest ix'
  | _, _ => false
  end.

Definition get {A} (dflt : A) (t : tensor A) (ix : list nat) : A :=
  nth (ravel (t_shape t) ix) (t_data t) dflt.

Definition well_formed {A} (t : tensor A) : Prop :=
  length (t_data t) = numel (t_shape t).

(** Python sequence indexing: negative positions count from the end. *)
Definition py_index {A} (l : list A) (i : Z) : option A :=
  if (i <? 0)%Z
  then if (- i <=? Z.of_nat (length l))%Z
       then l !! (length l - Z.to_nat (- i))
       else None
  else l !! Z.to_nat i.

(** ** Exceptions and events *)

Inductive assertion :=
| UnsupportedBlockSize
| KQDimensions
| SequenceLayoutInconsistent
| NotMultipleOfBlock (seq_len : nat) (block : Z)
| MaskShape.

Definition string_of_nat (n : nat) : string :=
  NilZero.string_of_uint (Nat.to_uint n).

Definition string_of_Z (z : Z) : string :=
  NilZero.string_of_int (Z.to_int z).

Definition assertion_message (a : assertion) : string :=
  match a with
  | UnsupportedBlockSize =>
      "Only block sizes in [16, 32, 64, 128] are supported"
  | KQDimensions =>
      "Blocksparse requires the same dimensions for K and Q for now"
  | SequenceLayoutInconsistent =>
      "Actual sequence size and layout are inconsistent"
  | NotMultipleOfBlock s b =>
      "Sequence length " ++ string_of_nat s
        ++ "  must be a multiple of block size " ++ string_of_Z b
  | MaskShape => EmptyString
  end%string.

Inductive exn :=
| AssertionError (a : assertion)
| IndexError
| ValueError
| RuntimeError
| ZeroDivisionError
| AttributeError (name : string)
| TritonError (msg : string)       (* raised inside an external kernel *)
| DanglingReference.               (* a location that is not in the heap *)

(** Broadcasting (right-aligned, a source dimension of size 1 is repeated). *)
Definition broadcast_index (src ix : list nat) : list nat :=
  zip_with (fun d i => if d =? 1 then 0 else i)
           src (drop (length ix - length src) ix).

Definition broadcastable (src dst : list nat) : bool :=
  (length src <=? length dst)
  && forallb (fun de => (fst de =? snd de) || (fst de =? 1))
             (zip src (drop (length dst - length src) dst)).

Definition broadcast_to {A} (dflt : A) (t : tensor A) (shape : list nat)
  : tensor A :=
  Tensor (t_dtype t) (t_device t) shape
         (map (fun ix => get dflt t (broadcast_index (t_shape t) ix))
              (indices shape)).

(** [t.unsqueeze(0).expand(n, -1, -1, ...)]. *)
Definition expand_heads {A} (dflt : A) (t : tensor A) (n : nat) : tensor A :=
  broadcast_to dflt
    (Tensor (t_dtype t) (t_device t) (1 :: t_shape t) (t_data t))
    (n :: t_shape t).

(** [t.expand(shape)]: fails unless the shapes are compatible. *)
Definition expand {A} (dflt : A) (t : tensor A) (shape : list nat)
  : exn + tensor A :=
  if broadcastable (t_shape t) shape
  then inr (broadcast_to dflt t shape)
  else inl RuntimeError.

(** [t.reshape(dims)] on explicit sizes.  A negative size is rejected; torch
    accepts a single [-1] to be inferred, which no supported block size
    produces in [forward]. *)
Definition reshape {A} (t : tensor A) (dims : list Z) : exn + tensor A :=
  if forallb (fun d => (0 <=? d)%Z) dims
     && (numel (map Z.to_nat dims) =? numel (t_shape t))
  then inr (Tensor (t_dtype t) (t_device t) (map Z.to_nat dims) (t_data t))
  else inl RuntimeError.

(** Whether torch takes an index tensor that lives on [idx_dev] ([None] for a
    Python list) to index a tensor on [dev]: the index has to be on the CPU
    or on [dev] itself. *)
Definition index_device_ok (dev : device) (idx_dev : option device) : bool :=
  match idx_dev with
  | None | Some Cpu => true
  | Some d => device_eqb d dev
  end.

(** [t[:, idx, :]] on a 3-dimensional tensor, with the index [idx] on
    [idx_dev].  An index on another device is refused with a RuntimeError
    before the entries are looked at; an entry out of range is an
    IndexError.  The result is on the device of [t]. *)
Definition index_rows {A} (dflt : A) (t : tensor A)
    (idx_dev : option device) (idx : list nat) : exn + tensor A :=
  match t_shape t with
  | [b; r; c] =>
      if negb (index_device_ok (t_device t) idx_dev)
      then inl RuntimeError
      else if forallb (fun i => i <? r) idx
      then inr (Tensor (t_dtype t) (t_device t) [b; length idx; c]
                  (map (fun ix =>
                          match ix with
                          | [x; n; y] => get dflt t [x; nth n idx 0; y]
                          | _ => dflt
                          end)
                       (indices [b; length idx; c])))
      else inl IndexError
  | _ => inl IndexError
  end.

(** [t.unsqueeze(-2)]. *)
Definition unsqueeze_m2 {A} (t : tensor A) : exn + tensor A :=
  match t_shape t with
  | [] => inl IndexError
  | s =>
      inr (Tensor (t_dtype t) (t_device t)
             (take (length s - 1) s ++ 1 :: drop (length s - 1) s)
             (t_data t))
  end.

(** ** External interfaces *)

(** Float arithmetic on tensor elements and Python floats. *)
Class Numerics := {
  val : Type;                         (* a tensor element *)
  scalar : Type;                      (* a Python float *)
  vzero : val;
  cast : dtype -> val -> val;         (* conversion to a dtype *)
  vadd : val -> val -> val;
  vdiv : val -> scalar -> val;
  math_sqrt : nat -> scalar;          (* math.sqrt of an int *)
}.

Inductive matmul_mode := sdd | dsd | dds.

(** [triton.ops.blocksparse.matmul(layout, block, mode, trans_a, trans_b,
    device)]: the kernel object is bound to these arguments. *)
Record matmul := Matmul {
  mm_layout : tensor Z;
  mm_block : Z;
  mm_mode : matmul_mode;
  mm_trans_a : bool;
  mm_trans_b : bool;
  mm_device : device
}.

(** [triton.ops.blocksparse.softmax(layout, block, device)]. *)
Record softmax := Softmax {
  sm_layout : tensor Z;
  sm_block : Z;
  sm_device : device
}.

(** [torch.nn.Dropout(p, inplace)]. *)
Record Dropout `{Numerics} := MkDropout {
  drop_p : scalar;
  drop_inplace : bool
}.
Arguments MkDropout {_} _ _.

(** What the module calls and does not implement. *)
Class Kernels `{Numerics} := {
  (* running a block-sparse matmul kernel on two tensors *)
  matmul_call : matmul -> tensor val -> tensor val -> string + tensor val;
  (* running the block-sparse softmax kernel *)
  softmax_call :
    softmax -> tensor val -> scalar -> bool -> string + tensor val;
  (* torch.nn.Dropout raises ValueError unless 0 <= p <= 1 *)
  dropout_accepts : scalar -> bool;
  (* applying the dropout module (inplace=False) *)
  dropout_call : Dropout -> tensor val -> tensor val;
  (* xformers.components.attention.utils.bool_mask_to_additive, elementwise *)
  additive_of_bool : val -> val;
}.

(** ** The module instance, the heap and the monad *)

Definition loc := nat.

Section Attention.
Context `{K : Kernels}.

(** [to_gather] and [broadcast_to_gather]: a Python list while
    [create_triton_kernels] fills it ([g_device = None]), then a long tensor
    on the kernels' device. *)
Record gather := Gather {
  g_device : option device;
  g_index : list nat
}.

(** The attributes of a [BlockSparseAttention] instance.  The last five are
    set by [create_triton_kernels] only; [None] is "no such attribute". *)
Record BlockSparseAttention := Module_ {
  causal : bool;
  attn_drop : Dropout;
  layout : tensor Z;
  block_size : Z;
  requires_head_dimension : bool;
  requires_same_k_q_dimensions : bool;
  supports_attention_mask : bool;
  supports_key_padding_mask : bool;
  sparse_dot_sdd : option matmul;
  sparse_dot_dsd : option matmul;
  sparse_softmax : option softmax;
  to_gather : option gather;
  broadcast_to_gather : option gather
}.

Definition set_sparse_dot_sdd (x : matmul) (m : BlockSparseAttention) :=
  Module_ (causal m) (attn_drop m) (layout m) (block_size m)
    (requires_head_dimension m) (requires_same_k_q_dimensions m)
    (supports_attention_mask m) (supports_key_padding_mask m)
    (Some x) (sparse_dot_dsd m) (sparse_softmax m)
    (to_gather m) (broadcast_to_gather m).

Definition set_sparse_dot_dsd (x : matmul) (m : BlockSparseAttention) :=
  Module_ (causal m) (attn_drop m) (layout m) (block_size m)
    (requires_head_dimension m) (requires_same_k_q_dimensions m)
    (supports_attention_mask m) (supports_key_padding_mask m)
    (sparse_dot_sdd m) (Some x) (sparse_softmax m)
    (to_gather m) (broadcast_to_gather m).

Definition set_sparse_softmax (x : softmax) (m : BlockSparseAttention) :=
  Module_ (causal m) (attn_drop m) (layout m) (block_size m)
    (requires_head_dimension m) (requires_same_k_q_dimensions m)
    (supports_attention_mask m) (supports_key_padding_mask m)
    (sparse_dot_sdd m) (sparse_dot_dsd m) (Some x)
    (to_gather m) (broadcast_to_gather m).

Definition set_to_gather (x : gather) (m : BlockSparseAttention) :=
  Module_ (causal m) (attn_drop m) (layout m) (block_size m)
    (requires_head_dimension m) (requires_same_k_q_dimensions m)
    (supports_attention_mask m) (supports_key_padding_mask m)
    (sparse_dot_sdd m) (sparse_dot_dsd m) (sparse_softmax m)
    (Some x) (broadcast_to_gather m).

Definition set_broadcast_to_gather (x : gather) (m : BlockSparseAttention) :=
  Module_ (causal m) (attn_drop m) (layout m) (block_size m)
    (requires_head_dimension m) (requires_same_k_q_dimensions m)
    (supports_attention_mask m) (supports_key_padding_mask m)
    (sparse_dot_sdd m) (sparse_dot_dsd m) (sparse_softmax m)
    (to_gather m) (Some x).

(** What a run does, in order: the warnings it logs, the calls it makes to
    the kernel objects and to the dropout module with the tensors it passes,
    and the block mask it adds to the scores. *)
Inductive event :=
| Warning (msg : string)                              (* logging.warning *)
| SparseDotSdd (a b : tensor val)                     (* self.sparse_dot_sdd *)
| AddMask (block_mask : tensor val)                   (* sparse_att_mat += *)
| SparseSoftmax (x : tensor val) (scale : scalar) (is_causal : bool)
| AttnDrop (x : tensor val)                           (* self.attn_drop *)
| SparseDotDsd (a b : tensor val).                    (* self.sparse_dot_dsd *)

Definition is_kernel_call (e : event) : bool :=
  match e with
  | SparseDotSdd _ _ | SparseSoftmax _ _ _ | SparseDotDsd _ _ => true
  | Warning _ | AddMask _ | AttnDrop _ => false
  end.

(** The calls to the sparse kernels in a trace. *)
Definition kernel_calls (tr : list event) : list event :=
  List.filter is_kernel_call tr.

Record world := World {
  self : BlockSparseAttention;
  heap : list (tensor val);
  trace : list event
}.

(** State and exceptions: an exception keeps the state reached so far. *)
Definition M (A : Type) : Type := world -> (exn + A) * world.

Definition ret {A} (a : A) : M A := fun w => (inr a, w).

Definition raise {A} (e : exn) : M A := fun w => (inl e, w).

Definition bind {A B} (c : M A) (k : A -> M B) : M B :=
  fun w => match c w with
           | (inr a, w') => k a w'
           | (inl e, w') => (inl e, w')
           end.

Notation "x <- c ;; k" := (bind c (fun x => k))
  (at level 100, c at next level, right associativity).
Notation "c ;;; k" := (bind c (fun _ => k))
  (at level 100, right associativity).

Definition lift {A} (r : exn + A) : M A :=
  match r with inr a => ret a | inl e => raise e end.

Definition get_self : M BlockSparseAttention := fun w => (inr (self w), w).

Definition modify_self (f : BlockSparseAttention -> BlockSparseAttention)
  : M unit :=
  fun w => (inr tt, World (f (self w)) (heap w) (trace w)).

Definition emit (e : event) : M unit :=
  fun w => (inr tt, World (self w) (heap w) (trace w ++ [e])).

Definition alloc (t : tensor val) : M loc :=
  fun w => (inr (length (heap w)), World (self w) (heap w ++ [t]) (trace w)).

Definition load (l : loc) : M (tensor val) :=
  fun w => match heap w !! l with
           | Some t => (inr t, w)
           | None => (inl DanglingReference, w)
           end.

Definition store (l : loc) (t : tensor val) : M unit :=
  fun w => (inr tt, World (self w) (<[l := t]> (heap w)) (trace w)).

Definition assert (b : bool) (a : assertion) : M unit :=
  if b then ret tt else raise (AssertionError a).

(** [obj.name] on an attribute that may be missing. *)
Definition getattr {A} (name : string) (field : option A) : M A :=
  match field with
  | Some a => ret a
  | None => raise (AttributeError name)
  end.

(** [t.shape[i]] and [t.size(i)]. *)
Definition shape_at {A} (t : tensor A) (i : Z) : M nat :=
  match py_index (t_shape t) i with
  | Some n => ret n
  | None => raise IndexError
  end.

(** ** [BlockSparseAttention.__init__] *)

Definition supported_block_sizes : list Z := [16; 32; 64; 128]%Z.

Definition block_size_supported (b : Z) : bool :=
  existsb (Z.eqb b) supported_block_sizes.

(** [str(layout.shape)]. *)
Definition shape_repr (s : list nat) : string :=
  ("torch.Size([" ++ String.concat ", " (map string_of_nat s) ++ "])")%string.

Definition layout_warnings (new_shape : list nat) : list event :=
  [ Warning
      "The layout passed is lacking a head dimension and a batch dimension";
    Warning
      "Now assuming that the same layout is to be used across all heads";
    Warning ("New layout dimensions: " ++ shape_repr new_shape) ].

(** The constructor returns the instance or the exception, and what it
    logged.  [num_heads] is a count; [dropout] goes to [torch.nn.Dropout],
    which checks it. *)
Definition init (layout : tensor Z) (block_size : Z) (dropout : scalar)
    (num_heads : nat) (causal : bool)
  : (exn + BlockSparseAttention) * list event :=
  let '(layout, log) :=
    if length (t_shape layout) =? 2
    then let layout' := expand_heads 0%Z layout num_heads in
         (layout', layout_warnings (t_shape layout'))
    else (layout, []) in
  if negb (block_size_supported block_size)
  then (inl (AssertionError UnsupportedBlockSize), log)
  else if negb (dropout_accepts dropout)
  then (inl ValueError, log)
  else (inr (Module_ causal (MkDropout dropout false) layout block_size
               true true true false
               None None None None None),
        log).

(** ** [update_mask_type] *)

(** Modelled from the spec: [bool_mask_to_additive] lives in
    [xformers/components/attention/utils.py], which is not part of the
    sources at hand.  It builds a new float tensor of the mask's shape whose
    elements are the additive form of the boolean ones (True to 0.0, False to
    a large negative value); the elementwise map is [additive_of_bool]. *)
Definition bool_mask_to_additive (mask : loc) : M loc :=
  t <- load mask ;;
  alloc (Tensor Float32 (t_device t) (t_shape t)
           (map additive_of_bool (t_data t))).

Definition update_mask_type (mask : loc) : M loc :=
  emit (Warning
          "Mask has to be additive. Fixing that but this slows things down") ;;;
  bool_mask_to_additive mask.

(** ** [create_triton_kernels] *)

Definition blocksparse_matmul := Matmul.
Definition blocksparse_softmax := Softmax.

(** [layout.nonzero(as_tuple=True)] zipped: the coordinates of the non-zero
    entries, in row-major order. *)
Definition nonzero (t : tensor Z) : list (list nat) :=
  filter (fun ix => get 0%Z t ix ≠ 0%Z) (indices (t_shape t)).

(** The body of the [for] loop, on the coordinates still to visit. *)
Fixpoint gather_loop (num_col_blocks : nat) (active : list (list nat))
  : M unit :=
  match active with
  | [] => ret tt
  | [h; i; j] :: rest =>
      s <- get_self ;;
      tg <- getattr "to_gather" (to_gather s) ;;
      modify_self
        (set_to_gather
           (Gather (g_device tg) (g_index tg ++ [h * num_col_blocks + j]))) ;;;
      s <- get_self ;;
      bg <- getattr "broadcast_to_gather" (broadcast_to_gather s) ;;
      modify_self
        (set_broadcast_to_gather
           (Gather (g_device bg) (g_index bg ++ [j]))) ;;;
      gather_loop num_col_blocks rest
  | _ :: _ => raise ValueError         (* (h, i, j) does not unpack *)
  end.

Definition create_triton_kernels (dev : device) : M unit :=
  s <- get_self ;;
  modify_self
    (set_sparse_dot_sdd
       (blocksparse_matmul (layout s) (block_size s) sdd false true dev)) ;;;
  s <- get_self ;;
  modify_self
    (set_sparse_dot_dsd
       (blocksparse_matmul (layout s) (block_size s) dsd false false dev)) ;;;
  s <- get_self ;;
  modify_self
    (set_sparse_softmax (blocksparse_softmax (layout s) (block_size s) dev)) ;;;
  modify_self (set_to_gather (Gather None [])) ;;;
  modify_self (set_broadcast_to_gather (Gather None [])) ;;;
  s <- get_self ;;
  num_col_blocks <- shape_at (layout s) (-1) ;;
  gather_loop num_col_blocks (nonzero (layout s)) ;;;
  s <- get_self ;;
  tg <- getattr "to_gather" (to_gather s) ;;
  modify_self (set_to_gather (Gather (Some dev) (g_index tg))) ;;;
  s <- get_self ;;
  bg <- getattr "broadcast_to_gather" (broadcast_to_gather s) ;;
  modify_self (set_broadcast_to_gather (Gather (Some dev) (g_index bg))).

(** ** [forward] *)

(** [t.to(dtype)]: the tensor itself when it already has the dtype, a new
    tensor otherwise. *)
Definition cast_tensor (d : dtype) (t : tensor val) : tensor val :=
  Tensor d (t_device t) (t_shape t) (map (cast d) (t_data t)).

Definition to_dtype (d : dtype) (l : loc) : M loc :=
  t <- load l ;;
  if dtype_eqb (t_dtype t) d
  then ret l
  else alloc (cast_tensor d t).

(** [t.half()]. *)
Definition half : loc -> M loc := to_dtype Float16.

(** [t / c] for a Python float [c]: a new tensor. *)
Definition div_tensor (t : tensor val) (c : scalar) : tensor val :=
  Tensor (t_dtype t) (t_device t) (t_shape t)
         (map (fun x => vdiv x c) (t_data t)).

Definition div_scalar (l : loc) (c : scalar) : M loc :=
  t <- load l ;;
  alloc (div_tensor t c).

(** [t + src] with [src] broadcast to the shape of [t]. *)
Definition add_broadcast (t src : tensor val) : tensor val :=
  Tensor (t_dtype t) (t_device t) (t_shape t)
    (map (fun ix =>
            vadd (get vzero t ix)
                 (get vzero src (broadcast_index (t_shape src) ix)))
         (indices (t_shape t))).

(** [dst += src]: in place, [src] broadcast to the shape of [dst].  torch
    raises a RuntimeError when the shapes do not broadcast and when the two
    tensors are on different devices. *)
Definition iadd (dst : loc) (src : tensor val) : M unit :=
  t <- load dst ;;
  if broadcastable (t_shape src) (t_shape t)
     && device_eqb (t_device src) (t_device t)
  then emit (AddMask src) ;;;
       store dst (add_broadcast t src)
  else raise RuntimeError.

(** Python's [a % b] and [a // b] on ints. *)
Definition py_mod (a b : Z) : M Z :=
  if (b =? 0)%Z then raise ZeroDivisionError else ret (a mod b)%Z.

Definition py_floordiv (a b : Z) : M Z :=
  if (b =? 0)%Z then raise ZeroDivisionError else ret (a / b)%Z.

(** Calling a kernel object: the call is observed, then the kernel yields a
    new tensor or fails. *)
Definition run_kernel (e : event) (r : string + tensor val) : M loc :=
  emit e ;;;
  match r with
  | inr t => alloc t
  | inl msg => raise (TritonError msg)
  end.

(** [if att_mask is not None: att_mask = f(att_mask)]. *)
Definition on_mask (f : loc -> M loc) (att_mask : option loc)
  : M (option loc) :=
  match att_mask with
  | Some m => m' <- f m ;; ret (Some m')
  | None => ret None
  end.

(** The [# apply masks] block, for a mask that is present. *)
Definition apply_mask (sparse_att_mat q att_mask : loc) : M unit :=
  s <- get_self ;;
  tm <- load att_mask ;;
  tq <- load q ;;
  (* mask shape is either (B,1,1,S) or (B,nh,1,S) *)
  c1 <- (m0 <- shape_at tm 0 ;; q0 <- shape_at tq 0 ;; ret (m0 =? q0)) ;;
  c2 <- (if c1 : bool
         then m1 <- shape_at tm 1 ;; q1 <- shape_at tq 1 ;;
              ret ((m1 =? q1) || (m1 =? 1))
         else ret false) ;;
  c3 <- (if c2 : bool
         then ml <- shape_at tm (-1) ;; q2 <- shape_at tq (-2) ;;
              ret (ml =? q2)
         else ret false) ;;
  assert c3 MaskShape ;;;
  (* reshape input mask into blocks *)
  m0 <- shape_at tm 0 ;;
  m1 <- shape_at tm 1 ;;
  ml <- shape_at tm (-1) ;;
  n <- py_floordiv (Z.of_nat m1 * Z.of_nat ml) (block_size s) ;;
  block_att_mask <- lift (reshape tm [Z.of_nat m0; n; block_size s]) ;;
  (* gather based on predefined layout *)
  m1 <- shape_at tm 1 ;;
  block_att_mask <-
    (if m1 =? 1
     then bg <- getattr "broadcast_to_gather" (broadcast_to_gather s) ;;
          lift (index_rows vzero block_att_mask (g_device bg) (g_index bg))
     else tg <- getattr "to_gather" (to_gather s) ;;
          lift (index_rows vzero block_att_mask (g_device tg) (g_index tg))) ;;
  (* broadcast across the attention matrix blocks row dimension *)
  rhs <- lift (unsqueeze_m2 block_att_mask) ;;
  iadd sparse_att_mat rhs.

(** [q.shape[-2]] and [k.shape[-2]] are read once and reused by the
    assertions: reading a shape has no effect, and a failing read fails the
    first time. *)
Definition forward (q k v : loc) (att_mask : option loc) (scale : scalar)
  : M loc :=
  (* Delayed triton init: infer device from query *)
  s <- get_self ;;
  match sparse_dot_sdd s with           (* hasattr(self, "sparse_dot_sdd") *)
  | Some _ => ret tt
  | None => tq <- load q ;; create_triton_kernels (t_device tq)
  end ;;;
  att_mask <-
    on_mask (fun m => tm <- load m ;;
                      if dtype_eqb (t_dtype tm) Bool8
                      then update_mask_type m
                      else ret m)
            att_mask ;;
  s <- get_self ;;
  tq <- load q ;;
  tk <- load k ;;
  q_len <- shape_at tq (-2) ;;
  k_len <- shape_at tk (-2) ;;
  assert (q_len =? k_len) KQDimensions ;;;
  rows <- shape_at (layout s) (-2) ;;
  assert (Z.of_nat q_len =? Z.of_nat rows * block_size s)%Z
         SequenceLayoutInconsistent ;;;
  assert (Z.of_nat k_len =? Z.of_nat rows * block_size s)%Z
         SequenceLayoutInconsistent ;;;
  r <- py_mod (Z.of_nat q_len) (block_size s) ;;
  assert (r =? 0)%Z (NotMultipleOfBlock q_len (block_size s)) ;;;
  (* Blocksparse only works on fp16 *)
  let q_dtype := t_dtype tq in
  q <- half q ;;
  k <- half k ;;
  v <- half v ;;
  att_mask <- on_mask half att_mask ;;
  (* (sparse) attention matrix = (dense) Kt * (dense) Q *)
  tq <- load q ;;
  head_dim <- shape_at tq (-1) ;;
  q <- div_scalar q (math_sqrt head_dim) ;;
  sparse_dot_sdd_ <- getattr "sparse_dot_sdd" (sparse_dot_sdd s) ;;
  tq <- load q ;;
  tk <- load k ;;
  sparse_att_mat <-
    run_kernel (SparseDotSdd tq tk) (matmul_call sparse_dot_sdd_ tq tk) ;;
  (* apply masks *)
  match att_mask with
  | Some m => apply_mask sparse_att_mat q m
  | None => ret tt
  end ;;;
  (* softmax on the sparse attention matrix *)
  sparse_softmax_ <- getattr "sparse_softmax" (sparse_softmax s) ;;
  x <- load sparse_att_mat ;;
  sparse_att_mat <-
    run_kernel (SparseSoftmax x scale (causal s))
               (softmax_call sparse_softmax_ x scale (causal s)) ;;
  x <- load sparse_att_mat ;;
  emit (AttnDrop x) ;;;
  sparse_att_mat <- alloc (dropout_call (attn_drop s) x) ;;
  (* (dense) attention is (sparse) attention matrix * dense (value) *)
  sparse_dot_dsd_ <- getattr "sparse_dot_dsd" (sparse_dot_dsd s) ;;
  x <- load sparse_att_mat ;;
  tv <- load v ;;
  a <- run_kernel (SparseDotDsd x tv) (matmul_call sparse_dot_dsd_ x tv) ;;
  to_dtype q_dtype a.

End Attention.


(** ** An executable instance

    Integers stand for the floats, and the kernels only produce tensors of
    the shape the real ones produce: enough to run the orchestration on
    concrete inputs. *)
Module Run.

#[export] Instance numerics : Numerics := {|
  val := Z;
  scalar := Z;
  vzero := 0%Z;
  cast := fun _ x => x;
  vadd := Z.add;
  vdiv := Z.div;
  math_sqrt := fun n => Z.sqrt (Z.of_nat n)
|}.

Definition full (d : dtype) (dev : device) (shape : list nat) (x : Z)
  : tensor Z :=
  Tensor d dev shape (replicate (numel shape) x).

Definition matmul_shape (k : matmul) (a b : tensor Z) : list nat :=
  match mm_mode k with
  | sdd =>
      [ default 0 (t_shape a !! 0); length (nonzero (mm_layout k));
        Z.to_nat (mm_block k); Z.to_nat (mm_block k) ]
  | dsd => t_shape b
  | dds => t_shape a
  end.

#[export] Instance kernels : Kernels := {|
  matmul_call := fun k a b =>
    if device_eqb (mm_device k) (t_device a)
    then inr (full (t_dtype a) (t_device a) (matmul_shape k a b) 0%Z)
    else inl "device mismatch"%string;
  softmax_call := fun k x scale is_causal =>
    inr (Tensor (t_dtype x) (t_device x) (t_shape x)
           (map (Z.mul scale) (t_data x)));
  dropout_accepts := fun p => (0 <=? p)%Z && (p <=? 1)%Z;
  dropout_call := fun d x => x;
  additive_of_bool := fun b => if (b =? 0)%Z then (-1000000)%Z else 0%Z
|}.

(** One head, one active block of size 16, batch 1, head dimension 4. *)
Definition layout1 : tensor Z := Tensor Int64 Cpu [1; 1; 1] [1%Z].

Definition qkv (d : dtype) (dev : device) : tensor Z :=
  full d dev [1; 1; 16; 4] 6%Z.

Definition module1 : BlockSparseAttention :=
  Module_ false (MkDropout 0%Z false) layout1 16%Z
          true true true false None None None None None.

(** The caller's heap: q, k, v at 0, 1, 2 and a mask at 3. *)
Definition heap1 (d : dtype) (dev : device) (mask : tensor Z)
  : list (tensor Z) :=
  [qkv d dev; qkv d dev; qkv d dev; mask].

Definition world1 (d : dtype) (mask : tensor Z) : world :=
  World module1 (heap1 d (Cuda 0) mask) [].

Definition good_mask : tensor Z := full Float32 (Cuda 0) [1; 1; 1; 16] 0%Z.
Definition bad_mask : tensor Z := full Float32 (Cuda 0) [2; 1; 1; 16] 0%Z.

(** A call with a mask of the right shape, and one with a mask whose batch
    size is wrong. *)
Definition run_good : (exn + loc) * world :=
  forward 0 1 2 (Some 3) 1%Z (world1 Float32 good_mask).

Definition run_bad : (exn + loc) * world :=
  forward 0 1 2 (Some 3) 1%Z (world1 Float32 bad_mask).



(** Two heads over 2 x 2 blocks: head 0 has blocks (0,0), (1,0), (1,1),
    head 1 has block (0,1). *)
Definition layout2 : tensor Z :=
  Tensor Int64 Cpu [2; 2; 2] [1; 0; 1; 1; 0; 1; 0; 0]%Z.

Definition module2 : BlockSparseAttention :=
  Module_ false (MkDropout 0%Z false) layout2 16%Z
          true true true false None None None None None.

Definition world2 : world := World module2 [] [].

(** A mask shared by the heads over a sequence of 32 tokens, each token
    with a value of its own. *)
Definition mask2 : tensor Z :=
  Tensor Float16 (Cuda 0) [1; 1; 1; 32] (map Z.of_nat (seq 0 32)).

(** A layout without a head dimension. *)
Definition layout_2d : tensor Z := Tensor Int64 Cpu [2; 2] [1; 0; 1; 1]%Z.

(** Tensors and states for further runs: a key twice as long as the query,
    a query without a sequence dimension, a mask with a row per query
    position, a boolean mask; two heads over 32 tokens in half precision
    with a mask that has a row per head. *)
Definition long_key : tensor Z := full Float32 (Cuda 0) [1; 1; 32; 4] 6%Z.
Definition flat_query : tensor Z := full Float32 (Cuda 0) [4] 6%Z.
Definition full_mask : tensor Z := full Float32 (Cuda 0) [1; 1; 16; 16] 0%Z.
Definition bool_mask : tensor Z := full Bool8 (Cuda 0) [1; 1; 1; 16] 1%Z.
Definition world_of (hp : list (tensor Z)) : world := World module1 hp [].
Definition qkv2 : tensor Z := full Float16 (Cuda 0) [1; 2; 32; 4] 6%Z.
Definition mask_heads : tensor Z :=
  Tensor Float16 (Cuda 0) [1; 2; 1; 32] (map Z.of_nat (seq 0 64)).
Definition world3 : world :=
  World module2 [qkv2; qkv2; qkv2; mask_heads] [].
Definition zeros (shape : list nat) : tensor Z :=
  full Float16 (Cuda 0) shape 0%Z.

(** Two heads over 2 x 1 blocks, all of them active. *)
Definition layout_tall : tensor Z :=
  Tensor Int64 Cpu [2; 2; 1] [1; 1; 1; 1]%Z.

Definition module_tall : BlockSparseAttention :=
  Module_ false (MkDropout 0%Z false) layout_tall 16%Z
          true true true false None None None None None.

(** The mask [mask2] and its expansion to two heads, at 3 and 4. *)
Definition world_tall : world :=
  World module_tall
        [qkv2; qkv2; qkv2; mask2; broadcast_to 0%Z mask2 [1; 2; 1; 32]] [].

(** Scores, a query, [mask2] and its expansion, at 0, 1, 2 and 3. *)
Definition world4 : world :=
  World module2
        [zeros [1; 4; 16; 16]; qkv2; mask2;
         broadcast_to 0%Z mask2 [1; 2; 1; 32]] [].
(** Masks of a wrong shape for [world1]: three heads for a query with one,
    and 8 positions for a sequence of 16. *)
Definition bad_heads_mask : tensor Z :=
  full Float32 (Cuda 0) [1; 3; 1; 16] 0%Z.
Definition short_mask : tensor Z := full Float32 (Cuda 0) [1; 1; 1; 8] 0%Z.

(** A mask of the right shape for [world1], on the CPU. *)
Definition cpu_mask : tensor Z := full Float32 Cpu [1; 1; 1; 16] 0%Z.

End Run.


(** ** Specification-side definitions *)

(** The active (head, row, col) triples of a 3-dimensional layout, heads
    outermost, then rows, then columns. *)
Definition active_triples (t : tensor Z) : list (nat * nat * nat) :=
  match t_shape t with
  | [H; R; C] =>
      flat_map (fun h =>
        flat_map (fun i =>
          flat_map (fun j =>
            if decide (get 0%Z t [h; i; j] ≠ 0%Z) then [(h, i, j)] else [])
            (seq 0 C))
          (seq 0 R))
        (seq 0 H)
  | _ => []
  end.

(** What [create_triton_kernels] leaves alone, and what it sets. *)
Definition same_config `{Numerics} (s s' : BlockSparseAttention) : Prop :=
  causal s' = causal s /\ attn_drop s' = attn_drop s
  /\ layout s' = layout s /\ block_size s' = block_size s
  /\ requires_head_dimension s' = requires_head_dimension s
  /\ requires_same_k_q_dimensions s' = requires_same_k_q_dimensions s
  /\ supports_attention_mask s' = supports_attention_mask s
  /\ supports_key_padding_mask s' = supports_key_padding_mask s.

Definition same_kernels `{Numerics} (s s' : BlockSparseAttention) : Prop :=
  sparse_dot_sdd s' = sparse_dot_sdd s
  /\ sparse_dot_dsd s' = sparse_dot_dsd s
  /\ sparse_softmax s' = sparse_softmax s.

Definition to_gather_entry (num_col_blocks : nat) (ix : list nat) : nat :=
  match ix with
  | [h; _; j] => h * num_col_blocks + j
  | _ => 0
  end.

Definition broadcast_entry (ix : list nat) : nat :=
  match ix with
  | [_; _; j] => j
  | _ => 0
  end.

(** What the loop of [create_triton_kernels] does to the instance. *)
Definition gather_post `{Numerics} (ncb : nat) (active : list (list nat))
    (s : BlockSparseAttention) (r : exn + unit) (s' : BlockSparseAttention)
  : Prop :=
  same_config s s' /\ same_kernels s s'
  /\ (forall a, r <> inl (AssertionError a))
  /\ (forall tg bg,
        to_gather s = Some tg -> broadcast_to_gather s = Some bg ->
        Forall (fun ix => length ix = 3) active ->
        r = inr tt
        /\ to_gather s'
           = Some (Gather (g_device tg)
                     (g_index tg ++ map (to_gather_entry ncb) active))
        /\ broadcast_to_gather s'
           = Some (Gather (g_device bg)
                     (g_index bg ++ map broadcast_entry active))).

(** What [create_triton_kernels dev] does to the instance: the three kernel
    objects are bound to [dev] in any case and nothing else changes but the
    gather indices; on a 3-dimensional layout the call returns and the
    gather indices are those of the non-zero blocks. *)
Definition with_kernels `{Numerics} (dev : device) (s : BlockSparseAttention)
    (tg bg : option gather) : BlockSparseAttention :=
  Module_ (causal s) (attn_drop s) (layout s) (block_size s)
    (requires_head_dimension s) (requires_same_k_q_dimensions s)
    (supports_attention_mask s) (supports_key_padding_mask s)
    (Some (blocksparse_matmul (layout s) (block_size s) sdd false true dev))
    (Some (blocksparse_matmul (layout s) (block_size s) dsd false false dev))
    (Some (blocksparse_softmax (layout s) (block_size s) dev))
    tg bg.

Definition create_post `{Numerics} (dev : device)
    (s : BlockSparseAttention) (r : exn + unit) (tg bg : option gather)
  : Prop :=
  (forall a, r <> inl (AssertionError a))
  /\ (forall nh nr nc, t_shape (layout s) = [nh; nr; nc] ->
        r = inr tt
        /\ tg = Some (Gather (Some dev)
                        (map (to_gather_entry nc) (nonzero (layout s))))
        /\ bg = Some (Gather (Some dev)
                        (map broadcast_entry (nonzero (layout s))))).


(** The tensor that [t.to(d)] denotes: [t] itself or its conversion. *)
Definition as_dtype `{Numerics} (d : dtype) (t : tensor val) : tensor val :=
  if dtype_eqb (t_dtype t) d then t else cast_tensor d t.

(** The scores handed to the softmax: those of the first matmul, with the
    block mask added when there is a mask. *)
Definition masked_scores `{Numerics} (att_mask : option loc)
    (evs : list event) (scores x : tensor val) : Prop :=
  (att_mask = None /\ x = scores)
  \/ (exists block_mask,
        In (AddMask block_mask) evs
        /\ t_dtype block_mask = Float16
        /\ x = add_broadcast scores block_mask).

(** What a run of [forward] does, on a query and a key that hold [tq] and
    [tk]: to the heap the caller sees, to the instance, and in the trace. *)
Definition forward_post `{Kernels} (tq tk : tensor val)
    (att_mask : option loc) (scale : scalar)
    (w : world) (r : exn + loc) (w' : world) : Prop :=
  (forall l t, heap w !! l = Some t -> heap w' !! l = Some t)
  /\ match sparse_dot_sdd (self w) with
     | Some _ => self w' = self w
     | None => exists tg bg,
         self w' = with_kernels (t_device tq) (self w) tg bg
     end
  /\ exists evs,
       trace w' = trace w ++ evs
       /\ match r with
          | inl (AssertionError MaskShape) =>
              exists a b, kernel_calls evs = [SparseDotSdd a b]
                          /\ forall m, ~ In (AddMask m) evs
          | inl (AssertionError _) => kernel_calls evs = []
          | inl _ => True
          | inr out =>
              exists d kernel scores x z tv t,
                py_index (t_shape tq) (-1) = Some d
                /\ kernel_calls evs
                   = [ SparseDotSdd
                         (div_tensor (as_dtype Float16 tq) (math_sqrt d))
                         (as_dtype Float16 tk);
                       SparseSoftmax x scale (causal (self w));
                       SparseDotDsd z tv ]
                /\ sparse_dot_sdd (self w') = Some kernel
                /\ matmul_call kernel
                     (div_tensor (as_dtype Float16 tq) (math_sqrt d))
                     (as_dtype Float16 tk) = inr scores
                /\ masked_scores att_mask evs scores x
                /\ t_dtype tv = Float16
                /\ heap w' !! out = Some t
                /\ t_dtype t = t_dtype tq
          end.

(** The block mask of a mask [m] of shape (B, Hm, 1, S) for the active
    blocks [active] of size [b]: block [n], at (head, row, col), holds the
    [b] mask values of the key positions [col * b ..] of that head, or of the
    only head when the mask is shared. *)
Definition block_mask `{Numerics} (active : list (list nat)) (b : nat)
    (m : tensor val) : tensor val :=
  match t_shape m with
  | B :: Hm :: _ =>
      Tensor (t_dtype m) (t_device m) [B; length active; 1; b]
        (map (fun ix =>
                match ix with
                | [x; n; y] =>
                    match nth n active [] with
                    | [h; _; j] =>
                        get vzero m [x; if Hm =? 1 then 0 else h; 0; j * b + y]
                    | _ => vzero
                    end
                | _ => vzero
                end)
             (indices [B; length active; b]))
  | _ => m
  end.

(** What the kernel calls of a run start with, whether the run returns or
    raises: when there is a kernel call at all, the first one is
    [sparse_dot_sdd] on the half-precision query divided by [math.sqrt] of
    its last dimension and on the half-precision key, and every call of
    [sparse_softmax] after it has the caller's [scale]. *)
Definition first_call_post `{Kernels} (tq tk : tensor val) (scale : scalar)
    (w : world) (r : exn + loc) (w' : world) : Prop :=
  exists evs,
    trace w' = trace w ++ evs
    /\ match kernel_calls evs with
       | [] => True
       | e :: rest =>
           exists d,
             py_index (t_shape tq) (-1) = Some d
             /\ e = SparseDotSdd
                      (div_tensor (as_dtype Float16 tq) (math_sqrt d))
                      (as_dtype Float16 tk)
             /\ forall x sc c, In (SparseSoftmax x sc c) rest -> sc = scale
       end.

(** The block masks that a run added to the scores. *)
Definition added_masks `{Numerics} (tr : list event) : list (tensor val) :=
  flat_map (fun e => match e with AddMask bm => [bm] | _ => [] end) tr.

(** Weakest preconditions for the monad: [wp c Q w] holds when running [c]
    from [w] ends in a result and a state that satisfy [Q]. *)
Definition wp `{Numerics} {A} (c : M A) (Q : exn + A -> world -> Prop)
    (w : world) : Prop :=
  Q (fst (c w)) (snd (c w)).

(** ** Instances and outcomes of a call *)

(** The instance that [create_triton_kernels dev] leaves on a 3-dimensional
    layout: the kernel objects and the two index tensors, all on [dev]. *)
Definition initialised `{Numerics} (dev : device) (s : BlockSparseAttention)
  : BlockSparseAttention :=
  let nc := default 0 (py_index (t_shape (layout s)) (-1)) in
  with_kernels dev s
    (Some (Gather (Some dev) (map (to_gather_entry nc) (nonzero (layout s)))))
    (Some (Gather (Some dev) (map broadcast_entry (nonzero (layout s))))).

(** The column of each non-zero entry of a 2-dimensional layout, in
    row-major order. *)
Definition active_columns (lay : tensor Z) : list nat :=
  map (fun ix => nth 1 ix 0) (nonzero lay).

(** The kernels that a call of [forward] on a query [tq] works with are on
    [dev]: the instance has them already, or it has none and the call creates
    them for the device of the query. *)
Definition kernels_on `{Numerics} (dev : device) (tq : tensor val)
    (s : BlockSparseAttention) : Prop :=
  s = initialised dev s \/ (sparse_dot_sdd s = None /\ dev = t_device tq).

(** The messages logged in a trace. *)
Definition warnings `{Numerics} (tr : list event) : list string :=
  flat_map (fun e => match e with Warning msg => [msg] | _ => [] end) tr.

(** Whether the mask passed to [forward] is a boolean tensor. *)
Definition boolean_mask `{Numerics} (hp : list (tensor val))
    (att_mask : option loc) : bool :=
  match att_mask with
  | Some m =>
      match hp !! m with
      | Some tm => dtype_eqb (t_dtype tm) Bool8
      | None => false
      end
  | None => false
  end.

(** The warning that [update_mask_type] logs. *)
Definition mask_warning : string :=
  "Mask has to be additive. Fixing that but this slows things down".

(** What holds of every run of [forward]: the configuration of the instance
    is kept, and a result is a tensor that the run allocated. *)
Definition forward_invariant `{Numerics} (w : world) (r : exn + loc)
    (w' : world) : Prop :=
  same_config (self w) (self w')
  /\ forall out, r = inr out ->
       length (heap w) <= out /\ out < length (heap w').

(** The exceptions that a call of [forward] on valid tensors can end in:
    three of its assertions, an index out of range, a shape or a device that
    does not fit, and what the kernels raise. *)
Definition forward_error (e : exn) : bool :=
  match e with
  | AssertionError KQDimensions
  | AssertionError SequenceLayoutInconsistent
  | AssertionError MaskShape
  | IndexError
  | RuntimeError
  | TritonError _ => true
  | _ => false
  end.

(** * Properties *)

(** ** Shapes and indices *)

Lemma length_flat_map_const {A B} (f : A -> list B) (l : list A) (k : nat) :
  (forall x, length (f x) = k) -> length (flat_map f l) = length l * k.
Proof.
  intros Hf. induction l as [|x l IH]; simpl; [reflexivity|].
  rewrite length_app, Hf, IH. reflexivity.
Qed.

Lemma length_indices (shape : list nat) :
  length (indices shape) = numel shape.
Proof.
  induction shape as [|n rest IH]; simpl; [reflexivity|].
  rewrite (length_flat_map_const _ _ (numel rest)).
  - now rewrite length_seq.
  - intros i. now rewrite length_map.
Qed.

Lemma lookup_flat_map_seq {B} (f : nat -> list B) (k n s i r : nat) :
  (forall x, length (f x) = k) -> i < n -> r < k ->
  flat_map f (seq s n) !! (i * k + r) = f (s + i) !! r.
Proof.
  intros Hf. revert s i. induction n as [|n IH]; intros s i Hi Hr; [lia|].
  simpl. destruct i as [|i].
  - rewrite lookup_app_l by (rewrite Hf; simpl; lia).
    simpl. now rewrite Nat.add_0_r.
  - rewrite lookup_app_r by (rewrite Hf; simpl; lia).
    rewrite Hf. replace (S i * k + r - k) with (i * k + r) by (simpl; lia).
    rewrite IH by lia. f_equal. f_equal. lia.
Qed.

Lemma ravel_lt (shape ix : list nat) :
  in_bounds shape ix = true -> ravel shape ix < numel shape.
Proof.
  revert ix. induction shape as [|n rest IH]; intros [|i ix] Hb;
    simpl in *; try discriminate; [lia|].
  apply andb_true_iff in Hb as [Hi Hb]. apply Nat.ltb_lt in Hi.
  specialize (IH _ Hb). nia.
Qed.

(** The multi-index at a flat offset is the one that ravels to it. *)
Lemma lookup_indices (shape ix : list nat) :
  in_bounds shape ix = true -> indices shape !! ravel shape ix = Some ix.
Proof.
  revert ix. induction shape as [|n rest IH]; intros [|i ix] Hb;
    simpl in *; try discriminate; [reflexivity|].
  apply andb_true_iff in Hb as [Hi Hb]. apply Nat.ltb_lt in Hi.
  rewrite (lookup_flat_map_seq _ (numel rest)).
  - simpl. rewrite list_lookup_fmap, (IH _ Hb). reflexivity.
  - intros x. now rewrite length_map, length_indices.
  - assumption.
  - now apply ravel_lt.
Qed.

Lemma indices_in_bounds (shape ix : list nat) :
  In ix (indices shape) -> in_bounds shape ix = true.
Proof.
  revert ix. induction shape as [|n rest IH]; intros ix Hin; simpl in *.
  - destruct Hin as [<-|[]]. reflexivity.
  - apply in_flat_map in Hin as (i & Hi & Hin).
    apply in_map_iff in Hin as (ix' & <- & Hin').
    apply in_seq in Hi. simpl.
    rewrite (IH _ Hin'), andb_true_r. apply Nat.ltb_lt. lia.
Qed.

(** Reading a tensor built by tabulating [f] over the indices of its shape. *)
Lemma get_tabulate {A} (d : A) dt dev shape (f : list nat -> A) ix :
  in_bounds shape ix = true ->
  get d (Tensor dt dev shape (map f (indices shape))) ix = f ix.
Proof.
  intros Hb. unfold get. simpl.
  apply nth_lookup_Some. rewrite list_lookup_fmap, lookup_indices by assumption.
  reflexivity.
Qed.

Lemma broadcast_index_in_bounds (shape ix : list nat) :
  in_bounds shape ix = true ->
  zip_with (fun d i => if d =? 1 then 0 else i) shape ix = ix.
Proof.
  revert ix. induction shape as [|n rest IH]; intros [|i ix] Hb;
    simpl in *; try discriminate; [reflexivity|].
  apply andb_true_iff in Hb as [Hi Hb]. apply Nat.ltb_lt in Hi.
  rewrite (IH _ Hb). destruct (n =? 1) eqn:E; [|reflexivity].
  apply Nat.eqb_eq in E. f_equal. lia.
Qed.

Lemma in_bounds_length (shape ix : list nat) :
  in_bounds shape ix = true -> length ix = length shape.
Proof.
  revert ix. induction shape as [|n rest IH]; intros [|i ix] Hb;
    simpl in *; try discriminate; [reflexivity|].
  apply andb_true_iff in Hb as [_ Hb]. now rewrite (IH _ Hb).
Qed.

(** Every head slice of [expand_heads t n] is [t]. *)
Lemma get_expand_heads {A} (d : A) (t : tensor A) (n h : nat) ix :
  h < n -> in_bounds (t_shape t) ix = true ->
  get d (expand_heads d t n) (h :: ix) = get d t ix.
Proof.
  intros Hh Hb. unfold expand_heads, broadcast_to.
  rewrite get_tabulate.
  - unfold broadcast_index. cbn [t_shape length].
    rewrite (in_bounds_length _ _ Hb), Nat.sub_diag. cbn [drop zip_with].
    rewrite (broadcast_index_in_bounds _ _ Hb).
    unfold get. simpl. reflexivity.
  - simpl. rewrite Hb, andb_true_r. now apply Nat.ltb_lt.
Qed.

(** ** Construction *)

Section Construction.
Context `{K : Kernels}.



(** C8. When construction goes through, a 2-dimensional layout is stored
    broadcast across the heads: the stored layout has shape
    [num_heads :: shape], each of its head slices reads as the layout that
    was passed, and three warnings are logged, the last one with the shape
    after the broadcast; a 3-dimensional layout is stored as it is and
    nothing is logged. *)
Theorem init_layout (lay : tensor Z) (b : Z) (p : scalar) (n : nat)
    (c : bool) :
  block_size_supported b = true -> dropout_accepts p = true ->
  exists m log,
    init lay b p n c = (inr m, log)
    /\ (length (t_shape lay) = 2 ->
        log
        = [ Warning "The layout passed is lacking a head dimension and a batch dimension";
            Warning "Now assuming that the same layout is to be used across all heads";
            Warning ("New layout dimensions: torch.Size(["
                     ++ String.concat ", "
                          (map string_of_nat (n :: t_shape lay))
                     ++ "])") ]
        /\ t_shape (layout m) = n :: t_shape lay
        /\ forall h ix, h < n -> in_bounds (t_shape lay) ix = true ->
             get 0%Z (layout m) (h :: ix) = get 0%Z lay ix)
    /\ (length (t_shape lay) = 3 -> log = [] /\ layout m = lay).
Proof.
  intros Hb Hp. unfold init.
  destruct (length (t_shape lay) =? 2) eqn:E; rewrite Hb, Hp; simpl;
    eexists _, _; (split; [reflexivity|]); simpl.
  - split; [|intros E'; apply Nat.eqb_eq in E; congruence].
    intros _. repeat split. intros h ix Hh Hix.
    now apply get_expand_heads.
  - split; [intros E'; apply Nat.eqb_neq in E; congruence|].
    intros _. split; reflexivity.
Qed.

End Construction.

Lemma reshape_error {A} (t : tensor A) dims e :
  reshape t dims = inl e -> e = RuntimeError.
Proof.
  unfold reshape. destruct (_ && _); [discriminate|]. now intros [= <-].
Qed.

Lemma index_rows_error {A} (d : A) (t : tensor A) dev idx e :
  index_rows d t dev idx = inl e -> e = IndexError \/ e = RuntimeError.
Proof.
  unfold index_rows.
  destruct (t_shape t) as [|? [|? [|? [|]]]];
    try (intros [= <-]; now left).
  destruct (negb _); [intros [= <-]; now right|].
  destruct (forallb _ _); [discriminate|]. intros [= <-]. now left.
Qed.

Lemma unsqueeze_m2_error {A} (t : tensor A) e :
  unsqueeze_m2 t = inl e -> e = IndexError.
Proof.
  unfold unsqueeze_m2. destruct (t_shape t); [|discriminate].
  now intros [= <-].
Qed.

Lemma reshape_dtype {A} (t t' : tensor A) dims :
  reshape t dims = inr t' -> t_dtype t' = t_dtype t.
Proof.
  unfold reshape. destruct (_ && _); [|discriminate]. now intros [= <-].
Qed.

Lemma index_rows_dtype {A} (d : A) (t t' : tensor A) dev idx :
  index_rows d t dev idx = inr t' -> t_dtype t' = t_dtype t.
Proof.
  unfold index_rows.
  destruct (t_shape t) as [|? [|? [|? [|]]]]; try discriminate.
  destruct (negb _); [discriminate|].
  destruct (forallb _ _); [|discriminate]. now intros [= <-].
Qed.

Lemma unsqueeze_m2_dtype {A} (t t' : tensor A) :
  unsqueeze_m2 t = inr t' -> t_dtype t' = t_dtype t.
Proof.
  unfold unsqueeze_m2. destruct (t_shape t); [discriminate|].
  now intros [= <-].
Qed.

(** ** Reasoning rules for the monad *)

Section Rules.
Context `{K : Kernels}.
Context {A B : Type}.
Implicit Types (Q : exn + A -> world -> Prop) (w : world).

Lemma wp_elim (c : M A) Q w r w' : wp c Q w -> c w = (r, w') -> Q r w'.
Proof. unfold wp. intros HQ E. now rewrite E in HQ. Qed.

Lemma wp_bind (c : M B) (k : B -> M A) Q w :
  wp c (fun r w' => match r with
                    | inr b => wp (k b) Q w'
                    | inl e => Q (inl e) w'
                    end) w ->
  wp (bind c k) Q w.
Proof. unfold wp, bind. destruct (c w) as [[e|b] w']; simpl; auto. Qed.

Lemma wp_ret (a : A) Q w : Q (inr a) w -> wp (ret a) Q w.
Proof. auto. Qed.

Lemma wp_raise (e : exn) Q w : Q (inl e) w -> wp (raise e) Q w.
Proof. auto. Qed.

Lemma wp_lift (r : exn + A) Q w : Q r w -> wp (lift r) Q w.
Proof. destruct r; auto. Qed.

Lemma wp_getattr name (field : option A) Q w :
  match field with
  | Some a => Q (inr a) w
  | None => Q (inl (AttributeError name)) w
  end ->
  wp (getattr name field) Q w.
Proof. destruct field; auto. Qed.

End Rules.

Section UnitRules.
Context `{K : Kernels}.

Lemma wp_get_self (Q : exn + BlockSparseAttention -> world -> Prop) w :
  Q (inr (self w)) w -> wp get_self Q w.
Proof. auto. Qed.

Lemma wp_modify_self f (Q : exn + unit -> world -> Prop) w :
  Q (inr tt) (World (f (self w)) (heap w) (trace w)) ->
  wp (modify_self f) Q w.
Proof. auto. Qed.

Lemma wp_emit e (Q : exn + unit -> world -> Prop) w :
  Q (inr tt) (World (self w) (heap w) (trace w ++ [e])) -> wp (emit e) Q w.
Proof. auto. Qed.

Lemma wp_alloc t (Q : exn + loc -> world -> Prop) w :
  Q (inr (length (heap w))) (World (self w) (heap w ++ [t]) (trace w)) ->
  wp (alloc t) Q w.
Proof. auto. Qed.

Lemma wp_store l t (Q : exn + unit -> world -> Prop) w :
  Q (inr tt) (World (self w) (<[l := t]> (heap w)) (trace w)) ->
  wp (store l t) Q w.
Proof. auto. Qed.

Lemma wp_load l (Q : exn + tensor val -> world -> Prop) w :
  (forall t, heap w !! l = Some t -> Q (inr t) w) ->
  (heap w !! l = None -> Q (inl DanglingReference) w) ->
  wp (load l) Q w.
Proof. unfold wp, load. destruct (heap w !! l); simpl; auto. Qed.

Lemma wp_assert b a (Q : exn + unit -> world -> Prop) w :
  (b = true -> Q (inr tt) w) ->
  (b = false -> Q (inl (AssertionError a)) w) ->
  wp (assert b a) Q w.
Proof. destruct b; unfold wp; simpl; auto. Qed.

Lemma wp_shape_at {X} (t : tensor X) i (Q : exn + nat -> world -> Prop) w :
  (forall n, py_index (t_shape t) i = Some n -> Q (inr n) w) ->
  (py_index (t_shape t) i = None -> Q (inl IndexError) w) ->
  wp (shape_at t i) Q w.
Proof. unfold wp, shape_at. destruct (py_index _ _); simpl; auto. Qed.

Lemma wp_py_mod a b (Q : exn + Z -> world -> Prop) w :
  (b <> 0%Z -> Q (inr (a mod b)%Z) w) ->
  (b = 0%Z -> Q (inl ZeroDivisionError) w) ->
  wp (py_mod a b) Q w.
Proof.
  unfold wp, py_mod. destruct (Z.eqb_spec b 0); simpl; auto.
Qed.

Lemma wp_py_floordiv a b (Q : exn + Z -> world -> Prop) w :
  (b <> 0%Z -> Q (inr (a / b)%Z) w) ->
  (b = 0%Z -> Q (inl ZeroDivisionError) w) ->
  wp (py_floordiv a b) Q w.
Proof.
  unfold wp, py_floordiv. destruct (Z.eqb_spec b 0); simpl; auto.
Qed.

End UnitRules.

(** Projections of an updated instance or state. *)
Ltac simpl_state :=
  cbv beta iota zeta;
  cbn [self heap trace causal attn_drop layout block_size with_kernels
       sparse_dot_sdd sparse_dot_dsd sparse_softmax to_gather
       broadcast_to_gather set_sparse_dot_sdd set_sparse_dot_dsd
       set_sparse_softmax set_to_gather set_broadcast_to_gather
       g_device g_index].

(** One step of symbolic execution; a branch whose guard is absurd ends. *)
Ltac wp_step :=
  simpl_state;
  lazymatch goal with
  | |- wp (bind _ _) _ _ => apply wp_bind
  | |- wp (ret _) _ _ => apply wp_ret
  | |- wp (raise _) _ _ => apply wp_raise
  | |- wp (lift ?r) _ _ =>
      apply wp_lift;
      let E := fresh "E" in destruct r as [?|?] eqn:E
  | |- wp (getattr _ ?f) _ _ =>
      apply wp_getattr;
      first [ lazymatch f with Some _ => idtac end
            | match goal with E' : f = _ |- _ => rewrite E' end
            | let E := fresh "E" in
              destruct f as [?|] eqn:E; try discriminate E ]
  | |- wp get_self _ _ => apply wp_get_self
  | |- wp (modify_self _) _ _ => apply wp_modify_self
  | |- wp (emit _) _ _ => apply wp_emit
  | |- wp (alloc _) _ _ => apply wp_alloc
  | |- wp (store _ _) _ _ => apply wp_store
  | |- wp (load _) _ _ => apply wp_load; [intros ? ?|intros ?]
  | |- wp (assert _ _) _ _ =>
      let Hb := fresh "Hb" in
      apply wp_assert; intros Hb; try discriminate Hb
  | |- wp (shape_at _ _) _ _ => apply wp_shape_at; [intros ? ?|intros ?]
  | |- wp (py_mod _ _) _ _ => apply wp_py_mod; intros ?
  | |- wp (py_floordiv _ _) _ _ => apply wp_py_floordiv; intros ?
  | |- wp (match ?x with _ => _ end) _ _ =>
      let E := fresh "E" in destruct x eqn:E; try discriminate E
  | |- wp (to_dtype _ _) _ _ => unfold to_dtype
  | |- wp (half _) _ _ => unfold half, to_dtype
  | |- wp (div_scalar _ _) _ _ => unfold div_scalar
  | |- wp (iadd _ _) _ _ => unfold iadd
  | |- wp (run_kernel _ _) _ _ => unfold run_kernel
  | |- wp (on_mask _ _) _ _ => unfold on_mask
  | |- wp (update_mask_type _) _ _ => unfold update_mask_type
  | |- wp (bool_mask_to_additive _) _ _ => unfold bool_mask_to_additive
  | |- wp (apply_mask _ _ _) _ _ => unfold apply_mask
  end.

(** ** Kernel creation *)

Section Creation.
Context `{K : Kernels}.

Lemma gather_post_fail ncb ix rest s e :
  (forall a, e <> AssertionError a) ->
  length ix <> 3 -> gather_post ncb (ix :: rest) s (inl e) s.
Proof.
  intros Hna Hlen. split; [|split; [|split]]; [repeat split..| |].
  - intros a [= ->]. now apply (Hna a).
  - intros tg bg _ _ Hall. apply Forall_cons in Hall as [Hall _].
    contradiction.
Qed.

Lemma gather_post_missing ncb active s s' name :
  same_config s s' -> same_kernels s s' ->
  to_gather s = None \/ broadcast_to_gather s = None ->
  gather_post ncb active s (inl (AttributeError name)) s'.
Proof.
  intros Hc Hk Hnone. split; [|split; [|split]]; [assumption..| |].
  - intros a. discriminate.
  - intros tg bg Htg Hbg _. destruct Hnone; congruence.
Qed.

Lemma wp_gather_loop ncb active (Q : exn + unit -> world -> Prop) w :
  (forall r s', gather_post ncb active (self w) r s' ->
                Q r (World s' (heap w) (trace w))) ->
  wp (gather_loop ncb active) Q w.
Proof.
  revert w Q. induction active as [|ix rest IH]; intros w Q HQ.
  - simpl. apply wp_ret. destruct w as [s h t]. apply HQ.
    split; [|split; [|split]]; [repeat split..| |].
    + intros a. discriminate.
    + intros [d tg] [d' bg] Htg Hbg _. simpl in *.
      rewrite Htg, Hbg, !app_nil_r. auto.
  - assert (Bad : length ix <> 3 -> Q (inl ValueError) w).
    { intros Hlen. destruct w as [s h t]. apply HQ.
      apply gather_post_fail; [intros a; discriminate|assumption]. }
    destruct ix as [|h0 [|i0 [|j0 [|]]]]; simpl;
      try (apply wp_raise, Bad; simpl; lia).
    repeat wp_step.
    + apply IH. cbn [self heap trace]. intros r s' (Hc & Hk & Hna & Hg).
      apply HQ. split; [|split; [|split]].
      * exact Hc.
      * exact Hk.
      * exact Hna.
      * intros tg bg Htg Hbg Hall. apply Forall_cons in Hall as [_ Hall].
        match goal with H : to_gather (self w) = Some _ |- _ =>
          rewrite Htg in H; injection H as <- end.
        match goal with H : broadcast_to_gather _ = Some _ |- _ =>
          simpl in H; rewrite Hbg in H; injection H as <- end.
        destruct (Hg _ _ eq_refl eq_refl Hall) as (-> & -> & ->).
        simpl. rewrite <- !app_assoc. auto.
    + destruct w as [s h t]. apply HQ.
      apply gather_post_missing; simpl in *; auto; repeat split.
    + destruct w as [s h t]. apply HQ.
      apply gather_post_missing; simpl in *; auto; repeat split.
Qed.

Lemma nonzero_length3 (t : tensor Z) nh nr nc :
  t_shape t = [nh; nr; nc] -> Forall (fun ix => length ix = 3) (nonzero t).
Proof.
  intros Hs. apply Forall_forall. intros ix Hin.
  unfold nonzero in Hin. apply list_elem_of_filter in Hin as [_ Hin].
  apply list_elem_of_In, indices_in_bounds in Hin.
  rewrite (in_bounds_length _ _ Hin), Hs. reflexivity.
Qed.

Lemma wp_create_triton_kernels dev (Q : exn + unit -> world -> Prop) w :
  (forall r tg bg, create_post dev (self w) r tg bg ->
     Q r (World (with_kernels dev (self w) tg bg) (heap w) (trace w))) ->
  wp (create_triton_kernels dev) Q w.
Proof.
  intros HQ.
  assert (HQ' : forall r s',
    same_config (self w) s' ->
    sparse_dot_sdd s' = sparse_dot_sdd (with_kernels dev (self w) None None) ->
    sparse_dot_dsd s' = sparse_dot_dsd (with_kernels dev (self w) None None) ->
    sparse_softmax s' = sparse_softmax (with_kernels dev (self w) None None) ->
    create_post dev (self w) r (to_gather s') (broadcast_to_gather s') ->
    Q r (World s' (heap w) (trace w))).
  { intros r s' (C1 & C2 & C3 & C4 & C5 & C6 & C7 & C8) K1 K2 K3 Hp.
    specialize (HQ _ _ _ Hp). destruct s'. simpl in *. unfold with_kernels in HQ.
    now subst. }
  clear HQ. unfold create_triton_kernels. repeat wp_step.
  - apply wp_gather_loop. simpl_state.
    intros r s' (Hc & Hk & Hna & Hg). specialize (Hg _ _ eq_refl eq_refl).
    destruct Hk as (Hk1 & Hk2 & Hk3). simpl in *.
    destruct r as [e|[]]; repeat wp_step.
    all: apply HQ'; simpl_state; try assumption; try exact Hc.
    all: split; [intros a; first [discriminate|apply Hna]|].
    all: intros nh nr nc Hs;
         destruct (Hg (nonzero_length3 _ _ _ _ Hs)) as (Hr & Htg & Hbg);
         simpl in *; try discriminate; try congruence.
    rewrite Hs in *. simpl in *.
    match goal with E : py_index _ _ = Some _ |- _ =>
      injection E as <- end.
    injection Htg as ->. injection Hbg as ->. simpl. auto.
  - (* layout.shape[-1] fails *)
    apply HQ'; simpl_state; try reflexivity; [repeat split|].
    split; [intros a; discriminate|].
    intros nh nr nc Hs. exfalso.
    match goal with E : py_index _ _ = None |- _ =>
      rewrite Hs in E; discriminate E end.
Qed.

Lemma nonzero_enumeration (P : list nat -> Prop) `{forall ix, Decision (P ix)}
    (lh li lj : list nat) :
  filter P
    (flat_map (fun h => map (cons h)
       (flat_map (fun i => map (cons i)
          (flat_map (fun j => map (cons j) [[]]) lj)) li)) lh)
  = map (fun t : nat * nat * nat => [t.1.1; t.1.2; t.2])
      (flat_map (fun h =>
         flat_map (fun i =>
           flat_map (fun j =>
             if decide (P [h; i; j]) then [(h, i, j)] else []) lj) li) lh).
Proof.
  induction lh as [|h lh IHh]; cbn [flat_map]; [reflexivity|].
  rewrite filter_app, map_app, IHh. f_equal. clear IHh.
  induction li as [|i li IHi]; cbn [flat_map]; [reflexivity|].
  rewrite map_app, filter_app, map_app, IHi. f_equal. clear IHi.
  induction lj as [|j lj IHj]; cbn [flat_map]; [reflexivity|].
  cbn [map app]. rewrite filter_cons, map_app, <- IHj.
  destruct (decide (P [h; i; j])); reflexivity.
Qed.

Lemma nonzero_active_triples (t : tensor Z) nh nr nc :
  t_shape t = [nh; nr; nc] ->
  nonzero t
  = map (fun x : nat * nat * nat => [x.1.1; x.1.2; x.2]) (active_triples t).
Proof.
  intros Hs. unfold nonzero, active_triples. rewrite Hs. cbn [indices].
  exact (nonzero_enumeration (fun ix => get 0%Z t ix <> 0%Z)
           (seq 0 nh) (seq 0 nr) (seq 0 nc)).
Qed.

Lemma In_active_triples (t : tensor Z) nh nr nc h i j :
  t_shape t = [nh; nr; nc] ->
  In (h, i, j) (active_triples t)
  <-> h < nh /\ i < nr /\ j < nc /\ get 0%Z t [h; i; j] <> 0%Z.
Proof.
  intros Hs. unfold active_triples. rewrite Hs.
  rewrite in_flat_map. setoid_rewrite in_flat_map.
  setoid_rewrite in_flat_map. setoid_rewrite in_seq. split.
  - intros (h' & Hh & i' & Hi & j' & Hj & Hin).
    destruct (decide _) as [Hnz|]; [|destruct Hin].
    destruct Hin as [[= -> -> ->]|[]].
    split; [lia|split; [lia|split; [lia|exact Hnz]]].
  - intros (Hh & Hi & Hj & Hnz).
    exists h. split; [lia|]. exists i. split; [lia|].
    exists j. split; [lia|].
    destruct (decide _); [now left|contradiction].
Qed.

(** C5. On a 3-dimensional layout, kernel creation returns and leaves two
    index sequences on the device: entry [idx] of [to_gather] is
    [head * num_col_blocks + col_block] and entry [idx] of
    [broadcast_to_gather] is [col_block], where (head, row, col) is the
    [idx]-th active triple.  The active triples are the non-zero positions
    of the layout, enumerated heads outermost, then rows, then columns
    ([active_triples]). *)
Theorem create_triton_kernels_gather dev (w : world) nh nr nc :
  t_shape (layout (self w)) = [nh; nr; nc] ->
  let triples := active_triples (layout (self w)) in
  exists s' tg bg,
    create_triton_kernels dev w = (inr tt, World s' (heap w) (trace w))
    /\ to_gather s' = Some (Gather (Some dev) tg)
    /\ broadcast_to_gather s' = Some (Gather (Some dev) bg)
    /\ tg = map (fun x : nat * nat * nat => x.1.1 * nc + x.2) triples
    /\ bg = map (fun x : nat * nat * nat => x.2) triples
    /\ (forall idx h i j, triples !! idx = Some (h, i, j) ->
          tg !! idx = Some (h * nc + j) /\ bg !! idx = Some j)
    /\ (forall h i j, In (h, i, j) triples
          <-> h < nh /\ i < nr /\ j < nc
              /\ get 0%Z (layout (self w)) [h; i; j] <> 0%Z).
Proof.
  intros Hs triples.
  pose proof (wp_create_triton_kernels dev
    (fun r w' => exists tg bg,
       (r, w') = (r, World (with_kernels dev (self w) tg bg)
                           (heap w) (trace w))
       /\ create_post dev (self w) r tg bg) w) as Hwp.
  unfold wp in Hwp.
  destruct Hwp as (tg & bg & Hrun & Hpost); [intros r tg bg Hp; eauto|].
  destruct Hpost as (_ & Hg).
  destruct (Hg _ _ _ Hs) as (Hr & Htg & Hbg).
  rewrite (nonzero_active_triples _ _ _ _ Hs), map_map in Htg, Hbg.
  simpl in Htg, Hbg. fold triples in Htg, Hbg.
  eexists (with_kernels dev (self w) tg bg), _, _.
  split; [|split; [exact Htg|split; [exact Hbg|]]].
  - rewrite (surjective_pairing (create_triton_kernels dev w)).
    injection Hrun as Hrun. now rewrite Hrun, Hr.
  - split; [reflexivity|]. split; [reflexivity|]. split.
    + intros idx h i j Hidx.
      rewrite !list_lookup_fmap, Hidx. simpl. auto.
    + intros h i j. now apply In_active_triples.
Qed.

End Creation.


(** ** The heap along a run *)

Section HeapRules.
Context `{K : Kernels}.

Lemma dtype_eqb_eq (a b : dtype) : dtype_eqb a b = true <-> a = b.
Proof. destruct a, b; simpl; split; congruence. Qed.

Lemma as_dtype_dtype (d : dtype) (t : tensor val) : t_dtype (as_dtype d t) = d.
Proof.
  unfold as_dtype. destruct (dtype_eqb (t_dtype t) d) eqn:E; [|reflexivity].
  now apply dtype_eqb_eq.
Qed.

Lemma as_dtype_shape (d : dtype) (t : tensor val) :
  t_shape (as_dtype d t) = t_shape t.
Proof. unfold as_dtype. now destruct (dtype_eqb (t_dtype t) d). Qed.

Lemma as_dtype_device (d : dtype) (t : tensor val) :
  t_device (as_dtype d t) = t_device t.
Proof. unfold as_dtype. now destruct (dtype_eqb (t_dtype t) d). Qed.

Lemma device_eqb_refl (d : device) : device_eqb d d = true.
Proof. destruct d; [reflexivity|apply Nat.eqb_refl]. Qed.

Lemma device_eqb_neq (a b : device) : a <> b -> device_eqb a b = false.
Proof.
  destruct a as [|i], b as [|j]; simpl; try reflexivity; try congruence.
  intros Hne. apply Nat.eqb_neq. congruence.
Qed.

Lemma index_device_ok_same (d : device) : index_device_ok d (Some d) = true.
Proof. destruct d; [reflexivity|apply Nat.eqb_refl]. Qed.

Lemma lookup_insert_frame {X} (h : list X) (l dst : nat) (x c : X) :
  h !! l = Some c -> l <> dst -> <[dst := x]> h !! l = Some c.
Proof. intros Hl Hne. now rewrite list_lookup_insert_ne by congruence. Qed.

Lemma lookup_ne_length {X} (h : list X) (l : nat) (c : X) :
  h !! l = Some c -> l <> length h.
Proof. intros Hl. apply lookup_lt_Some in Hl. lia. Qed.

Lemma lookup_alloc {X} (h : list X) (x : X) : (h ++ [x]) !! length h = Some x.
Proof. now rewrite lookup_app_r, Nat.sub_diag by lia. Qed.

Lemma wp_load_some l t (Q : exn + tensor val -> world -> Prop) w :
  heap w !! l = Some t -> Q (inr t) w -> wp (load l) Q w.
Proof. unfold wp, load. now intros ->. Qed.

Lemma wp_alloc_fact t (Q : exn + loc -> world -> Prop) w :
  ((heap w ++ [t]) !! length (heap w) = Some t ->
   Q (inr (length (heap w))) (World (self w) (heap w ++ [t]) (trace w))) ->
  wp (alloc t) Q w.
Proof. intros HQ. apply wp_alloc, HQ, lookup_alloc. Qed.

Lemma wp_store_fact l t old (Q : exn + unit -> world -> Prop) w :
  heap w !! l = Some old ->
  (<[l := t]> (heap w) !! l = Some t ->
   Q (inr tt) (World (self w) (<[l := t]> (heap w)) (trace w))) ->
  wp (store l t) Q w.
Proof.
  intros Hold HQ. apply wp_store, HQ.
  apply list_lookup_insert_eq. now apply lookup_lt_Some in Hold.
Qed.

(** [t.to(d)] without a case split: the heap grows by a suffix (empty when
    the tensor already has the dtype) and the result denotes [as_dtype]. *)
Lemma wp_to_dtype d l (Q : exn + loc -> world -> Prop) w :
  (forall t, heap w !! l = Some t ->
     forall l' ext, (heap w ++ ext) !! l' = Some (as_dtype d t) ->
       Q (inr l') (World (self w) (heap w ++ ext) (trace w))) ->
  (heap w !! l = None -> Q (inl DanglingReference) w) ->
  wp (to_dtype d l) Q w.
Proof.
  intros Hsome Hnone. unfold to_dtype. apply wp_bind, wp_load; [|exact Hnone].
  intros t Ht. specialize (Hsome t Ht). unfold as_dtype in Hsome.
  destruct (dtype_eqb (t_dtype t) d).
  - apply wp_ret. specialize (Hsome l []). rewrite app_nil_r in Hsome.
    destruct w. now apply Hsome.
  - apply wp_alloc. apply Hsome, lookup_alloc.
Qed.

Lemma wp_to_dtype_some d l t (Q : exn + loc -> world -> Prop) w :
  heap w !! l = Some t ->
  (forall l' ext, (heap w ++ ext) !! l' = Some (as_dtype d t) ->
     Q (inr l') (World (self w) (heap w ++ ext) (trace w))) ->
  wp (to_dtype d l) Q w.
Proof.
  intros Hl HQ. apply wp_to_dtype.
  - intros t' Hl'. rewrite Hl in Hl'. injection Hl' as <-. exact HQ.
  - congruence.
Qed.

End HeapRules.

(** Finding what a location holds, through allocations and updates; a
    location that holds something differs from the next free one. *)
Ltac solve_lookup :=
  first
    [ eassumption
    | apply lookup_app_l_Some; solve_lookup
    | apply lookup_insert_frame;
      [solve_lookup|eapply lookup_ne_length; solve_lookup] ].

(** One step of symbolic execution of a run that uses the heap. *)
Ltac wp_heap_step :=
  simpl_state;
  lazymatch goal with
  | |- wp (load _) _ _ =>
      first [ eapply wp_load_some; [simpl_state; solve_lookup|]
            | apply wp_load; simpl_state; [intros ? ?|intros ?] ]
  | |- wp (alloc _) _ _ => apply wp_alloc_fact; simpl_state; intros ?
  | |- wp (store _ _) _ _ =>
      first [ eapply wp_store_fact;
              [simpl_state; solve_lookup|simpl_state; intros ?]
            | apply wp_store ]
  | |- wp (to_dtype _ _) _ _ =>
      apply wp_to_dtype; simpl_state; [intros ? ? ? ? ?|intros ?]
  | |- wp (half _) _ _ => unfold half
  | |- wp (create_triton_kernels _) _ _ =>
      let r := fresh "r" in
      apply wp_create_triton_kernels; simpl_state; intros r ? ? ?;
      destruct r as [?|[]]
  | |- _ => wp_step
  end.

(** The exceptions of the tensor operations that [forward] lifts. *)
Ltac error_kinds :=
  repeat match goal with
         | E : reshape _ _ = inl ?e |- _ =>
             apply reshape_error in E; subst e
         | E : index_rows _ _ _ _ = inl ?e |- _ =>
             apply index_rows_error in E; destruct E; subst e
         | E : unsqueeze_m2 _ = inl ?e |- _ =>
             apply unsqueeze_m2_error in E; subst e
         end.

(** ** The non-zero positions of a layout *)

Lemma in_bounds3 nh nr nc ix :
  in_bounds [nh; nr; nc] ix = true ->
  exists h i j, ix = [h; i; j] /\ h < nh /\ i < nr /\ j < nc.
Proof.
  destruct ix as [|h [|i [|j [|]]]]; simpl; try discriminate;
    rewrite ?andb_false_r; try discriminate.
  rewrite andb_true_r, !andb_true_iff, !Nat.ltb_lt. intros (? & ? & ?).
  exists h, i, j. auto.
Qed.

Lemma nonzero_in_bounds (t : tensor Z) ix :
  In ix (nonzero t) -> in_bounds (t_shape t) ix = true.
Proof.
  intros Hin. apply list_elem_of_In in Hin. unfold nonzero in Hin.
  apply list_elem_of_filter in Hin as [_ Hin].
  now apply list_elem_of_In, indices_in_bounds in Hin.
Qed.

(** An exception out of [create_triton_kernels] is no assertion error. *)
Ltac create_error :=
  match goal with
  | Hp : create_post _ _ (inl ?e) _ _ |- _ =>
      let Hna := fresh "Hna" in
      destruct Hp as [Hna _];
      try (intros [= ->]); try subst e;
      exfalso; exact (Hna _ eq_refl)
  end.

(** A step that uses what is known of the heap before it splits. *)
Ltac wp_known_step :=
  simpl_state;
  lazymatch goal with
  | |- wp (to_dtype _ _) _ _ =>
      first [ eapply wp_to_dtype_some;
              [simpl_state; solve_lookup|simpl_state; intros ? ? ?]
            | wp_heap_step ]
  | |- _ => wp_heap_step
  end.

(** The three parts of [forward_post] at the end of a path. *)
Ltac leaf_frame :=
  let l := fresh "l" in let t := fresh "t" in let Hl := fresh "Hl" in
  intros l t Hl; simpl_state; solve_lookup.

Ltac leaf_binding :=
  simpl_state;
  match goal with
  | E : sparse_dot_sdd (self ?w) = _
    |- context [match sparse_dot_sdd (self ?w) with _ => _ end] =>
      rewrite E
  end;
  first [reflexivity | eexists _, _; reflexivity].

(** The block mask that is added has the dtype of the mask it comes from. *)
Ltac mask_dtype :=
  repeat match goal with
         | E : unsqueeze_m2 _ = inr _ |- _ =>
             apply unsqueeze_m2_dtype in E; rewrite E
         | E : index_rows _ _ _ _ = inr _ |- _ =>
             apply index_rows_dtype in E; rewrite E
         | E : reshape _ _ = inr _ |- _ =>
             apply reshape_dtype in E; rewrite E
         end;
  apply as_dtype_dtype.

Ltac leaf_scores :=
  first
    [ left; split; [first [reflexivity|assumption]|reflexivity]
    | right; eexists; split;
      [simpl; repeat first [left; reflexivity|right]|];
      split; [mask_dtype|reflexivity] ].

Ltac leaf_trace :=
  simpl_state;
  eexists; split;
  [first [ rewrite <- !app_assoc; reflexivity
         | symmetry; apply app_nil_r
         | reflexivity ]|];
  cbn [kernel_calls List.filter is_kernel_call app];
  repeat match goal with
         | H : py_index (t_shape (as_dtype _ _)) _ = _ |- _ =>
             rewrite as_dtype_shape in H
         end;
  lazymatch goal with
  | |- True => exact I
  | |- _ = [] => reflexivity
  | |- exists a b, _ = [SparseDotSdd a b] /\ _ =>
      let Hin := fresh "Hin" in
      eexists _, _; split; [reflexivity|];
      intros ? Hin; simpl in Hin;
      repeat (destruct Hin as [Hin|Hin]; [discriminate Hin|]); exact Hin
  | |- _ =>
      eexists _, _, _, _, _, _, _;
      split; [eassumption|];
      split; [reflexivity|];
      split; [first [eassumption|reflexivity]|];
      split; [eassumption|];
      split; [leaf_scores|];
      split; [apply as_dtype_dtype|];
      split; [solve_lookup|apply as_dtype_dtype]
  end.

Ltac leaf :=
  error_kinds;
  try match goal with
      | Hp : create_post _ _ (inl ?e) _ _ |- _ =>
          let Hna := fresh "Hna" in
          destruct Hp as [Hna _];
          destruct e; try (exfalso; exact (Hna _ eq_refl))
      end;
  (split; [leaf_frame|split; [leaf_binding|leaf_trace]]).

(** The kernel calls at the end of a path. *)
Ltac leaf_first_call :=
  simpl_state;
  eexists; split;
  [ first [ rewrite <- !app_assoc; reflexivity
          | symmetry; apply app_nil_r
          | reflexivity ] |];
  cbn [kernel_calls List.filter is_kernel_call app];
  repeat match goal with
         | H : py_index (t_shape (as_dtype _ _)) _ = _ |- _ =>
             rewrite as_dtype_shape in H
         end;
  lazymatch goal with
  | |- True => exact I
  | |- _ =>
      let Hin := fresh "Hin" in
      eexists; split; [eassumption|]; split; [reflexivity|];
      intros ? ? ? Hin; simpl in Hin;
      repeat (destruct Hin as [Hin|Hin];
              [first [discriminate Hin | now injection Hin]|]);
      destruct Hin
  end.

(** ** Runs of [forward] *)

Section Forward.
Context `{K : Kernels}.

(** Every run of [forward] on valid tensors ends as [forward_post] says. *)
Lemma forward_run q k v att_mask scale w tq tk tv :
  heap w !! q = Some tq -> heap w !! k = Some tk -> heap w !! v = Some tv ->
  wp (forward q k v att_mask scale) (forward_post tq tk att_mask scale w) w.
Proof.
  intros Hq Hk Hv. unfold forward. repeat wp_known_step.
  all: leaf.
Qed.

Lemma forward_spec q k v att_mask scale w tq tk tv r w' :
  heap w !! q = Some tq -> heap w !! k = Some tk -> heap w !! v = Some tv ->
  forward q k v att_mask scale w = (r, w') ->
  forward_post tq tk att_mask scale w r w'.
Proof.
  intros Hq Hk Hv Hrun.
  exact (wp_elim _ _ _ _ _ (forward_run _ _ _ _ _ _ _ _ _ Hq Hk Hv) Hrun).
Qed.


Lemma forward_first_call_run q k v att_mask scale w tq tk tv :
  heap w !! q = Some tq -> heap w !! k = Some tk -> heap w !! v = Some tv ->
  wp (forward q k v att_mask scale) (first_call_post tq tk scale w) w.
Proof.
  intros Hq Hk Hv. unfold forward. repeat wp_known_step.
  all: leaf_first_call.
Qed.

(** C3. [forward] divides the half-precision query elementwise by
    [math.sqrt] of the size of its last dimension and hands the result to
    the first kernel call: on every run, returning or raising, the kernel
    calls are none (the run failed before) or start with [sparse_dot_sdd] on
    a tensor of the query's shape whose elements are those of the
    half-precision query, each divided by [math.sqrt(head_dim)], and on the
    half-precision key; every later call of [sparse_softmax] has the caller's
    [scale].  On a run that returns, the calls are that matmul, the softmax
    with [scale] on the scores that the matmul returned (with the block mask
    added when there is a mask), and the second matmul.  The softmax thus
    applies [scale] to scores of a query already divided by
    [sqrt(head_dim)]. *)
Theorem forward_scaling q k v att_mask scale w tq tk tv r w' :
  heap w !! q = Some tq -> heap w !! k = Some tk -> heap w !! v = Some tv ->
  forward q k v att_mask scale w = (r, w') ->
  exists evs,
    trace w' = trace w ++ evs
    /\ (forall e rest, kernel_calls evs = e :: rest ->
          exists head_dim a,
            py_index (t_shape tq) (-1) = Some head_dim
            /\ e = SparseDotSdd a (as_dtype Float16 tk)
            /\ t_shape a = t_shape tq
            /\ t_dtype a = Float16
            /\ t_data a
               = map (fun x => vdiv x (math_sqrt head_dim))
                     (t_data (as_dtype Float16 tq))
            /\ forall x sc c, In (SparseSoftmax x sc c) rest -> sc = scale)
    /\ (forall out, r = inr out ->
          exists a b kernel scores x z tv',
            kernel_calls evs
            = [ SparseDotSdd a b;
                SparseSoftmax x scale (causal (self w));
                SparseDotDsd z tv' ]
            /\ sparse_dot_sdd (self w') = Some kernel
            /\ matmul_call kernel a b = inr scores
            /\ masked_scores att_mask evs scores x).
Proof.
  intros Hq Hk Hv Hrun.
  destruct (wp_elim _ _ _ _ _
              (forward_first_call_run q k v att_mask scale w tq tk tv
                 Hq Hk Hv) Hrun) as (evs & Htr & Hfirst).
  exists evs. split; [exact Htr|]. split.
  - intros e rest Hcalls. rewrite Hcalls in Hfirst.
    destruct Hfirst as (d & Hd & -> & Hsm).
    exists d, (div_tensor (as_dtype Float16 tq) (math_sqrt d)).
    split; [exact Hd|]. split; [reflexivity|].
    split; [apply as_dtype_shape|]. split; [apply as_dtype_dtype|].
    split; [reflexivity|exact Hsm].
  - intros out ->.
    destruct (forward_spec _ _ _ _ _ _ _ _ _ _ _ Hq Hk Hv Hrun)
      as (_ & _ & evs' & Htr' & d & kernel & scores & x & z & tv' & t
          & Hd & Hcalls & Hker & Hmm & Hsc & _).
    rewrite Htr in Htr'. apply app_inv_head in Htr' as <-.
    eexists _, _, kernel, scores, x, z, tv'.
    split; [exact Hcalls|]. split; [exact Hker|]. split; assumption.
Qed.

(** C6. On every call that returns, the tensor returned has the dtype of
    the query that was passed, while the tensors handed to the kernels are
    half precision: both arguments of [sparse_dot_sdd], the value argument
    of [sparse_dot_dsd], and the block mask that is added when there is a
    mask. *)
Theorem forward_dtype q k v att_mask scale w tq tk tv out w' :
  heap w !! q = Some tq -> heap w !! k = Some tk -> heap w !! v = Some tv ->
  forward q k v att_mask scale w = (inr out, w') ->
  exists t a b x c z tv' evs,
    heap w' !! out = Some t
    /\ t_dtype t = t_dtype tq
    /\ trace w' = trace w ++ evs
    /\ kernel_calls evs
       = [SparseDotSdd a b; SparseSoftmax x scale c; SparseDotDsd z tv']
    /\ t_dtype a = Float16 /\ t_dtype b = Float16 /\ t_dtype tv' = Float16
    /\ (att_mask = None
        \/ exists block_mask,
             In (AddMask block_mask) evs /\ t_dtype block_mask = Float16).
Proof.
  intros Hq Hk Hv Hrun.
  destruct (forward_spec _ _ _ _ _ _ _ _ _ _ _ Hq Hk Hv Hrun)
    as (_ & _ & evs & Htr & d & kernel & scores & x & z & tv' & t
        & Hd & Hcalls & Hker & Hmm & Hsc & Htv & Hout & Hdt).
  eexists t, _, _, x, _, z, tv', evs.
  split; [exact Hout|]. split; [exact Hdt|]. split; [exact Htr|].
  split; [exact Hcalls|]. split; [apply as_dtype_dtype|].
  split; [apply as_dtype_dtype|]. split; [exact Htv|].
  destruct Hsc as [[Hnone _]|(bm & Hin & Hbm & _)]; [now left|].
  right. now exists bm.
Qed.

(** C10. A call of [forward] leaves every tensor of the caller's heap as it
    was, values and dtype: the query, the key, the value, the mask and
    anything else that existed before the call.  The casts and the division
    allocate, and the only update in place is on the scores returned by the
    first kernel call. *)
Theorem forward_frame q k v att_mask scale w tq tk tv :
  heap w !! q = Some tq -> heap w !! k = Some tk -> heap w !! v = Some tv ->
  forall l t,
    heap w !! l = Some t ->
    heap (snd (forward q k v att_mask scale w)) !! l = Some t.
Proof.
  intros Hq Hk Hv.
  exact (proj1 (forward_spec q k v att_mask scale w tq tk tv _ _ Hq Hk Hv
                  (surjective_pairing _))).
Qed.

(** C9. [forward] never raises the assertion that the sequence length is a
    multiple of the block size: when control reaches it, the sequence length
    has been checked to equal [layout.shape[-2] * block_size], and the
    remainder has been computed (the block size is not zero), so the
    remainder is zero. *)
Theorem forward_multiple_of_block_unreachable
    (q k v : loc) (att_mask : option loc) (scale : scalar) (w : world)
    (seq_len : nat) (block : Z) :
  fst (forward q k v att_mask scale w)
  <> inl (AssertionError (NotMultipleOfBlock seq_len block)).
Proof.
  revert seq_len block.
  change (wp (forward q k v att_mask scale)
            (fun r _ => forall seq_len block,
               r <> inl (AssertionError (NotMultipleOfBlock seq_len block)))
            w).
  unfold forward. repeat wp_heap_step.
  all: intros seq_len block; error_kinds; try discriminate.
  all: try solve [create_error].
  all: exfalso.
  all: repeat match goal with
       | E : (_ =? _)%Z = true |- _ => apply Z.eqb_eq in E
       | E : (_ =? _)%Z = false |- _ => apply Z.eqb_neq in E
       end.
  all: match goal with
       | E : (?a mod ?b)%Z <> 0%Z, E' : ?a = (_ * ?b)%Z |- _ =>
           apply E; rewrite E'; apply Z_mod_mult
       end.
Qed.

End Forward.

(** * Kernel creation and calls in detail *)

(** ** Layouts and the index tensors *)

Lemma seq_shift_add (a s m : nat) :
  map (fun o => a + o) (seq s m) = seq (a + s) m.
Proof.
  revert s. induction m as [|m IH]; intros s; [reflexivity|].
  simpl. rewrite IH. do 2 f_equal. lia.
Qed.

Lemma flat_map_seq_blocks (m n s : nat) :
  flat_map (fun i => seq (i * m) m) (seq s n) = seq (s * m) (n * m).
Proof.
  revert s. induction n as [|n IH]; intros s; [reflexivity|].
  cbn [seq flat_map]. rewrite IH.
  replace (S n * m) with (m + n * m) by lia.
  rewrite seq_app. do 2 f_equal. lia.
Qed.

(** The flat offsets of the multi-indices of a shape, in order. *)
Lemma map_ravel_indices (shape : list nat) :
  map (ravel shape) (indices shape) = seq 0 (numel shape).
Proof.
  induction shape as [|n rest IH]; [reflexivity|].
  cbn [indices numel fold_right]. fold (numel rest).
  change (seq 0 (n * numel rest)) with (seq (0 * numel rest) (n * numel rest)).
  rewrite <- (flat_map_seq_blocks (numel rest) n 0).
  generalize (seq 0 n) as l. intros l.
  induction l as [|i l IHl]; [reflexivity|].
  cbn [flat_map]. rewrite map_app, IHl. f_equal.
  rewrite map_map. cbn [ravel].
  rewrite <- (map_map (ravel rest) (fun o => i * numel rest + o)), IH.
  rewrite seq_shift_add. f_equal. lia.
Qed.

Lemma map_nth_seq {A} (d : A) (l : list A) :
  map (fun o => nth o l d) (seq 0 (length l)) = l.
Proof.
  induction l as [|x l IH]; [reflexivity|].
  simpl. f_equal. rewrite <- seq_shift, map_map. exact IH.
Qed.

(** Reading a well-formed tensor at every index gives its data. *)
Lemma map_get_indices {A} (d : A) (t : tensor A) :
  well_formed t -> map (get d t) (indices (t_shape t)) = t_data t.
Proof.
  intros Hwf. unfold get.
  rewrite <- (map_map (ravel (t_shape t)) (fun o => nth o (t_data t) d)).
  rewrite map_ravel_indices, <- Hwf. apply map_nth_seq.
Qed.

Lemma length_filter_map {A B} (f : A -> B) (P : B -> Prop)
    `{forall y, Decision (P y)} (l : list A) :
  length (filter (fun x => P (f x)) l) = length (filter P (map f l)).
Proof.
  induction l as [|x l IH]; [reflexivity|].
  cbn [map]. rewrite !filter_cons. destruct (decide (P (f x))); simpl; lia.
Qed.

Lemma length_nonzero (t : tensor Z) :
  well_formed t ->
  length (nonzero t) = length (filter (fun x => x <> 0%Z) (t_data t)).
Proof.
  intros Hwf. unfold nonzero.
  etransitivity;
    [exact (length_filter_map (get 0%Z t) (fun x => x <> 0%Z) _)|].
  now rewrite map_get_indices.
Qed.

Lemma nonzero_entry (t : tensor Z) nh nr nc ix :
  t_shape t = [nh; nr; nc] -> In ix (nonzero t) ->
  exists h i j, ix = [h; i; j] /\ h < nh /\ i < nr /\ j < nc.
Proof.
  intros Hs Hin. apply nonzero_in_bounds in Hin. rewrite Hs in Hin.
  now apply in_bounds3.
Qed.

Section IndexTensors.
Context `{K : Kernels}.

(** On a 3-dimensional layout [create_triton_kernels] returns, and the
    instance it leaves is [initialised]. *)
Lemma create_triton_kernels_run dev (w : world) nh nr nc :
  t_shape (layout (self w)) = [nh; nr; nc] ->
  create_triton_kernels dev w
  = (inr tt, World (initialised dev (self w)) (heap w) (trace w)).
Proof.
  intros Hs.
  pose proof (wp_create_triton_kernels dev
    (fun r w' => exists tg bg,
       (r, w') = (r, World (with_kernels dev (self w) tg bg)
                           (heap w) (trace w))
       /\ create_post dev (self w) r tg bg) w) as Hwp.
  unfold wp in Hwp.
  destruct Hwp as (tg & bg & Hrun & _ & Hg); [intros r tg bg Hp; eauto|].
  destruct (Hg _ _ _ Hs) as (Hr & -> & ->).
  rewrite (surjective_pairing (create_triton_kernels dev w)).
  injection Hrun as Hrun. rewrite Hrun, Hr. unfold initialised. rewrite Hs.
  reflexivity.
Qed.

(** X6. Kernel creation overwrites what an earlier call stored: on a
    3-dimensional layout, creation for [dev'] after creation for [dev] ends
    exactly as creation for [dev'] alone, result and instance.  With
    [dev' = dev], creation is idempotent. *)
Theorem create_triton_kernels_rebind dev dev' (w : world) nh nr nc :
  t_shape (layout (self w)) = [nh; nr; nc] ->
  create_triton_kernels dev' (snd (create_triton_kernels dev w))
  = create_triton_kernels dev' w.
Proof.
  intros Hs. rewrite (create_triton_kernels_run dev w _ _ _ Hs).
  cbn [snd].
  rewrite (create_triton_kernels_run dev' w _ _ _ Hs).
  erewrite create_triton_kernels_run by (cbn; exact Hs).
  reflexivity.
Qed.

(** X2. On a layout of shape (nh, nr, nc) the two index tensors that kernel
    creation stores have the same length, every entry of [to_gather] is
    below nh * nc and every entry of [broadcast_to_gather] is below nc, the
    number of column blocks of the layout. *)
Theorem create_triton_kernels_in_range dev (w : world) nh nr nc :
  t_shape (layout (self w)) = [nh; nr; nc] ->
  exists tg bg,
    to_gather (self (snd (create_triton_kernels dev w)))
    = Some (Gather (Some dev) tg)
    /\ broadcast_to_gather (self (snd (create_triton_kernels dev w)))
       = Some (Gather (Some dev) bg)
    /\ length tg = length bg
    /\ Forall (fun x => x < nh * nc) tg
    /\ Forall (fun y => y < nc) bg.
Proof.
  intros Hs. rewrite (create_triton_kernels_run dev w _ _ _ Hs).
  cbn [snd self initialised with_kernels to_gather broadcast_to_gather].
  eexists _, _. split; [reflexivity|]. split; [reflexivity|].
  rewrite Hs. change (default 0 (py_index [nh; nr; nc] (-1))) with nc.
  split; [now rewrite !length_map|].
  split; apply Forall_forall; intros x Hx; apply list_elem_of_In in Hx;
    apply in_map_iff in Hx as (ix & <- & Hix);
    destruct (nonzero_entry _ _ _ _ _ Hs Hix) as (h & i & j & -> & ? & ? & ?);
    simpl; nia.
Qed.

(** X3. On a layout of shape (nh, nr, nc), an entry of [to_gather]
    determines the head and the column block it was built from: its
    remainder modulo nc is the entry of [broadcast_to_gather] at the same
    position, and its quotient by nc is a head of the layout. *)
Theorem create_triton_kernels_decode dev (w : world) nh nr nc tg bg :
  t_shape (layout (self w)) = [nh; nr; nc] ->
  to_gather (self (snd (create_triton_kernels dev w))) = Some tg ->
  broadcast_to_gather (self (snd (create_triton_kernels dev w))) = Some bg ->
  forall idx x,
    g_index tg !! idx = Some x ->
    g_index bg !! idx = Some (x mod nc) /\ x / nc < nh.
Proof.
  intros Hs. rewrite (create_triton_kernels_run dev w _ _ _ Hs).
  cbn [snd self initialised with_kernels to_gather broadcast_to_gather].
  rewrite Hs. change (default 0 (py_index [nh; nr; nc] (-1))) with nc.
  intros [= <-] [= <-] idx x. cbn [g_index].
  rewrite !list_lookup_fmap.
  destruct (nonzero (layout (self w)) !! idx) as [ix|] eqn:E;
    [|discriminate].
  simpl. intros [= <-].
  assert (Hin : In ix (nonzero (layout (self w)))).
  { apply list_elem_of_In. eapply list_elem_of_lookup_2. exact E. }
  destruct (nonzero_entry _ _ _ _ _ Hs Hin) as (h & i & j & -> & ? & ? & ?).
  simpl.
  assert (nc <> 0) by lia.
  split.
  - rewrite (Nat.add_comm (h * nc) j), Nat.Div0.mod_add, Nat.mod_small by lia.
    reflexivity.
  - rewrite Nat.div_add_l, Nat.div_small by lia. lia.
Qed.

(** X4. On a layout with a single head, kernel creation stores the same
    index tensor twice: [to_gather] equals [broadcast_to_gather]. *)
Theorem create_triton_kernels_single_head dev (w : world) nr nc :
  t_shape (layout (self w)) = [1; nr; nc] ->
  to_gather (self (snd (create_triton_kernels dev w)))
  = broadcast_to_gather (self (snd (create_triton_kernels dev w))).
Proof.
  intros Hs. rewrite (create_triton_kernels_run dev w _ _ _ Hs).
  cbn [snd self initialised with_kernels to_gather broadcast_to_gather].
  do 2 f_equal. apply map_ext_in. intros ix Hix.
  destruct (nonzero_entry _ _ _ _ _ Hs Hix) as (h & i & j & -> & ? & ? & ?).
  simpl. lia.
Qed.

(** X5. On a well-formed 3-dimensional layout, each index tensor has one
    entry per non-zero entry of the layout (none for a layout of zeros). *)
Theorem create_triton_kernels_count dev (w : world) nh nr nc :
  t_shape (layout (self w)) = [nh; nr; nc] ->
  well_formed (layout (self w)) ->
  exists tg bg,
    to_gather (self (snd (create_triton_kernels dev w))) = Some tg
    /\ broadcast_to_gather (self (snd (create_triton_kernels dev w)))
       = Some bg
    /\ length (g_index tg)
       = length (filter (fun x => x <> 0%Z) (t_data (layout (self w))))
    /\ length (g_index bg) = length (g_index tg).
Proof.
  intros Hs Hwf. rewrite (create_triton_kernels_run dev w _ _ _ Hs).
  cbn [snd self initialised with_kernels to_gather broadcast_to_gather].
  eexists _, _. split; [reflexivity|]. split; [reflexivity|].
  cbn [g_index]. rewrite !length_map. split; [|reflexivity].
  now apply length_nonzero.
Qed.

(** X1. Whatever the layout, and whether the call returns or raises,
    [create_triton_kernels dev] leaves the three kernel objects in the
    instance, built from the instance's layout and block size for [dev]: the
    first matmul in mode sdd with its second operand transposed, the second
    in mode dsd with no transposition, and the softmax.  The configuration
    of the instance, the heap and the log are as before, and the call raises
    no assertion. *)
Theorem create_triton_kernels_objects dev (w : world) :
  let r := fst (create_triton_kernels dev w) in
  let w' := snd (create_triton_kernels dev w) in
  let s := self w in
  sparse_dot_sdd (self w')
  = Some (blocksparse_matmul (layout s) (block_size s) sdd false true dev)
  /\ sparse_dot_dsd (self w')
     = Some (blocksparse_matmul (layout s) (block_size s) dsd false false dev)
  /\ sparse_softmax (self w')
     = Some (blocksparse_softmax (layout s) (block_size s) dev)
  /\ same_config s (self w')
  /\ heap w' = heap w /\ trace w' = trace w
  /\ (forall a, r <> inl (AssertionError a)).
Proof.
  intros r w' s. subst r w' s.
  pose proof (wp_create_triton_kernels dev
    (fun r w' => exists tg bg,
       w' = World (with_kernels dev (self w) tg bg) (heap w) (trace w)
       /\ forall a, r <> inl (AssertionError a)) w) as Hwp.
  unfold wp in Hwp.
  destruct Hwp as (tg & bg & -> & Hna);
    [intros r tg bg [Hna _]; eauto|].
  cbn. repeat split; assumption.
Qed.

End IndexTensors.

Lemma filter_map_cons (P : list nat -> Prop) (P0 : list nat -> Prop)
    `{forall ix, Decision (P ix)} `{forall ix, Decision (P0 ix)}
    (h : nat) (l : list (list nat)) :
  (forall ix, In ix l -> (P (h :: ix) <-> P0 ix)) ->
  filter P (map (cons h) l) = map (cons h) (filter P0 l).
Proof.
  induction l as [|ix l IH]; intros Hl; [reflexivity|].
  cbn [map]. rewrite !filter_cons, IH by (intros; apply Hl; now right).
  pose proof (Hl ix (or_introl eq_refl)) as Hix.
  destruct (decide (P (h :: ix))), (decide (P0 ix)); tauto.
Qed.

Lemma nonzero_expand_heads (lay : tensor Z) (n : nat) :
  nonzero (expand_heads 0%Z lay n)
  = flat_map (fun h => map (cons h) (nonzero lay)) (seq 0 n).
Proof.
  unfold nonzero.
  change (t_shape (expand_heads 0%Z lay n)) with (n :: t_shape lay).
  cbn [indices].
  assert (G : forall lh, Forall (fun h => h < n) lh ->
    filter (fun ix => get 0%Z (expand_heads 0%Z lay n) ix <> 0%Z)
      (flat_map (fun h => map (cons h) (indices (t_shape lay))) lh)
    = flat_map (fun h => map (cons h)
        (filter (fun ix => get 0%Z lay ix <> 0%Z) (indices (t_shape lay))))
        lh).
  { induction lh as [|h lh IH]; intros Hlh; [reflexivity|].
    apply Forall_cons in Hlh as [Hh Hlh].
    cbn [flat_map]. rewrite filter_app, IH by assumption. f_equal.
    apply (filter_map_cons _ (fun ix => get 0%Z lay ix <> 0%Z)).
    intros ix Hin. apply indices_in_bounds in Hin.
    now rewrite get_expand_heads. }
  apply G. apply Forall_forall. intros h Hh.
  apply list_elem_of_In, in_seq in Hh. lia.
Qed.

Section Expansion.
Context `{K : Kernels}.

Lemma init_layout_2d lay b p n c m R C :
  t_shape lay = [R; C] ->
  fst (init lay b p n c) = inr m ->
  layout m = expand_heads 0%Z lay n.
Proof.
  unfold init. intros ->. cbn [length Nat.eqb].
  destruct (negb (block_size_supported b)); [discriminate|].
  destruct (negb (dropout_accepts p)); [discriminate|].
  now intros [= <-].
Qed.

(** X8. Construction from a 2-dimensional layout of shape (R, C) followed
    by kernel creation: creation returns, [broadcast_to_gather] is the list
    of the columns of the non-zero entries of the layout that was passed,
    repeated once per head, and [to_gather] is the same list with
    [head * C] added in the repetition of each head. *)
Theorem init_create_triton_kernels_2d lay b p n c dev m hp tr R C :
  t_shape lay = [R; C] ->
  fst (init lay b p n c) = inr m ->
  exists s',
    create_triton_kernels dev (World m hp tr) = (inr tt, World s' hp tr)
    /\ broadcast_to_gather s'
       = Some (Gather (Some dev)
                 (flat_map (fun _ => active_columns lay) (seq 0 n)))
    /\ to_gather s'
       = Some (Gather (Some dev)
                 (flat_map (fun h => map (fun j => h * C + j)
                                         (active_columns lay))
                           (seq 0 n))).
Proof.
  intros Hs Hm. pose proof (init_layout_2d _ _ _ _ _ _ _ _ Hs Hm) as Hlay.
  assert (Hs' : t_shape (layout (self (World m hp tr))) = [n; R; C]).
  { cbn [self]. rewrite Hlay. cbn. now rewrite Hs. }
  eexists. split; [exact (create_triton_kernels_run dev _ _ _ _ Hs')|].
  cbn [self] in *.
  cbn [initialised with_kernels to_gather broadcast_to_gather].
  rewrite Hs'. change (default 0 (py_index [n; R; C] (-1))) with C.
  rewrite Hlay, nonzero_expand_heads.
  assert (Hnz : forall ix, In ix (nonzero lay) -> exists i j, ix = [i; j]).
  { intros ix Hin. apply nonzero_in_bounds in Hin. rewrite Hs in Hin.
    destruct ix as [|i [|j [|]]]; simpl in Hin;
      rewrite ?andb_false_r in Hin; try discriminate. eauto. }
  unfold active_columns.
  split; do 2 f_equal.
  - generalize (seq 0 n) as lh. intros lh.
    induction lh as [|h lh IH]; [reflexivity|].
    cbn [flat_map]. rewrite map_app, IH. f_equal.
    rewrite map_map. apply map_ext_in. intros ix Hin.
    destruct (Hnz _ Hin) as (i & j & ->). reflexivity.
  - generalize (seq 0 n) as lh. intros lh.
    induction lh as [|h lh IH]; [reflexivity|].
    cbn [flat_map]. rewrite map_app, IH. f_equal.
    rewrite !map_map. apply map_ext_in. intros ix Hin.
    destruct (Hnz _ Hin) as (i & j & ->). reflexivity.
Qed.

(** X7. What the constructor logs depends on the rank of the layout only,
    not on whether construction succeeds: for a 2-dimensional layout the
    three warnings, the last one with the shape after expansion, also by a
    construction that fails on the block size or on the dropout probability;
    nothing for a layout of any other rank. *)
Theorem init_log lay b p n c :
  warnings (snd (init lay b p n c))
  = if length (t_shape lay) =? 2
    then
      [ "The layout passed is lacking a head dimension and a batch dimension";
        "Now assuming that the same layout is to be used across all heads";
        "New layout dimensions: torch.Size(["
        ++ String.concat ", " (map string_of_nat (n :: t_shape lay))
        ++ "])" ]%string
    else [].
Proof.
  unfold init.
  destruct (length (t_shape lay) =? 2);
    destruct (negb (block_size_supported b));
    destruct (negb (dropout_accepts p)); reflexivity.
Qed.

End Expansion.

(** ** Runs of [forward] that the inputs decide *)

Section DetRules.
Context `{K : Kernels}.

Lemma bind_run {A B} (c : M A) (k : A -> M B) (w : world) a w' :
  c w = (inr a, w') -> bind c k w = k a w'.
Proof. unfold bind. now intros ->. Qed.

Lemma wp_shape_at_some {X} (t : tensor X) i n
    (Q : exn + nat -> world -> Prop) w :
  py_index (t_shape t) i = Some n -> Q (inr n) w -> wp (shape_at t i) Q w.
Proof. unfold wp, shape_at. now intros ->. Qed.

Lemma wp_shape_at_none {X} (t : tensor X) i
    (Q : exn + nat -> world -> Prop) w :
  py_index (t_shape t) i = None -> Q (inl IndexError) w ->
  wp (shape_at t i) Q w.
Proof. unfold wp, shape_at. now intros ->. Qed.

(** A run that ends in a result, read as an equation. *)
Lemma wp_returns {A} (c : M A) (P : A -> world -> Prop) (w : world) :
  wp c (fun r w' => exists a, r = inr a /\ P a w') w ->
  exists a w', c w = (inr a, w') /\ P a w'.
Proof.
  unfold wp. intros (a & Hr & HP). exists a, (snd (c w)).
  split; [|exact HP]. rewrite <- Hr. apply surjective_pairing.
Qed.

(** A run that ends in an exception, read as an equation. *)
Lemma wp_raises {A} (c : M A) (e : exn) (P : world -> Prop) (w : world) :
  wp c (fun r w' => r = inl e /\ P w') w ->
  exists w', c w = (inl e, w') /\ P w'.
Proof.
  unfold wp. intros (Hr & HP). exists (snd (c w)).
  split; [|exact HP]. rewrite <- Hr. apply surjective_pairing.
Qed.

(** A call on an instance without kernels runs as on the instance with the
    kernels for the device of the query. *)
Lemma forward_fresh q k v att_mask scale (w : world) tq nh nr nc :
  heap w !! q = Some tq ->
  sparse_dot_sdd (self w) = None ->
  t_shape (layout (self w)) = [nh; nr; nc] ->
  forward q k v att_mask scale w
  = forward q k v att_mask scale
      (World (initialised (t_device tq) (self w)) (heap w) (trace w)).
Proof.
  intros Hq Hnone Hs. unfold forward.
  rewrite (bind_run get_self _ w (self w) w eq_refl).
  rewrite (bind_run get_self _ (World (initialised (t_device tq) (self w)) _ _)
             (initialised (t_device tq) (self w)) _ eq_refl).
  cbv beta. rewrite Hnone.
  cbn [initialised with_kernels sparse_dot_sdd].
  rewrite (bind_run (ret tt) _ _ tt _ eq_refl).
  erewrite (bind_run (bind (load q) _) _ w tt); [reflexivity|].
  erewrite (bind_run (load q) _ w tq w).
  - exact (create_triton_kernels_run _ _ _ _ _ Hs).
  - unfold load. now rewrite Hq.
Qed.

(** A run on an instance that has its kernels or gets them. *)
Lemma forward_on_initialised q k v att_mask scale s hp tr dev tq nh nr nc :
  hp !! q = Some tq ->
  kernels_on dev tq s ->
  t_shape (layout s) = [nh; nr; nc] ->
  forward q k v att_mask scale (World s hp tr)
  = forward q k v att_mask scale (World (initialised dev s) hp tr).
Proof.
  intros Hq [Hself|[Hnone ->]] Hs.
  - now rewrite <- Hself.
  - exact (forward_fresh _ _ _ _ _ (World s hp tr) _ _ _ _ Hq Hnone Hs).
Qed.

End DetRules.

(** Shapes that are known. *)
Ltac solve_shape :=
  cbn [t_shape div_tensor cast_tensor layout with_kernels];
  rewrite ?as_dtype_shape;
  first
    [ eassumption
    | match goal with
      | H : t_shape ?t = _ |- context [t_shape ?t] => rewrite H
      end; reflexivity ].

Ltac bool_facts :=
  repeat match goal with
         | H : Nat.eqb _ _ = true |- _ => apply Nat.eqb_eq in H
         | H : Nat.eqb _ _ = false |- _ => apply Nat.eqb_neq in H
         | H : Z.eqb _ _ = true |- _ => apply Z.eqb_eq in H
         | H : Z.eqb _ _ = false |- _ => apply Z.eqb_neq in H
         end.

(** A branch that the hypotheses exclude. *)
Ltac excluded :=
  exfalso; bool_facts;
  first
    [ congruence
    | lia
    | match goal with
      | H : (Z.of_nat ?a mod ?b)%Z <> 0%Z, E : Z.of_nat ?a = (_ * ?b)%Z |- _ =>
          apply H; rewrite E; apply Z_mod_mult
      end ].

(** One step of a run whose branches the hypotheses decide. *)
Ltac det_step :=
  simpl_state;
  rewrite ?Nat.eqb_refl, ?Z.eqb_refl, ?orb_true_r, ?orb_true_l;
  lazymatch goal with
  | |- wp (shape_at _ _) _ _ =>
      first [ eapply wp_shape_at_some; [solve_shape|]
            | eapply wp_shape_at_none; [solve_shape|]
            | wp_known_step; try solve [excluded] ]
  | |- wp (match ?x with _ => _ end) _ _ =>
      first [ match goal with H : x = _ |- _ => rewrite H end
            | wp_known_step; try solve [excluded] ]
  | |- wp (lift ?x) _ _ =>
      first [ match goal with H : x = _ |- _ => rewrite H end; apply wp_lift
            | wp_known_step; try solve [excluded] ]
  | |- _ => wp_known_step; try solve [excluded]
  end.

Section Pipeline.
Context `{K : Kernels}.

Lemma forward_pipeline_run q k v scale (s : BlockSparseAttention) hp tr
    tg bg dev tq tk tv S d nh nr nc scores probs a :
  hp !! q = Some tq -> hp !! k = Some tk -> hp !! v = Some tv ->
  t_shape (layout s) = [nh; nr; nc] ->
  (0 < block_size s)%Z ->
  py_index (t_shape tq) (-2) = Some S ->
  py_index (t_shape tq) (-1) = Some d ->
  py_index (t_shape tk) (-2) = Some S ->
  Z.of_nat S = (Z.of_nat nr * block_size s)%Z ->
  matmul_call (blocksparse_matmul (layout s) (block_size s) sdd false true dev)
    (div_tensor (as_dtype Float16 tq) (math_sqrt d)) (as_dtype Float16 tk)
  = inr scores ->
  softmax_call (blocksparse_softmax (layout s) (block_size s) dev)
    scores scale (causal s) = inr probs ->
  matmul_call (blocksparse_matmul (layout s) (block_size s) dsd false false dev)
    (dropout_call (attn_drop s) probs) (as_dtype Float16 tv) = inr a ->
  wp (forward q k v None scale)
     (fun r w' =>
        exists out, r = inr out
          /\ heap w' !! out = Some (as_dtype (t_dtype tq) a)
          /\ self w' = with_kernels dev s tg bg
          /\ trace w'
             = tr ++ [ SparseDotSdd
                         (div_tensor (as_dtype Float16 tq) (math_sqrt d))
                         (as_dtype Float16 tk);
                       SparseSoftmax scores scale (causal s);
                       AttnDrop probs;
                       SparseDotDsd (dropout_call (attn_drop s) probs)
                                    (as_dtype Float16 tv) ])
     (World (with_kernels dev s tg bg) hp tr).
Proof.
  intros Hq Hk Hv Hs Hbs HS Hd HSk Hlen Hsdd Hsm Hdsd.
  unfold forward.
  repeat det_step.
  eexists. split; [reflexivity|]. split; [eassumption|].
  split; [reflexivity|]. rewrite <- !app_assoc. reflexivity.
Qed.

(** X9. The pipeline without a mask.  On an instance whose kernels are on
    [dev] (it has them, or has none and the query is on [dev]), with a
    3-dimensional layout, a positive block size, and a query and a key whose
    sequence length is [layout.shape[-2] * block_size]: when the three
    kernel calls succeed, [forward] returns a tensor that holds the result
    of the last matmul cast to the dtype of the query, and it has made these
    calls and no other, in this order: [sparse_dot_sdd] on the half-precision
    query divided by [math.sqrt] of its last dimension and on the
    half-precision key, [sparse_softmax] on the scores with the caller's
    [scale] and the instance's [causal], the dropout module on the
    probabilities, and [sparse_dot_dsd] on what the dropout returned and on
    the half-precision value. *)
Theorem forward_pipeline q k v scale (w : world) dev tq tk tv S d nh nr nc
    scores probs a :
  heap w !! q = Some tq -> heap w !! k = Some tk -> heap w !! v = Some tv ->
  kernels_on dev tq (self w) ->
  t_shape (layout (self w)) = [nh; nr; nc] ->
  (0 < block_size (self w))%Z ->
  py_index (t_shape tq) (-2) = Some S ->
  py_index (t_shape tq) (-1) = Some d ->
  py_index (t_shape tk) (-2) = Some S ->
  Z.of_nat S = (Z.of_nat nr * block_size (self w))%Z ->
  matmul_call
    (blocksparse_matmul (layout (self w)) (block_size (self w))
       sdd false true dev)
    (div_tensor (as_dtype Float16 tq) (math_sqrt d)) (as_dtype Float16 tk)
  = inr scores ->
  softmax_call
    (blocksparse_softmax (layout (self w)) (block_size (self w)) dev)
    scores scale (causal (self w)) = inr probs ->
  matmul_call
    (blocksparse_matmul (layout (self w)) (block_size (self w))
       dsd false false dev)
    (dropout_call (attn_drop (self w)) probs) (as_dtype Float16 tv) = inr a ->
  exists out w',
    forward q k v None scale w = (inr out, w')
    /\ heap w' !! out = Some (as_dtype (t_dtype tq) a)
    /\ self w' = initialised dev (self w)
    /\ trace w'
       = trace w ++ [ SparseDotSdd
                        (div_tensor (as_dtype Float16 tq) (math_sqrt d))
                        (as_dtype Float16 tk);
                      SparseSoftmax scores scale (causal (self w));
                      AttnDrop probs;
                      SparseDotDsd (dropout_call (attn_drop (self w)) probs)
                                   (as_dtype Float16 tv) ].
Proof.
  destruct w as [s hp tr]. cbn [self heap trace].
  intros Hq Hk Hv Hon Hs Hbs HS Hd HSk Hlen Hsdd Hsm Hdsd.
  rewrite (forward_on_initialised _ _ _ _ _ _ _ _ _ _ _ _ _ Hq Hon Hs).
  apply wp_returns.
  exact (forward_pipeline_run q k v scale s hp tr _ _ dev tq tk tv S d
           nh nr nc scores probs a Hq Hk Hv Hs Hbs HS Hd HSk Hlen
           Hsdd Hsm Hdsd).
Qed.

End Pipeline.

(** ** The block mask *)

Section BlockMask.
Context `{H : Numerics}.

Lemma block_mask_shape active b (m : tensor val) B Hm rest :
  t_shape m = B :: Hm :: rest ->
  t_shape (block_mask active b m) = [B; length active; 1; b].
Proof. unfold block_mask. now intros ->. Qed.

Lemma block_mask_dtype active b (m : tensor val) :
  t_dtype (block_mask active b m) = t_dtype m.
Proof. unfold block_mask. now destruct (t_shape m) as [|? [|? ?]]. Qed.

Lemma block_mask_device active b (m : tensor val) :
  t_device (block_mask active b m) = t_device m.
Proof. unfold block_mask. now destruct (t_shape m) as [|? [|? ?]]. Qed.

Lemma get_block_mask active b (m : tensor val) B Hm rest x n y h i j :
  t_shape m = B :: Hm :: rest ->
  x < B -> y < b -> active !! n = Some [h; i; j] ->
  get vzero (block_mask active b m) [x; n; 0; y]
  = get vzero m [x; if Hm =? 1 then 0 else h; 0; j * b + y].
Proof.
  intros Hs Hx Hy Hn. unfold block_mask. rewrite Hs.
  unfold get at 1. cbn [t_shape t_data].
  replace (ravel [B; length active; 1; b] [x; n; 0; y])
    with (ravel [B; length active; b] [x; n; y]) by (simpl; lia).
  apply nth_lookup_Some.
  rewrite list_lookup_fmap, lookup_indices.
  - cbn [fmap option_fmap option_map]. f_equal.
    rewrite (nth_lookup_Some _ _ _ _ Hn). reflexivity.
  - apply lookup_lt_Some in Hn. simpl.
    rewrite !andb_true_r, !andb_true_iff, !Nat.ltb_lt. auto.
Qed.

Lemma broadcastable_block B nnz b :
  broadcastable [B; nnz; 1; b] [B; nnz; b; b] = true.
Proof.
  unfold broadcastable. simpl. rewrite !Nat.eqb_refl. simpl.
  now rewrite orb_true_r.
Qed.

Lemma get_add_broadcast_block (scores bm : tensor val) B nnz b x n r y :
  t_shape scores = [B; nnz; b; b] -> t_shape bm = [B; nnz; 1; b] ->
  x < B -> n < nnz -> r < b -> y < b ->
  get vzero (add_broadcast scores bm) [x; n; r; y]
  = vadd (get vzero scores [x; n; r; y]) (get vzero bm [x; n; 0; y]).
Proof.
  intros Hs Hbm Hx Hn Hr Hy. unfold add_broadcast. rewrite Hs, Hbm.
  rewrite get_tabulate.
  - f_equal. f_equal. unfold broadcast_index. cbn [length drop zip_with].
    simpl Nat.sub. cbn [drop zip_with].
    destruct (B =? 1) eqn:EB; destruct (nnz =? 1) eqn:En;
      destruct (b =? 1) eqn:Eb;
      try apply Nat.eqb_eq in EB; try apply Nat.eqb_eq in En;
      try apply Nat.eqb_eq in Eb; simpl; repeat f_equal; lia.
  - simpl. rewrite !andb_true_r, !andb_true_iff, !Nat.ltb_lt. auto.
Qed.

(** The reshape, the gather and the unsqueeze of [forward] on a mask of
    shape (B, Hm, 1, S) give [block_mask]. *)
Lemma layout_align_run (lay : tensor Z) (bs : Z) (m : tensor val)
    (idx_dev : option device) (B Hm S nh n : nat) :
  t_shape lay = [nh; n; n] ->
  t_shape m = [B; Hm; 1; S] ->
  Hm = nh \/ Hm = 1 ->
  (0 < bs)%Z ->
  Z.of_nat S = (Z.of_nat n * bs)%Z ->
  index_device_ok (t_device m) idx_dev = true ->
  exists blocks rows,
    reshape m [Z.of_nat B; (Z.of_nat Hm * Z.of_nat S) / bs; bs]%Z
    = inr blocks
    /\ index_rows vzero blocks idx_dev
         (if Hm =? 1
          then map broadcast_entry (nonzero lay)
          else map (to_gather_entry n) (nonzero lay))
       = inr rows
    /\ unsqueeze_m2 rows = inr (block_mask (nonzero lay) (Z.to_nat bs) m).
Proof.
  intros Hlay Hm_ HH Hbs HS Hdev.
  set (b := Z.to_nat bs).
  assert (Hb : bs = Z.of_nat b) by (unfold b; lia).
  assert (HSb : S = n * b) by nia.
  assert (D : ((Z.of_nat Hm * Z.of_nat S) / bs = Z.of_nat (Hm * n))%Z).
  { rewrite HS, Z.mul_assoc, Z.div_mul by lia. now rewrite Nat2Z.inj_mul. }
  rewrite D. unfold reshape. cbn [forallb map]. rewrite !Nat2Z.id.
  fold b.
  assert (P1 : forall k, (0 <=? Z.of_nat k)%Z = true)
    by (intros; apply Z.leb_le; lia).
  assert (P2 : (0 <=? bs)%Z = true) by (apply Z.leb_le; lia).
  rewrite !P1, P2. cbn [andb]. rewrite Hm_.
  assert (N1 : (numel [B; Hm * n; b] =? numel [B; Hm; 1; S]) = true).
  { apply Nat.eqb_eq. simpl. nia. }
  rewrite N1.
  set (idx := if Hm =? 1 then _ else _).
  assert (Hlen : length idx = length (nonzero lay)).
  { unfold idx. destruct (Hm =? 1); apply length_map. }
  assert (Hidx : forall k h i j, nonzero lay !! k = Some [h; i; j] ->
            h < nh /\ i < n /\ j < n
            /\ nth k idx 0 = (if Hm =? 1 then 0 else h) * n + j).
  { intros k h i j Hk.
    assert (Hin : In [h; i; j] (nonzero lay)).
    { apply list_elem_of_In. eapply list_elem_of_lookup_2. exact Hk. }
    destruct (nonzero_entry _ _ _ _ _ Hlay Hin)
      as (h' & i' & j' & [= <- <- <-] & ? & ? & ?).
    do 3 (split; [assumption|]).
    apply nth_lookup_Some. unfold idx.
    destruct (Hm =? 1); rewrite list_lookup_fmap, Hk; reflexivity. }
  clearbody idx.
  assert (F : forallb (fun i => i <? Hm * n) idx = true).
  { apply forallb_forall. intros e He.
    apply (In_nth _ _ 0) in He as (k & Hk & <-).
    rewrite Hlen in Hk. apply lookup_lt_is_Some_2 in Hk as [ix Hk].
    assert (Hin : In ix (nonzero lay)).
    { apply list_elem_of_In. eapply list_elem_of_lookup_2. exact Hk. }
    destruct (nonzero_entry _ _ _ _ _ Hlay Hin) as (h & i & j & -> & _).
    destruct (Hidx _ _ _ _ Hk) as (? & ? & ? & ->).
    apply Nat.ltb_lt.
    destruct (Hm =? 1) eqn:E;
      [apply Nat.eqb_eq in E|apply Nat.eqb_neq in E]; nia. }
  eexists _, _. split; [reflexivity|].
  unfold index_rows. cbn [t_shape t_dtype t_device].
  rewrite Hdev, F. cbn [negb]. split; [reflexivity|].
  unfold unsqueeze_m2. cbn [t_shape t_dtype t_device t_data length].
  cbn [Nat.sub take drop app]. unfold block_mask. rewrite Hm_.
  rewrite Hlen. do 2 f_equal.
  apply map_ext_in. intros ix Hix. apply indices_in_bounds in Hix.
  apply in_bounds3 in Hix as (x & k & y & -> & Hx & Hk & Hy).
  apply lookup_lt_is_Some_2 in Hk as [ix Hk].
  assert (Hin : In ix (nonzero lay)).
  { apply list_elem_of_In. eapply list_elem_of_lookup_2. exact Hk. }
  destruct (nonzero_entry _ _ _ _ _ Hlay Hin) as (h & i & j & -> & _).
  destruct (Hidx _ _ _ _ Hk) as (Hh & Hi & Hj & ->).
  rewrite (nth_lookup_Some _ _ _ _ Hk).
  unfold get. cbn [t_shape t_data]. rewrite Hm_. f_equal.
  destruct (Hm =? 1) eqn:E;
    [apply Nat.eqb_eq in E|apply Nat.eqb_neq in E]; simpl; nia.
Qed.

(** The reshape of [forward] on a mask of shape (B, Hm, 1, S), and a gather
    with an index tensor on a device that the mask is not on. *)
Lemma layout_align_device (lay : tensor Z) (bs : Z) (m : tensor val)
    (idx_dev : option device) (idx : list nat) (B Hm S n : nat) :
  t_shape m = [B; Hm; 1; S] ->
  (0 < bs)%Z ->
  Z.of_nat S = (Z.of_nat n * bs)%Z ->
  index_device_ok (t_device m) idx_dev = false ->
  exists blocks,
    reshape m [Z.of_nat B; (Z.of_nat Hm * Z.of_nat S) / bs; bs]%Z
    = inr blocks
    /\ index_rows vzero blocks idx_dev idx = inl RuntimeError.
Proof.
  intros Hm_ Hbs HS Hdev.
  set (b := Z.to_nat bs).
  assert (Hb : bs = Z.of_nat b) by (unfold b; lia).
  assert (HSb : S = n * b) by nia.
  assert (D : ((Z.of_nat Hm * Z.of_nat S) / bs = Z.of_nat (Hm * n))%Z).
  { rewrite HS, Z.mul_assoc, Z.div_mul by lia. now rewrite Nat2Z.inj_mul. }
  rewrite D. unfold reshape. cbn [forallb map]. rewrite !Nat2Z.id.
  fold b.
  assert (P1 : forall k, (0 <=? Z.of_nat k)%Z = true)
    by (intros; apply Z.leb_le; lia).
  assert (P2 : (0 <=? bs)%Z = true) by (apply Z.leb_le; lia).
  rewrite !P1, P2. cbn [andb]. rewrite Hm_.
  assert (N1 : (numel [B; Hm * n; b] =? numel [B; Hm; 1; S]) = true).
  { apply Nat.eqb_eq. simpl. nia. }
  rewrite N1. eexists. split; [reflexivity|].
  unfold index_rows. cbn [t_shape t_device]. now rewrite Hdev.
Qed.

End BlockMask.

Section MaskedPipeline.
Context `{K : Kernels}.

Lemma forward_masked_run q k v m scale (s : BlockSparseAttention) hp tr dev
    tq tk tv tm B Hm S d nh n scores probs a :
  hp !! q = Some tq -> hp !! k = Some tk -> hp !! v = Some tv ->
  hp !! m = Some tm ->
  t_dtype tm <> Bool8 ->
  t_shape (layout s) = [nh; n; n] ->
  (0 < block_size s)%Z ->
  t_shape tq = [B; nh; S; d] ->
  py_index (t_shape tk) (-2) = Some S ->
  t_shape tm = [B; Hm; 1; S] ->
  Hm = nh \/ Hm = 1 ->
  Z.of_nat S = (Z.of_nat n * block_size s)%Z ->
  matmul_call (blocksparse_matmul (layout s) (block_size s) sdd false true dev)
    (div_tensor (as_dtype Float16 tq) (math_sqrt d)) (as_dtype Float16 tk)
  = inr scores ->
  t_shape scores
  = [B; length (nonzero (layout s));
     Z.to_nat (block_size s); Z.to_nat (block_size s)] ->
  t_device tm = dev -> t_device scores = dev ->
  softmax_call (blocksparse_softmax (layout s) (block_size s) dev)
    (add_broadcast scores
       (block_mask (nonzero (layout s)) (Z.to_nat (block_size s))
          (as_dtype Float16 tm)))
    scale (causal s) = inr probs ->
  matmul_call (blocksparse_matmul (layout s) (block_size s) dsd false false dev)
    (dropout_call (attn_drop s) probs) (as_dtype Float16 tv) = inr a ->
  let s' :=
    with_kernels dev s
      (Some (Gather (Some dev)
               (map (to_gather_entry n) (nonzero (layout s)))))
      (Some (Gather (Some dev) (map broadcast_entry (nonzero (layout s))))) in
  wp (forward q k v (Some m) scale)
     (fun r w' =>
        exists out, r = inr out
          /\ heap w' !! out = Some (as_dtype (t_dtype tq) a)
          /\ self w' = s'
          /\ trace w'
             = tr ++ [ SparseDotSdd
                         (div_tensor (as_dtype Float16 tq) (math_sqrt d))
                         (as_dtype Float16 tk);
                       AddMask
                         (block_mask (nonzero (layout s))
                            (Z.to_nat (block_size s)) (as_dtype Float16 tm));
                       SparseSoftmax
                         (add_broadcast scores
                            (block_mask (nonzero (layout s))
                               (Z.to_nat (block_size s))
                               (as_dtype Float16 tm)))
                         scale (causal s);
                       AttnDrop probs;
                       SparseDotDsd (dropout_call (attn_drop s) probs)
                                    (as_dtype Float16 tv) ])
     (World s' hp tr).
Proof.
  intros Hq Hk Hv Hm_ Hdt Hs Hbs Htq HSk Htm HH Hlen Hsdd Hsc Hdm Hds
    Hsm Hdsd s'.
  subst s'.
  assert (Hnb : dtype_eqb (t_dtype tm) Bool8 = false).
  { destruct (dtype_eqb (t_dtype tm) Bool8) eqn:E; [|reflexivity].
    now apply dtype_eqb_eq in E. }
  assert (Htm16 : t_shape (as_dtype Float16 tm) = [B; Hm; 1; S])
    by now rewrite as_dtype_shape.
  assert (Hdev : index_device_ok (t_device (as_dtype Float16 tm)) (Some dev)
                 = true).
  { rewrite as_dtype_device, Hdm. apply index_device_ok_same. }
  destruct (layout_align_run (layout s) (block_size s) (as_dtype Float16 tm)
              (Some dev) B Hm S nh n Hs Htm16 HH Hbs Hlen Hdev)
    as (blocks & rows & Hre & Hix & Hun).
  assert (Hbc : broadcastable
                  (t_shape (block_mask (nonzero (layout s))
                              (Z.to_nat (block_size s))
                              (as_dtype Float16 tm)))
                  (t_shape scores)
                && device_eqb
                     (t_device (block_mask (nonzero (layout s))
                                  (Z.to_nat (block_size s))
                                  (as_dtype Float16 tm)))
                     (t_device scores) = true).
  { rewrite (block_mask_shape _ _ _ _ _ _ Htm16), Hsc, broadcastable_block.
    rewrite block_mask_device, as_dtype_device, Hdm, Hds.
    apply device_eqb_refl. }
  assert (E : (Hm =? 1) = true \/ ((Hm =? 1) = false /\ Hm = nh)).
  { destruct (Nat.eqb_spec Hm 1); [now left|right].
    destruct HH; [auto|contradiction]. }
  destruct E as [E|[E ->]]; rewrite E in Hix.
  - assert (Hc2 : (Hm =? nh) || (Hm =? 1) = true)
      by now rewrite E, orb_true_r.
    unfold forward. repeat det_step.
    eexists. split; [reflexivity|]. split; [eassumption|].
    split; [reflexivity|]. rewrite <- !app_assoc. reflexivity.
  - unfold forward. repeat det_step.
    eexists. split; [reflexivity|]. split; [eassumption|].
    split; [reflexivity|]. rewrite <- !app_assoc. reflexivity.
Qed.

(** X10. The pipeline with an additive mask.  For a square layout of shape
    (nh, n, n), a query of shape (B, nh, S, d) with S = n * block_size and a
    mask of shape (B, Hm, 1, S) with Hm = nh or Hm = 1 that is not boolean
    and lives on the device of the kernels: when the kernel calls succeed
    and the scores are on that device with shape
    (B, blocks, block_size, block_size), [forward] returns the result of the
    last matmul in the dtype of the query; between the first matmul and the
    softmax it adds the block mask to the scores, one row of [block_size]
    values per active block.  Entry (x, idx, r, y) of what the softmax
    receives is the score plus the half-precision mask value of batch [x],
    of the head of block [idx] (of the only head when Hm = 1), at key
    position [col * block_size + y], where (head, row, col) is the [idx]-th
    non-zero position of the layout. *)
Theorem forward_masked q k v m scale (w : world) dev tq tk tv tm
    B Hm S d nh n scores probs a :
  let s := self w in
  let active := nonzero (layout s) in
  let b := Z.to_nat (block_size s) in
  let q16 := div_tensor (as_dtype Float16 tq) (math_sqrt d) in
  let m16 := as_dtype Float16 tm in
  let masked := add_broadcast scores (block_mask active b m16) in
  heap w !! q = Some tq -> heap w !! k = Some tk -> heap w !! v = Some tv ->
  heap w !! m = Some tm ->
  kernels_on dev tq s ->
  t_dtype tm <> Bool8 ->
  t_shape (layout s) = [nh; n; n] ->
  (0 < block_size s)%Z ->
  t_shape tq = [B; nh; S; d] ->
  py_index (t_shape tk) (-2) = Some S ->
  t_shape tm = [B; Hm; 1; S] ->
  Hm = nh \/ Hm = 1 ->
  Z.of_nat S = (Z.of_nat n * block_size s)%Z ->
  matmul_call (blocksparse_matmul (layout s) (block_size s) sdd false true dev)
    q16 (as_dtype Float16 tk) = inr scores ->
  t_shape scores = [B; length active; b; b] ->
  t_device tm = dev -> t_device scores = dev ->
  softmax_call (blocksparse_softmax (layout s) (block_size s) dev)
    masked scale (causal s) = inr probs ->
  matmul_call (blocksparse_matmul (layout s) (block_size s) dsd false false dev)
    (dropout_call (attn_drop s) probs) (as_dtype Float16 tv) = inr a ->
  exists out w',
    forward q k v (Some m) scale w = (inr out, w')
    /\ heap w' !! out = Some (as_dtype (t_dtype tq) a)
    /\ trace w'
       = trace w ++ [ SparseDotSdd q16 (as_dtype Float16 tk);
                      AddMask (block_mask active b m16);
                      SparseSoftmax masked scale (causal s);
                      AttnDrop probs;
                      SparseDotDsd (dropout_call (attn_drop s) probs)
                                   (as_dtype Float16 tv) ]
    /\ t_shape (block_mask active b m16) = [B; length active; 1; b]
    /\ (forall x idx r y h i j,
          x < B -> r < b -> y < b -> active !! idx = Some [h; i; j] ->
          get vzero masked [x; idx; r; y]
          = vadd (get vzero scores [x; idx; r; y])
                 (get vzero m16 [x; if Hm =? 1 then 0 else h; 0; j * b + y])).
Proof.
  destruct w as [s hp tr]. cbv zeta. cbn [self heap trace].
  intros Hq Hk Hv Hm_ Hon Hdt Hs Hbs Htq HSk Htm HH Hlen Hsdd Hsc Hdm Hds
    Hsm Hdsd.
  assert (Htm16 : t_shape (as_dtype Float16 tm) = [B; Hm; 1; S])
    by now rewrite as_dtype_shape.
  rewrite (forward_on_initialised _ _ _ _ _ _ _ _ _ _ _ _ _ Hq Hon Hs).
  pose proof (forward_masked_run q k v m scale s hp tr dev tq tk tv tm
                B Hm S d nh n scores probs a Hq Hk Hv Hm_ Hdt Hs Hbs Htq HSk
                Htm HH Hlen Hsdd Hsc Hdm Hds Hsm Hdsd) as Hwp.
  cbv zeta in Hwp.
  replace (initialised dev s) with
    (with_kernels dev s
       (Some (Gather (Some dev)
                (map (to_gather_entry n) (nonzero (layout s)))))
       (Some (Gather (Some dev) (map broadcast_entry (nonzero (layout s))))))
    by (unfold initialised; rewrite Hs; reflexivity).
  apply wp_returns in Hwp as (out & w' & Hfw & Hout & _ & Htr).
  exists out, w'. split; [exact Hfw|]. split; [exact Hout|].
  split; [exact Htr|].
  split; [exact (block_mask_shape _ _ _ _ _ _ Htm16)|].
  intros x idx r y h i j Hx Hr Hy Hidx.
  rewrite (get_add_broadcast_block _ _ B (length (nonzero (layout s)))
             (Z.to_nat (block_size s)));
    [|exact Hsc|exact (block_mask_shape _ _ _ _ _ _ Htm16)|assumption
     |now apply lookup_lt_Some in Hidx|assumption|assumption].
  f_equal.
  exact (get_block_mask _ _ _ _ _ _ _ _ _ _ _ _ Htm16 Hx Hy Hidx).
Qed.

End MaskedPipeline.

(** ** A mask shared by the heads and its expansion *)

(** One step of [det_step] that stops in front of the addition in place. *)
Ltac mask_step :=
  lazymatch goal with
  | |- wp (iadd _ _) _ _ => fail
  | |- _ => det_step
  end.

Section MaskAlignment.
Context `{K : Kernels}.

(** The block mask of a mask shared by the heads and of its expansion to
    [nh] heads are the same tensor. *)
Lemma block_mask_expand (active : list (list nat)) (b : nat)
    (m : tensor val) (B S nh n : nat) :
  t_shape m = [B; 1; 1; S] ->
  S = n * b ->
  Forall (fun ix => in_bounds [nh; n; n] ix = true) active ->
  block_mask active b (broadcast_to vzero m [B; nh; 1; S])
  = block_mask active b m.
Proof.
  intros Hm HS Hact. unfold block_mask, broadcast_to.
  cbn [t_shape t_dtype t_device]. rewrite Hm.
  f_equal. apply map_ext_in. intros ix Hix.
  apply indices_in_bounds, in_bounds3 in Hix as (x & k & y & -> & Hx & Hk & Hy).
  apply lookup_lt_is_Some_2 in Hk as [ix Hk].
  rewrite (nth_lookup_Some _ _ _ _ Hk).
  rewrite Forall_forall in Hact.
  assert (Hin : ix ∈ active) by (eapply list_elem_of_lookup_2; exact Hk).
  apply Hact, in_bounds3 in Hin as (h & i & j & -> & Hh & Hi & Hj).
  cbn [Nat.eqb].
  rewrite get_tabulate.
  - unfold get. rewrite Hm. unfold broadcast_index.
    cbn [length drop zip_with]. simpl Nat.sub. cbn [drop zip_with Nat.eqb].
    f_equal.
    destruct (B =? 1) eqn:EB; destruct (S =? 1) eqn:ES;
      try apply Nat.eqb_eq in EB; try apply Nat.eqb_eq in ES; simpl; nia.
  - simpl. rewrite !andb_true_r, !andb_true_iff, !Nat.ltb_lt.
    destruct (nh =? 1); repeat split; nia.
Qed.

(** The [# apply masks] block on a mask of shape (B, Hm, 1, S) that fits a
    square layout: it adds the block mask of the mask to the scores, unless
    the mask is on a device that the index tensors are not on. *)
Lemma apply_mask_block_mask sparse_att_mat q m (s : BlockSparseAttention)
    hp tr dev (tq tm : tensor val) (B Hm S d nh n : nat) :
  hp !! q = Some tq -> hp !! m = Some tm ->
  t_shape (layout s) = [nh; n; n] ->
  (0 < block_size s)%Z ->
  t_shape tq = [B; nh; S; d] ->
  t_shape tm = [B; Hm; 1; S] ->
  Hm = nh \/ Hm = 1 ->
  Z.of_nat S = (Z.of_nat n * block_size s)%Z ->
  let w := World (initialised dev s) hp tr in
  apply_mask sparse_att_mat q m w
  = if index_device_ok (t_device tm) (Some dev)
    then iadd sparse_att_mat
           (block_mask (nonzero (layout s)) (Z.to_nat (block_size s)) tm) w
    else (inl RuntimeError, w).
Proof.
  intros Hq Hm_ Hs Hbs Htq Htm HH Hlen w. subst w.
  unfold initialised. rewrite Hs.
  change (default 0 (py_index [nh; n; n] (-1))) with n. cbv zeta.
  assert (E : (Hm =? 1) = true \/ ((Hm =? 1) = false /\ Hm = nh)).
  { destruct (Nat.eqb_spec Hm 1); [now left|right].
    destruct HH; [auto|contradiction]. }
  match goal with
  | |- ?c ?w = ?rhs =>
      enough (Hwp : wp c (fun r0 w0 => r0 = fst rhs /\ w0 = snd rhs) w)
  end.
  { unfold wp in Hwp. destruct Hwp as [Hr Hw].
    rewrite (surjective_pairing (apply_mask _ _ _ _)), Hr, Hw.
    symmetry. apply surjective_pairing. }
  destruct (index_device_ok (t_device tm) (Some dev)) eqn:Hdev.
  - destruct (layout_align_run (layout s) (block_size s) tm (Some dev)
                B Hm S nh n Hs Htm HH Hbs Hlen Hdev)
      as (blocks & rows & Hre & Hix & Hun).
    destruct E as [E|[E ->]]; rewrite E in Hix.
    + assert (Hc2 : (Hm =? nh) || (Hm =? 1) = true)
        by now rewrite E, orb_true_r.
      unfold apply_mask. repeat mask_step. split; reflexivity.
    + unfold apply_mask. repeat mask_step. split; reflexivity.
  - destruct E as [E|[E ->]].
    + assert (Hc2 : (Hm =? nh) || (Hm =? 1) = true)
        by now rewrite E, orb_true_r.
      destruct (layout_align_device (layout s) (block_size s) tm (Some dev)
                  (map broadcast_entry (nonzero (layout s)))
                  B Hm S n Htm Hbs Hlen Hdev) as (blocks & Hre & Hix).
      unfold apply_mask. repeat mask_step. split; reflexivity.
    + destruct (layout_align_device (layout s) (block_size s) tm (Some dev)
                  (map (to_gather_entry n) (nonzero (layout s)))
                  B nh S n Htm Hbs Hlen Hdev) as (blocks & Hre & Hix).
      unfold apply_mask. repeat mask_step. split; reflexivity.
Qed.

(** C4, as the code has it.  After kernel creation on a square layout
    (nh, n, n), with a query of [nh] heads and S = n * block_size positions,
    the [# apply masks] block of [forward] treats a mask of shape
    (B, 1, 1, S) and its expansion to (B, nh, 1, S) alike: with the mask it
    gathers with [broadcast_to_gather], with the expansion it gathers with
    [to_gather], and the two runs end in the same result and the same
    state.  When the mask and the scores are on the device of the kernels
    and the scores have a row of [block_size] values per active block and
    position, both add the block mask to the scores: block [idx] of it, for
    every head, holds the mask values of the key positions of the column
    block of the [idx]-th non-zero position of the layout. *)
Theorem mask_broadcast_equivalence sparse_att_mat q m m' dev (w : world)
    (tq tm : tensor val) (B S d nh n : nat) :
  let s := self w in
  let active := nonzero (layout s) in
  let b := Z.to_nat (block_size s) in
  let bm := block_mask active b tm in
  let w1 := snd (create_triton_kernels dev w) in
  t_shape (layout s) = [nh; n; n] ->
  (0 < block_size s)%Z ->
  heap w !! q = Some tq ->
  heap w !! m = Some tm ->
  heap w !! m' = Some (broadcast_to vzero tm [B; nh; 1; S]) ->
  t_shape tq = [B; nh; S; d] ->
  t_shape tm = [B; 1; 1; S] ->
  Z.of_nat S = (Z.of_nat n * block_size s)%Z ->
  apply_mask sparse_att_mat q m' w1 = apply_mask sparse_att_mat q m w1
  /\ (forall scores,
        heap w !! sparse_att_mat = Some scores ->
        t_shape scores = [B; length active; b; b] ->
        t_device tm = dev -> t_device scores = dev ->
        apply_mask sparse_att_mat q m w1
        = (inr tt,
           World (self w1)
                 (<[sparse_att_mat := add_broadcast scores bm]> (heap w))
                 (trace w ++ [AddMask bm])))
  /\ t_shape bm = [B; length active; 1; b]
  /\ (forall x idx y h i j,
        x < B -> y < b -> active !! idx = Some [h; i; j] ->
        get vzero bm [x; idx; 0; y] = get vzero tm [x; 0; 0; j * b + y]).
Proof.
  destruct w as [s hp tr]. cbv zeta. cbn [self heap trace].
  intros Hs Hbs Hq Hm_ Hm' Htq Htm Hlen.
  rewrite (create_triton_kernels_run dev (World s hp tr) _ _ _ Hs).
  cbn [snd self heap trace].
  pose proof (apply_mask_block_mask sparse_att_mat q m s hp tr dev tq tm
                B 1 S d nh n Hq Hm_ Hs Hbs Htq Htm (or_intror eq_refl)
                Hlen) as Hrun.
  pose proof (apply_mask_block_mask sparse_att_mat q m' s hp tr dev tq
                (broadcast_to vzero tm [B; nh; 1; S])
                B nh S d nh n Hq Hm' Hs Hbs Htq eq_refl (or_introl eq_refl)
                Hlen) as Hrun'.
  cbv zeta in Hrun, Hrun'.
  rewrite (block_mask_expand _ (Z.to_nat (block_size s)) tm B S nh n)
    in Hrun'.
  - split; [now rewrite Hrun, Hrun'|].
    split; [|split; [exact (block_mask_shape _ _ _ _ _ _ Htm)|]].
    + intros scores Hsa Hsc Hdm Hds. rewrite Hrun, Hdm, index_device_ok_same.
      unfold iadd, bind, load. cbn [heap]. rewrite Hsa.
      rewrite (block_mask_shape _ _ _ _ _ _ Htm), Hsc, broadcastable_block.
      rewrite block_mask_device, Hdm, Hds, device_eqb_refl.
      reflexivity.
    + intros x idx y h i j Hx Hy Hidx.
      exact (get_block_mask _ _ _ _ _ _ _ _ _ _ _ _ Htm Hx Hy Hidx).
  - exact Htm.
  - nia.
  - apply Forall_forall. intros ix Hin. apply list_elem_of_In in Hin.
    apply nonzero_in_bounds in Hin. now rewrite Hs in Hin.
Qed.

End MaskAlignment.

(** ** What [forward] rejects *)

Lemma reshape_full_mask {A} (m : tensor A) (B Hm R S n : nat) (bs : Z) :
  t_shape m = [B; Hm; R; S] ->
  R <> 1 -> 0 < B -> 0 < Hm -> 0 < S ->
  (0 < bs)%Z ->
  Z.of_nat S = (Z.of_nat n * bs)%Z ->
  reshape m [Z.of_nat B; (Z.of_nat Hm * Z.of_nat S) / bs; bs]%Z
  = inl RuntimeError.
Proof.
  intros Hs HR HB HHm HS Hbs Hlen.
  set (b := Z.to_nat bs).
  assert (Hb : bs = Z.of_nat b) by (unfold b; lia).
  assert (HSb : S = n * b) by nia.
  assert (D : ((Z.of_nat Hm * Z.of_nat S) / bs = Z.of_nat (Hm * n))%Z).
  { rewrite Hlen, Z.mul_assoc, Z.div_mul by lia. now rewrite Nat2Z.inj_mul. }
  rewrite D. unfold reshape. cbn [forallb map]. rewrite !Nat2Z.id. fold b.
  rewrite Hs.
  assert (N : (numel [B; Hm * n; b] =? numel [B; Hm; R; S]) = false).
  { apply Nat.eqb_neq. simpl. rewrite !Nat.mul_1_r. subst S.
    assert (0 < B * (Hm * (n * b))) by nia.
    intros E. apply HR.
    replace (B * (Hm * (R * (n * b)))) with (R * (B * (Hm * (n * b))))
      in E by lia.
    nia. }
  rewrite N, andb_false_r. reflexivity.
Qed.

Section Validation.
Context `{K : Kernels}.

Lemma forward_kq_run q k v att_mask scale s hp tr dev tg bg tq tk Sq Sk :
  hp !! q = Some tq -> hp !! k = Some tk ->
  (forall m, att_mask = Some m -> is_Some (hp !! m)) ->
  py_index (t_shape tq) (-2) = Some Sq ->
  py_index (t_shape tk) (-2) = Some Sk ->
  Sq <> Sk ->
  wp (forward q k v att_mask scale)
     (fun r _ => r = inl (AssertionError KQDimensions))
     (World (with_kernels dev s tg bg) hp tr).
Proof.
  intros Hq Hk Hmask HSq HSk Hne. unfold forward.
  destruct att_mask as [m|].
  - destruct (Hmask m eq_refl) as [tm Hm].
    destruct (dtype_eqb (t_dtype tm) Bool8) eqn:Hdt; repeat det_step.
    all: reflexivity.
  - repeat det_step. reflexivity.
Qed.

(** X11. A query and a key whose sequence lengths differ are rejected with
    the assertion "Blocksparse requires the same dimensions for K and Q for
    now", whether they fit the layout or not, with or without a mask. *)
Theorem forward_kq_mismatch q k v att_mask scale (w : world) dev tq tk
    Sq Sk nh nr nc :
  heap w !! q = Some tq -> heap w !! k = Some tk ->
  (forall m, att_mask = Some m -> is_Some (heap w !! m)) ->
  kernels_on dev tq (self w) ->
  t_shape (layout (self w)) = [nh; nr; nc] ->
  py_index (t_shape tq) (-2) = Some Sq ->
  py_index (t_shape tk) (-2) = Some Sk ->
  Sq <> Sk ->
  fst (forward q k v att_mask scale w) = inl (AssertionError KQDimensions).
Proof.
  destruct w as [s hp tr]. cbn [self heap trace].
  intros Hq Hk Hmask Hon Hs HSq HSk Hne.
  rewrite (forward_on_initialised _ _ _ _ _ _ _ _ _ _ _ _ _ Hq Hon Hs).
  exact (forward_kq_run q k v att_mask scale s hp tr dev _ _ tq tk Sq Sk
           Hq Hk Hmask HSq HSk Hne).
Qed.

Lemma forward_layout_run q k v att_mask scale s hp tr dev tg bg tq tk
    S nh nr nc :
  hp !! q = Some tq -> hp !! k = Some tk ->
  (forall m, att_mask = Some m -> is_Some (hp !! m)) ->
  t_shape (layout s) = [nh; nr; nc] ->
  py_index (t_shape tq) (-2) = Some S ->
  py_index (t_shape tk) (-2) = Some S ->
  Z.of_nat S <> (Z.of_nat nr * block_size s)%Z ->
  wp (forward q k v att_mask scale)
     (fun r _ => r = inl (AssertionError SequenceLayoutInconsistent))
     (World (with_kernels dev s tg bg) hp tr).
Proof.
  intros Hq Hk Hmask Hs HSq HSk Hne. unfold forward.
  destruct att_mask as [m|].
  - destruct (Hmask m eq_refl) as [tm Hm].
    destruct (dtype_eqb (t_dtype tm) Bool8) eqn:Hdt; repeat det_step.
    all: reflexivity.
  - repeat det_step. reflexivity.
Qed.

(** X12. A query and a key of the same sequence length S with
    S <> layout.shape[-2] * block_size are rejected with the assertion
    "Actual sequence size and layout are inconsistent". *)
Theorem forward_layout_mismatch q k v att_mask scale (w : world) dev tq tk
    S nh nr nc :
  heap w !! q = Some tq -> heap w !! k = Some tk ->
  (forall m, att_mask = Some m -> is_Some (heap w !! m)) ->
  kernels_on dev tq (self w) ->
  t_shape (layout (self w)) = [nh; nr; nc] ->
  py_index (t_shape tq) (-2) = Some S ->
  py_index (t_shape tk) (-2) = Some S ->
  Z.of_nat S <> (Z.of_nat nr * block_size (self w))%Z ->
  fst (forward q k v att_mask scale w)
  = inl (AssertionError SequenceLayoutInconsistent).
Proof.
  destruct w as [s hp tr]. cbn [self heap trace].
  intros Hq Hk Hmask Hon Hs HSq HSk Hne.
  rewrite (forward_on_initialised _ _ _ _ _ _ _ _ _ _ _ _ _ Hq Hon Hs).
  exact (forward_layout_run q k v att_mask scale s hp tr dev _ _ tq tk S
           nh nr nc Hq Hk Hmask Hs HSq HSk Hne).
Qed.

Lemma forward_rank_run q k v att_mask scale s hp tr dev tg bg tq tk :
  hp !! q = Some tq -> hp !! k = Some tk ->
  (forall m, att_mask = Some m -> is_Some (hp !! m)) ->
  length (t_shape tq) < 2 \/ length (t_shape tk) < 2 ->
  wp (forward q k v att_mask scale)
     (fun r w' => r = inl IndexError /\ kernel_calls (trace w')
                                       = kernel_calls tr)
     (World (with_kernels dev s tg bg) hp tr).
Proof.
  intros Hq Hk Hmask Hrank. unfold forward.
  assert (Hq2 : length (t_shape tq) < 2 ->
                py_index (t_shape tq) (-2) = None).
  { destruct (t_shape tq) as [|? [|? ?]]; simpl; intros; try lia;
      reflexivity. }
  assert (Hk2 : length (t_shape tk) < 2 ->
                py_index (t_shape tk) (-2) = None).
  { destruct (t_shape tk) as [|? [|? ?]]; simpl; intros; try lia;
      reflexivity. }
  destruct (py_index (t_shape tq) (-2)) as [Sq|] eqn:HSq.
  - destruct Hrank as [Hr|Hr]; [specialize (Hq2 Hr); discriminate|].
    specialize (Hk2 Hr). clear Hq2.
    destruct att_mask as [m|].
    + destruct (Hmask m eq_refl) as [tm Hm].
      destruct (dtype_eqb (t_dtype tm) Bool8) eqn:Hdt; repeat det_step.
      all: split; [reflexivity|].
      all: cbn [trace]; unfold kernel_calls; rewrite ?List.filter_app;
        cbn [List.filter is_kernel_call]; now rewrite ?app_nil_r.
    + repeat det_step. split; reflexivity.
  - clear Hq2 Hk2.
    destruct att_mask as [m|].
    + destruct (Hmask m eq_refl) as [tm Hm].
      destruct (dtype_eqb (t_dtype tm) Bool8) eqn:Hdt; repeat det_step.
      all: split; [reflexivity|].
      all: cbn [trace]; unfold kernel_calls; rewrite ?List.filter_app;
        cbn [List.filter is_kernel_call]; now rewrite ?app_nil_r.
    + repeat det_step. split; reflexivity.
Qed.

(** X13. A query or a key with fewer than two dimensions makes [forward]
    raise IndexError, from reading [shape[-2]], before any kernel call. *)
Theorem forward_low_rank q k v att_mask scale (w : world) dev tq tk
    nh nr nc :
  heap w !! q = Some tq -> heap w !! k = Some tk ->
  (forall m, att_mask = Some m -> is_Some (heap w !! m)) ->
  kernels_on dev tq (self w) ->
  t_shape (layout (self w)) = [nh; nr; nc] ->
  length (t_shape tq) < 2 \/ length (t_shape tk) < 2 ->
  fst (forward q k v att_mask scale w) = inl IndexError
  /\ kernel_calls (trace (snd (forward q k v att_mask scale w)))
     = kernel_calls (trace w).
Proof.
  destruct w as [s hp tr]. cbn [self heap trace].
  intros Hq Hk Hmask Hon Hs Hrank.
  rewrite (forward_on_initialised _ _ _ _ _ _ _ _ _ _ _ _ _ Hq Hon Hs).
  exact (forward_rank_run q k v att_mask scale s hp tr dev _ _ tq tk
           Hq Hk Hmask Hrank).
Qed.

Lemma forward_full_mask_run q k v m scale s hp tr dev tg bg tq tk tv tm
    B Hm R S d nhq nh nr nc scores :
  hp !! q = Some tq -> hp !! k = Some tk -> hp !! v = Some tv ->
  hp !! m = Some tm ->
  t_dtype tm <> Bool8 ->
  t_shape (layout s) = [nh; nr; nc] ->
  (0 < block_size s)%Z ->
  t_shape tq = [B; nhq; S; d] ->
  py_index (t_shape tk) (-2) = Some S ->
  t_shape tm = [B; Hm; R; S] ->
  Hm = nhq \/ Hm = 1 ->
  R <> 1 -> 0 < B -> 0 < Hm -> 0 < S ->
  Z.of_nat S = (Z.of_nat nr * block_size s)%Z ->
  matmul_call (blocksparse_matmul (layout s) (block_size s) sdd false true dev)
    (div_tensor (as_dtype Float16 tq) (math_sqrt d)) (as_dtype Float16 tk)
  = inr scores ->
  wp (forward q k v (Some m) scale)
     (fun r w' =>
        r = inl RuntimeError
        /\ trace w'
           = tr ++ [ SparseDotSdd
                       (div_tensor (as_dtype Float16 tq) (math_sqrt d))
                       (as_dtype Float16 tk) ])
     (World (with_kernels dev s tg bg) hp tr).
Proof.
  intros Hq Hk Hv Hm_ Hdt Hs Hbs Htq HSk Htm HH HR HB HHm HS Hlen Hsdd.
  assert (Hnb : dtype_eqb (t_dtype tm) Bool8 = false).
  { destruct (dtype_eqb (t_dtype tm) Bool8) eqn:E; [|reflexivity].
    now apply dtype_eqb_eq in E. }
  assert (Htm16 : t_shape (as_dtype Float16 tm) = [B; Hm; R; S])
    by now rewrite as_dtype_shape.
  pose proof (reshape_full_mask (as_dtype Float16 tm) B Hm R S nr
                (block_size s) Htm16 HR HB HHm HS Hbs Hlen) as Hre.
  assert (Hc2 : (Hm =? nhq) || (Hm =? 1) = true).
  { destruct HH as [->| ->];
      [now rewrite Nat.eqb_refl|now rewrite orb_true_r]. }
  unfold forward. repeat det_step.
  split; reflexivity.
Qed.

(** X14. A mask with a row per query position is not supported: a mask of
    shape (B, Hm, R, S) with R <> 1 passes the assertion on the shape of the
    mask, which reads its first, second and last dimension only, and is then
    refused by [reshape] with a RuntimeError, once [sparse_dot_sdd] has been
    called and before anything else is. *)
Theorem forward_full_mask q k v m scale (w : world) dev tq tk tv tm
    B Hm R S d nhq nh nr nc scores :
  let s := self w in
  let q16 := div_tensor (as_dtype Float16 tq) (math_sqrt d) in
  heap w !! q = Some tq -> heap w !! k = Some tk -> heap w !! v = Some tv ->
  heap w !! m = Some tm ->
  kernels_on dev tq s ->
  t_dtype tm <> Bool8 ->
  t_shape (layout s) = [nh; nr; nc] ->
  (0 < block_size s)%Z ->
  t_shape tq = [B; nhq; S; d] ->
  py_index (t_shape tk) (-2) = Some S ->
  t_shape tm = [B; Hm; R; S] ->
  Hm = nhq \/ Hm = 1 ->
  R <> 1 -> 0 < B -> 0 < Hm -> 0 < S ->
  Z.of_nat S = (Z.of_nat nr * block_size s)%Z ->
  matmul_call (blocksparse_matmul (layout s) (block_size s) sdd false true dev)
    q16 (as_dtype Float16 tk) = inr scores ->
  exists w',
    forward q k v (Some m) scale w = (inl RuntimeError, w')
    /\ trace w' = trace w ++ [SparseDotSdd q16 (as_dtype Float16 tk)].
Proof.
  destruct w as [s hp tr]. cbv zeta. cbn [self heap trace].
  intros Hq Hk Hv Hm_ Hon Hdt Hs Hbs Htq HSk Htm HH HR HB HHm HS Hlen Hsdd.
  rewrite (forward_on_initialised _ _ _ _ _ _ _ _ _ _ _ _ _ Hq Hon Hs).
  apply wp_raises.
  exact (forward_full_mask_run q k v m scale s hp tr dev _ _ tq tk tv tm
           B Hm R S d nhq nh nr nc scores Hq Hk Hv Hm_ Hdt Hs Hbs Htq HSk
           Htm HH HR HB HHm HS Hlen Hsdd).
Qed.

End Validation.

(** The trace at the end of a run that stopped at the assertion on the mask:
    one kernel call, and no block mask added. *)
Ltac leaf_rejected :=
  split; [reflexivity|];
  simpl_state;
  eexists; split;
  [ first [ rewrite <- !app_assoc; reflexivity | reflexivity ] |];
  cbn [kernel_calls List.filter is_kernel_call app];
  split; [reflexivity|];
  let Hin := fresh "Hin" in
  intros ? Hin; simpl in Hin;
  repeat (destruct Hin as [Hin|Hin]; [discriminate Hin|]); exact Hin.

Section MaskValidation.
Context `{K : Kernels}.

Lemma forward_mask_shape_run q k v m scale (s : BlockSparseAttention) hp tr
    dev tg bg (tq tk tv tm : tensor val) B nhq S d m0 m1 ml nh nr nc scores :
  hp !! q = Some tq -> hp !! k = Some tk -> hp !! v = Some tv ->
  hp !! m = Some tm ->
  t_shape (layout s) = [nh; nr; nc] ->
  block_size s <> 0%Z ->
  py_index (t_shape tq) 0 = Some B ->
  py_index (t_shape tq) 1 = Some nhq ->
  py_index (t_shape tq) (-2) = Some S ->
  py_index (t_shape tq) (-1) = Some d ->
  py_index (t_shape tk) (-2) = Some S ->
  Z.of_nat S = (Z.of_nat nr * block_size s)%Z ->
  py_index (t_shape tm) 0 = Some m0 ->
  py_index (t_shape tm) 1 = Some m1 ->
  py_index (t_shape tm) (-1) = Some ml ->
  m0 <> B \/ (m1 <> nhq /\ m1 <> 1) \/ ml <> S ->
  matmul_call (blocksparse_matmul (layout s) (block_size s) sdd false true dev)
    (div_tensor (as_dtype Float16 tq) (math_sqrt d)) (as_dtype Float16 tk)
  = inr scores ->
  wp (forward q k v (Some m) scale)
     (fun r w' =>
        r = inl (AssertionError MaskShape)
        /\ exists evs,
             trace w' = tr ++ evs
             /\ kernel_calls evs
                = [ SparseDotSdd
                      (div_tensor (as_dtype Float16 tq) (math_sqrt d))
                      (as_dtype Float16 tk) ]
             /\ forall bm, ~ In (AddMask bm) evs)
     (World (with_kernels dev s tg bg) hp tr).
Proof.
  intros Hq Hk Hv Hm_ Hs Hbs HB Hnh HS Hd HSk Hlen Hm0 Hm1 Hml Hbad Hsdd.
  assert (Hbool :
    (m0 =? B) = false
    \/ ((m0 =? B) = true /\ (m1 =? nhq) || (m1 =? 1) = false)
    \/ ((m0 =? B) = true /\ (m1 =? nhq) || (m1 =? 1) = true
        /\ (ml =? S) = false)).
  { destruct (Nat.eqb_spec m0 B); [|now left]. right.
    destruct (Nat.eqb_spec m1 nhq) as [E1|E1];
      destruct (Nat.eqb_spec m1 1) as [E2|E2]; cbn [orb];
      try (right; split; [reflexivity|split; [reflexivity|]];
           apply Nat.eqb_neq; destruct Hbad as [?|[[? ?]|?]];
           congruence).
    left. split; reflexivity. }
  unfold forward.
  destruct (dtype_eqb (t_dtype tm) Bool8) eqn:Hdt;
    destruct Hbool as [E1|[[E1 E2]|(E1 & E2 & E3)]];
    repeat det_step.
  all: leaf_rejected.
Qed.

(** C1, as the code has it.  When [forward] raises one of its assertions,
    the assertions on the query, the key and the layout come before any
    kernel call; the assertion on the shape of the mask comes after
    [sparse_dot_sdd] has been called once, and before the block mask is
    added and before [sparse_softmax] and [sparse_dot_dsd] are called.  And a
    mask of a wrong shape is rejected there: when the checks on the query,
    the key and the layout pass and [sparse_dot_sdd] returns, a mask whose
    batch size differs from the query's, or whose head dimension is neither
    the query's nor 1, or whose last dimension differs from the sequence
    length of the query, makes [forward] raise the assertion on the mask,
    with that one kernel call made and nothing added to the scores. *)
Theorem forward_assertion_order q k v att_mask scale w tq tk tv :
  heap w !! q = Some tq -> heap w !! k = Some tk -> heap w !! v = Some tv ->
  (forall a w',
     forward q k v att_mask scale w = (inl (AssertionError a), w') ->
     exists evs,
       trace w' = trace w ++ evs
       /\ (a <> MaskShape -> kernel_calls evs = [])
       /\ (a = MaskShape ->
           exists x y, kernel_calls evs = [SparseDotSdd x y]
                       /\ forall m, ~ In (AddMask m) evs))
  /\ (forall m tm dev B nhq S d m0 m1 ml nh nr nc scores,
        att_mask = Some m ->
        heap w !! m = Some tm ->
        kernels_on dev tq (self w) ->
        t_shape (layout (self w)) = [nh; nr; nc] ->
        block_size (self w) <> 0%Z ->
        py_index (t_shape tq) 0 = Some B ->
        py_index (t_shape tq) 1 = Some nhq ->
        py_index (t_shape tq) (-2) = Some S ->
        py_index (t_shape tq) (-1) = Some d ->
        py_index (t_shape tk) (-2) = Some S ->
        Z.of_nat S = (Z.of_nat nr * block_size (self w))%Z ->
        py_index (t_shape tm) 0 = Some m0 ->
        py_index (t_shape tm) 1 = Some m1 ->
        py_index (t_shape tm) (-1) = Some ml ->
        m0 <> B \/ (m1 <> nhq /\ m1 <> 1) \/ ml <> S ->
        matmul_call
          (blocksparse_matmul (layout (self w)) (block_size (self w))
             sdd false true dev)
          (div_tensor (as_dtype Float16 tq) (math_sqrt d))
          (as_dtype Float16 tk) = inr scores ->
        exists w' evs,
          forward q k v att_mask scale w
          = (inl (AssertionError MaskShape), w')
          /\ trace w' = trace w ++ evs
          /\ kernel_calls evs
             = [ SparseDotSdd
                   (div_tensor (as_dtype Float16 tq) (math_sqrt d))
                   (as_dtype Float16 tk) ]
          /\ forall bm, ~ In (AddMask bm) evs).
Proof.
  intros Hq Hk Hv. split.
  - intros a w' Hrun.
    destruct (forward_spec _ _ _ _ _ _ _ _ _ _ _ Hq Hk Hv Hrun)
      as (_ & _ & evs & Htr & Hev).
    exists evs. split; [exact Htr|].
    destruct a; (split; [intros Hne|intros Heq]);
      try discriminate; try contradiction; assumption.
  - intros m tm dev B nhq S d m0 m1 ml nh nr nc scores -> Hm Hon Hs Hbs
      HB Hnh HS Hd HSk Hlen Hm0 Hm1 Hml Hbad Hsdd.
    destruct w as [s hp tr]. cbn [self heap trace] in *.
    rewrite (forward_on_initialised _ _ _ _ _ _ _ _ _ _ _ _ _ Hq Hon Hs).
    unfold initialised. cbv zeta.
    lazymatch goal with
    | |- context [with_kernels dev s ?tg ?bg] =>
        destruct (wp_raises _ _ _ _
                    (forward_mask_shape_run q k v m scale s hp tr dev tg bg
                       tq tk tv tm B nhq S d m0 m1 ml nh nr nc scores
                       Hq Hk Hv Hm Hs Hbs HB Hnh HS Hd HSk Hlen Hm0 Hm1 Hml
                       Hbad Hsdd))
          as (w' & Hrun & evs & Htr & Hcalls & Hadd)
    end.
    exists w', evs. split; [exact Hrun|]. auto.
Qed.

End MaskValidation.

Section MaskDevice.
Context `{K : Kernels}.

Lemma forward_mask_device_run q k v m scale (s : BlockSparseAttention) hp tr
    dev tq tk tv tm B Hm S d nh n scores :
  hp !! q = Some tq -> hp !! k = Some tk -> hp !! v = Some tv ->
  hp !! m = Some tm ->
  t_dtype tm <> Bool8 ->
  t_shape (layout s) = [nh; n; n] ->
  (0 < block_size s)%Z ->
  t_shape tq = [B; nh; S; d] ->
  py_index (t_shape tk) (-2) = Some S ->
  t_shape tm = [B; Hm; 1; S] ->
  Hm = nh \/ Hm = 1 ->
  Z.of_nat S = (Z.of_nat n * block_size s)%Z ->
  matmul_call (blocksparse_matmul (layout s) (block_size s) sdd false true dev)
    (div_tensor (as_dtype Float16 tq) (math_sqrt d)) (as_dtype Float16 tk)
  = inr scores ->
  t_device scores = dev ->
  t_device tm <> dev ->
  let s' :=
    with_kernels dev s
      (Some (Gather (Some dev)
               (map (to_gather_entry n) (nonzero (layout s)))))
      (Some (Gather (Some dev) (map broadcast_entry (nonzero (layout s))))) in
  wp (forward q k v (Some m) scale)
     (fun r w' =>
        r = inl RuntimeError
        /\ trace w'
           = tr ++ [ SparseDotSdd
                       (div_tensor (as_dtype Float16 tq) (math_sqrt d))
                       (as_dtype Float16 tk) ])
     (World s' hp tr).
Proof.
  intros Hq Hk Hv Hm_ Hdt Hs Hbs Htq HSk Htm HH Hlen Hsdd Hds Hdm s'.
  subst s'.
  assert (Hnb : dtype_eqb (t_dtype tm) Bool8 = false).
  { destruct (dtype_eqb (t_dtype tm) Bool8) eqn:E; [|reflexivity].
    now apply dtype_eqb_eq in E. }
  assert (Htm16 : t_shape (as_dtype Float16 tm) = [B; Hm; 1; S])
    by now rewrite as_dtype_shape.
  assert (E : (Hm =? 1) = true \/ ((Hm =? 1) = false /\ Hm = nh)).
  { destruct (Nat.eqb_spec Hm 1); [now left|right].
    destruct HH; [auto|contradiction]. }
  destruct (index_device_ok (t_device (as_dtype Float16 tm)) (Some dev))
    eqn:Hdev.
  - destruct (layout_align_run (layout s) (block_size s)
                (as_dtype Float16 tm) (Some dev) B Hm S nh n Hs Htm16 HH Hbs
                Hlen Hdev)
      as (blocks & rows & Hre & Hix & Hun).
    assert (Hbc : broadcastable
                    (t_shape (block_mask (nonzero (layout s))
                                (Z.to_nat (block_size s))
                                (as_dtype Float16 tm)))
                    (t_shape scores)
                  && device_eqb
                       (t_device (block_mask (nonzero (layout s))
                                    (Z.to_nat (block_size s))
                                    (as_dtype Float16 tm)))
                       (t_device scores) = false).
    { rewrite block_mask_device, as_dtype_device, Hds.
      rewrite (device_eqb_neq _ _ Hdm). apply andb_false_r. }
    destruct E as [E|[E ->]]; rewrite E in Hix.
    + assert (Hc2 : (Hm =? nh) || (Hm =? 1) = true)
        by now rewrite E, orb_true_r.
      unfold forward. repeat det_step. split; reflexivity.
    + unfold forward. repeat det_step. split; reflexivity.
  - destruct E as [E|[E ->]].
    + assert (Hc2 : (Hm =? nh) || (Hm =? 1) = true)
        by now rewrite E, orb_true_r.
      destruct (layout_align_device (layout s) (block_size s)
                  (as_dtype Float16 tm) (Some dev)
                  (map broadcast_entry (nonzero (layout s)))
                  B Hm S n Htm16 Hbs Hlen Hdev) as (blocks & Hre & Hix).
      unfold forward. repeat det_step. split; reflexivity.
    + destruct (layout_align_device (layout s) (block_size s)
                  (as_dtype Float16 tm) (Some dev)
                  (map (to_gather_entry n) (nonzero (layout s)))
                  B nh S n Htm16 Hbs Hlen Hdev) as (blocks & Hre & Hix).
      unfold forward. repeat det_step. split; reflexivity.
Qed.

(** X20. A mask on another device than the kernels is refused.  For a square
    layout of shape (nh, n, n), a query of shape (B, nh, S, d) with
    S = n * block_size, a mask of shape (B, Hm, 1, S) with Hm = nh or Hm = 1
    that is not boolean, kernels on [dev] and scores that the first matmul
    returns on [dev]: when the mask lives on another device, [forward]
    raises a RuntimeError, from the gather when the index tensors are on a
    GPU that the mask is not on and from the addition in place otherwise,
    once [sparse_dot_sdd] has been called and before anything is added to
    the scores or another kernel is called. *)
Theorem forward_mask_device q k v m scale (w : world) dev tq tk tv tm
    B Hm S d nh n scores :
  let s := self w in
  let q16 := div_tensor (as_dtype Float16 tq) (math_sqrt d) in
  heap w !! q = Some tq -> heap w !! k = Some tk -> heap w !! v = Some tv ->
  heap w !! m = Some tm ->
  kernels_on dev tq s ->
  t_dtype tm <> Bool8 ->
  t_shape (layout s) = [nh; n; n] ->
  (0 < block_size s)%Z ->
  t_shape tq = [B; nh; S; d] ->
  py_index (t_shape tk) (-2) = Some S ->
  t_shape tm = [B; Hm; 1; S] ->
  Hm = nh \/ Hm = 1 ->
  Z.of_nat S = (Z.of_nat n * block_size s)%Z ->
  matmul_call (blocksparse_matmul (layout s) (block_size s) sdd false true dev)
    q16 (as_dtype Float16 tk) = inr scores ->
  t_device scores = dev ->
  t_device tm <> dev ->
  exists w',
    forward q k v (Some m) scale w = (inl RuntimeError, w')
    /\ trace w' = trace w ++ [SparseDotSdd q16 (as_dtype Float16 tk)].
Proof.
  destruct w as [s hp tr]. cbv zeta. cbn [self heap trace].
  intros Hq Hk Hv Hm_ Hon Hdt Hs Hbs Htq HSk Htm HH Hlen Hsdd Hds Hdm.
  rewrite (forward_on_initialised _ _ _ _ _ _ _ _ _ _ _ _ _ Hq Hon Hs).
  pose proof (forward_mask_device_run q k v m scale s hp tr dev tq tk tv tm
                B Hm S d nh n scores Hq Hk Hv Hm_ Hdt Hs Hbs Htq HSk Htm HH
                Hlen Hsdd Hds Hdm) as Hwp.
  cbv zeta in Hwp.
  replace (initialised dev s) with
    (with_kernels dev s
       (Some (Gather (Some dev)
                (map (to_gather_entry n) (nonzero (layout s)))))
       (Some (Gather (Some dev) (map broadcast_entry (nonzero (layout s))))))
    by (unfold initialised; rewrite Hs; reflexivity).
  exact (wp_raises _ _ _ _ Hwp).
Qed.

End MaskDevice.

(** ** Warnings and the instance after a call *)

(** One step of a run on which only the scrutinees in the context are
    known. *)
Ltac branch_step :=
  simpl_state;
  lazymatch goal with
  | |- wp (match ?x with _ => _ end) _ _ =>
      first [ match goal with H : x = _ |- _ => rewrite H end
            | wp_known_step ]
  | |- _ => wp_known_step
  end.

Ltac leaf_events :=
  eexists; split;
  [ first [ rewrite <- !app_assoc; reflexivity
          | symmetry; apply app_nil_r
          | reflexivity ]
  | reflexivity ].

Section Warnings.
Context `{K : Kernels}.

Lemma forward_initialised_run q k v att_mask scale s hp tr dev tg bg :
  (forall m, att_mask = Some m -> is_Some (hp !! m)) ->
  wp (forward q k v att_mask scale)
     (fun r w' =>
        self w' = with_kernels dev s tg bg
        /\ exists evs,
             trace w' = tr ++ evs
             /\ warnings evs
                = if boolean_mask hp att_mask then [mask_warning] else [])
     (World (with_kernels dev s tg bg) hp tr).
Proof.
  intros Hmask. unfold forward, boolean_mask.
  destruct att_mask as [m|].
  - destruct (Hmask m eq_refl) as [tm Hm]. rewrite Hm.
    destruct (dtype_eqb (t_dtype tm) Bool8) eqn:Hdt; repeat branch_step.
    all: (split; [reflexivity|leaf_events]).
  - repeat branch_step.
    all: (split; [reflexivity|leaf_events]).
Qed.

(** X15. On an instance that has or gets its kernels, a call of [forward]
    logs the warning of [update_mask_type] once when the mask is a boolean
    tensor, and logs nothing when it is not or when there is no mask,
    whether the call returns or raises. *)
Theorem forward_mask_warning q k v att_mask scale (w : world) dev tq
    nh nr nc :
  heap w !! q = Some tq ->
  (forall m, att_mask = Some m -> is_Some (heap w !! m)) ->
  kernels_on dev tq (self w) ->
  t_shape (layout (self w)) = [nh; nr; nc] ->
  exists evs,
    trace (snd (forward q k v att_mask scale w)) = trace w ++ evs
    /\ warnings evs
       = if boolean_mask (heap w) att_mask then [mask_warning] else [].
Proof.
  destruct w as [s hp tr]. cbn [self heap trace].
  intros Hq Hmask Hon Hs.
  rewrite (forward_on_initialised _ _ _ _ _ _ _ _ _ _ _ _ _ Hq Hon Hs).
  exact (proj2 (forward_initialised_run q k v att_mask scale s hp tr dev _ _
                  Hmask)).
Qed.

(** X16. Whether the call returns or raises, [forward] on an instance that
    has or gets its kernels leaves the instance with the kernel objects and
    both index tensors for the device: a first call that fails a shape
    assertion leaves an instance that is fully set up, and a later call
    changes nothing. *)
Theorem forward_leaves_initialised q k v att_mask scale (w : world) dev tq
    nh nr nc :
  heap w !! q = Some tq ->
  (forall m, att_mask = Some m -> is_Some (heap w !! m)) ->
  kernels_on dev tq (self w) ->
  t_shape (layout (self w)) = [nh; nr; nc] ->
  self (snd (forward q k v att_mask scale w)) = initialised dev (self w).
Proof.
  destruct w as [s hp tr]. cbn [self heap trace].
  intros Hq Hmask Hon Hs.
  rewrite (forward_on_initialised _ _ _ _ _ _ _ _ _ _ _ _ _ Hq Hon Hs).
  exact (proj1 (forward_initialised_run q k v att_mask scale s hp tr dev _ _
                  Hmask)).
Qed.

End Warnings.

(** ** What every run keeps *)

Section HeapGrowth.
Context `{K : Kernels}.

Lemma wp_to_dtype_loc d l (Q : exn + loc -> world -> Prop) w :
  (forall t, heap w !! l = Some t ->
     forall l' ext, (heap w ++ ext) !! l' = Some (as_dtype d t) ->
       l' = l \/ length (heap w) <= l' ->
       Q (inr l') (World (self w) (heap w ++ ext) (trace w))) ->
  (heap w !! l = None -> Q (inl DanglingReference) w) ->
  wp (to_dtype d l) Q w.
Proof.
  intros Hsome Hnone. unfold to_dtype. apply wp_bind, wp_load; [|exact Hnone].
  intros t Ht. specialize (Hsome t Ht). unfold as_dtype in Hsome.
  destruct (dtype_eqb (t_dtype t) d).
  - apply wp_ret. specialize (Hsome l []). rewrite app_nil_r in Hsome.
    destruct w. apply Hsome; [assumption|now left].
  - apply wp_alloc. apply Hsome; [apply lookup_alloc|now right].
Qed.

End HeapGrowth.

Ltac inv_step :=
  simpl_state;
  lazymatch goal with
  | |- wp (to_dtype _ _) _ _ =>
      apply wp_to_dtype_loc; simpl_state; [intros ? ? ? ? ? ?|intros ?]
  | |- wp (half _) _ _ => unfold half
  | |- _ => wp_heap_step
  end.

Lemma le_length_app {X} (n : nat) (l e : list X) :
  n <= length l -> n <= length (l ++ e).
Proof. rewrite length_app. lia. Qed.

Lemma le_length_insert {X} (n : nat) (l : list X) (i : nat) (x : X) :
  n <= length l -> n <= length (<[i := x]> l).
Proof. now rewrite length_insert. Qed.

(** The heap of a run extends the heap it started from. *)
Ltac grows :=
  repeat first [apply le_length_app | apply le_length_insert];
  apply Nat.le_refl.

Ltac fresh_result :=
  cbn [heap];
  split;
  [ match goal with
    | H : ?l = _ \/ _ <= ?l |- _ <= ?l =>
        destruct H as [->|H]; [grows|etransitivity; [|exact H]; grows]
    end
  | eapply lookup_lt_Some; eassumption ].

Section Invariants.
Context `{K : Kernels}.

Lemma forward_invariant_run q k v att_mask scale (w : world) :
  wp (forward q k v att_mask scale) (forward_invariant w) w.
Proof.
  unfold forward. repeat inv_step.
  all: split; [repeat split|].
  all: intros out Hout; try discriminate Hout; injection Hout as <-.
  all: fresh_result.
Qed.

(** X17. No run of [forward], whatever its arguments and its outcome,
    changes the configuration of the instance: the layout, the block size,
    the dropout module, [causal] and the four capability flags. *)
Theorem forward_keeps_config q k v att_mask scale (w : world) :
  same_config (self w) (self (snd (forward q k v att_mask scale w))).
Proof. exact (proj1 (forward_invariant_run q k v att_mask scale w)). Qed.

(** X18. The tensor that [forward] returns is one that the call allocated:
    its location is none of the locations that existed before the call, so
    the result is never the caller's query, key, value or mask. *)
Theorem forward_result_fresh q k v att_mask scale (w : world) out w' :
  forward q k v att_mask scale w = (inr out, w') ->
  length (heap w) <= out /\ out < length (heap w').
Proof.
  intros Hrun.
  pose proof (forward_invariant_run q k v att_mask scale w) as Hinv.
  unfold wp in Hinv. rewrite Hrun in Hinv.
  now apply (proj2 Hinv).
Qed.

End Invariants.

(** ** The exceptions of [forward] *)

(** The exception that a run ends in, if any. *)
Ltac raised :=
  let He := fresh "He" in
  intros ? He; try discriminate He; injection He as <-.

Section Failures.
Context `{K : Kernels}.

Lemma forward_errors_run q k v att_mask scale s hp tr dev tg bg tq tk tv :
  hp !! q = Some tq -> hp !! k = Some tk -> hp !! v = Some tv ->
  (forall m, att_mask = Some m -> is_Some (hp !! m)) ->
  block_size s <> 0%Z ->
  wp (forward q k v att_mask scale)
     (fun r _ => forall e, r = inl e -> forward_error e = true)
     (World (with_kernels dev s (Some tg) (Some bg)) hp tr).
Proof.
  intros Hq Hk Hv Hmask Hbs. unfold forward.
  destruct att_mask as [m|].
  - destruct (Hmask m eq_refl) as [tm Hm].
    destruct (dtype_eqb (t_dtype tm) Bool8) eqn:Hdt; repeat branch_step.
    all: raised; error_kinds; try reflexivity.
    all: try contradiction.
    all: excluded.
  - repeat branch_step.
    all: raised; error_kinds; try reflexivity.
    all: try contradiction.
    all: excluded.
Qed.

(** X19. On an instance that has or gets its kernels and whose block size
    is not zero, a call of [forward] on tensors that exist fails in one of
    six ways only: the assertion on the sequence lengths of query and key,
    the assertion on sequence length and layout, the assertion on the shape
    of the mask, IndexError, RuntimeError, or an error raised by a kernel.
    It raises no AttributeError, ZeroDivisionError or ValueError, and not
    the assertion on multiples of the block size. *)
Theorem forward_failure_modes q k v att_mask scale (w : world) dev
    tq tk tv nh nr nc e w' :
  heap w !! q = Some tq -> heap w !! k = Some tk -> heap w !! v = Some tv ->
  (forall m, att_mask = Some m -> is_Some (heap w !! m)) ->
  kernels_on dev tq (self w) ->
  t_shape (layout (self w)) = [nh; nr; nc] ->
  block_size (self w) <> 0%Z ->
  forward q k v att_mask scale w = (inl e, w') ->
  forward_error e = true.
Proof.
  destruct w as [s hp tr]. cbn [self heap trace].
  intros Hq Hk Hv Hmask Hon Hs Hbs.
  rewrite (forward_on_initialised _ _ _ _ _ _ _ _ _ _ _ _ _ Hq Hon Hs).
  intros Hrun. unfold initialised in Hrun. cbv zeta in Hrun.
  exact (wp_elim _ _ _ _ _
           (forward_errors_run q k v att_mask scale s hp tr dev _ _
              tq tk tv Hq Hk Hv Hmask Hbs) Hrun e eq_refl).
Qed.

End Failures.

(** ** Concrete runs *)

Section Runs.
Import Run.

Lemma run_pair {A} (c : M A) (w : world) (r : exn + A) :
  fst (c w) = r -> c w = (r, snd (c w)).
Proof. intros <-. apply surjective_pairing. Qed.


Lemma init_layout_witness :
  exists m log,
    init (K:=kernels) layout_2d 16%Z 0%Z 3 false = (inr m, log)
    /\ (length (t_shape layout_2d) = 2 ->
        log
        = [ Warning "The layout passed is lacking a head dimension and a batch dimension";
            Warning "Now assuming that the same layout is to be used across all heads";
            Warning "New layout dimensions: torch.Size([3, 2, 2])" ]
        /\ t_shape (layout m) = 3 :: t_shape layout_2d
        /\ forall h ix, h < 3 -> in_bounds (t_shape layout_2d) ix = true ->
             get 0%Z (layout m) (h :: ix) = get 0%Z layout_2d ix)
    /\ (length (t_shape layout_2d) = 3 -> log = [] /\ layout m = layout_2d).
Proof.
  apply (init_layout (K:=kernels) layout_2d 16%Z 0%Z 3 false); reflexivity.
Defined.

Lemma create_triton_kernels_gather_witness :
  exists s' tg bg,
    create_triton_kernels (Cuda 0) world2 = (inr tt, World s' [] [])
    /\ to_gather s' = Some (Gather (Some (Cuda 0)) tg)
    /\ broadcast_to_gather s' = Some (Gather (Some (Cuda 0)) bg)
    /\ tg = [0; 0; 1; 3] /\ bg = [0; 0; 1; 1].
Proof.
  destruct (create_triton_kernels_gather (Cuda 0) world2 2 2 2 eq_refl)
    as (s' & tg & bg & Hrun & Htg & Hbg & -> & -> & _).
  eexists s', _, _. split; [exact Hrun|]. split; [exact Htg|].
  split; [exact Hbg|]. split; reflexivity.
Defined.

(** The mask assertion is raised after a kernel call, for a mask with a
    wrong batch size, a wrong number of heads or a wrong length. *)
Lemma forward_assertion_order_witness :
  let q16 :=
    div_tensor (as_dtype Float16 (qkv Float32 (Cuda 0))) (math_sqrt 4) in
  let k16 := as_dtype Float16 (qkv Float32 (Cuda 0)) in
  (exists evs,
     trace (snd run_bad) = [] ++ evs
     /\ (MaskShape <> MaskShape -> kernel_calls evs = [])
     /\ (MaskShape = MaskShape ->
         exists x y, kernel_calls evs = [SparseDotSdd x y]
                     /\ forall m, ~ In (AddMask m) evs))
  /\ (exists w' evs,
        forward 0 1 2 (Some 3) 1%Z (world1 Float32 bad_mask)
        = (inl (AssertionError MaskShape), w')
        /\ trace w' = [] ++ evs
        /\ kernel_calls evs = [SparseDotSdd q16 k16]
        /\ forall bm, ~ In (AddMask bm) evs)
  /\ (exists w' evs,
        forward 0 1 2 (Some 3) 1%Z (world1 Float32 bad_heads_mask)
        = (inl (AssertionError MaskShape), w')
        /\ trace w' = [] ++ evs
        /\ kernel_calls evs = [SparseDotSdd q16 k16]
        /\ forall bm, ~ In (AddMask bm) evs)
  /\ (exists w' evs,
        forward 0 1 2 (Some 3) 1%Z (world1 Float32 short_mask)
        = (inl (AssertionError MaskShape), w')
        /\ trace w' = [] ++ evs
        /\ kernel_calls evs = [SparseDotSdd q16 k16]
        /\ forall bm, ~ In (AddMask bm) evs).
Proof.
  intros q16 k16. split; [|split; [|split]].
  - apply (proj1 (forward_assertion_order (K:=kernels) 0 1 2 (Some 3) 1%Z
                    (world1 Float32 bad_mask)
                    (qkv Float32 (Cuda 0)) (qkv Float32 (Cuda 0))
                    (qkv Float32 (Cuda 0)) eq_refl eq_refl eq_refl)
             MaskShape (snd run_bad)).
    apply run_pair. vm_compute. reflexivity.
  - refine (proj2 (forward_assertion_order (K:=kernels) 0 1 2 (Some 3) 1%Z
                     (world1 Float32 bad_mask)
                     (qkv Float32 (Cuda 0)) (qkv Float32 (Cuda 0))
                     (qkv Float32 (Cuda 0)) eq_refl eq_refl eq_refl)
              3 bad_mask (Cuda 0) 1 1 16 4 2 1 16 1 1 1
              (zeros [1; 1; 16; 16])
              eq_refl eq_refl _ eq_refl _ eq_refl eq_refl eq_refl eq_refl
              eq_refl eq_refl eq_refl eq_refl eq_refl _ eq_refl).
    + right. split; reflexivity.
    + discriminate.
    + left. lia.
  - refine (proj2 (forward_assertion_order (K:=kernels) 0 1 2 (Some 3) 1%Z
                     (world1 Float32 bad_heads_mask)
                     (qkv Float32 (Cuda 0)) (qkv Float32 (Cuda 0))
                     (qkv Float32 (Cuda 0)) eq_refl eq_refl eq_refl)
              3 bad_heads_mask (Cuda 0) 1 1 16 4 1 3 16 1 1 1
              (zeros [1; 1; 16; 16])
              eq_refl eq_refl _ eq_refl _ eq_refl eq_refl eq_refl eq_refl
              eq_refl eq_refl eq_refl eq_refl eq_refl _ eq_refl).
    + right. split; reflexivity.
    + discriminate.
    + right. left. lia.
  - refine (proj2 (forward_assertion_order (K:=kernels) 0 1 2 (Some 3) 1%Z
                     (world1 Float32 short_mask)
                     (qkv Float32 (Cuda 0)) (qkv Float32 (Cuda 0))
                     (qkv Float32 (Cuda 0)) eq_refl eq_refl eq_refl)
              3 short_mask (Cuda 0) 1 1 16 4 1 1 8 1 1 1
              (zeros [1; 1; 16; 16])
              eq_refl eq_refl _ eq_refl _ eq_refl eq_refl eq_refl eq_refl
              eq_refl eq_refl eq_refl eq_refl eq_refl _ eq_refl).
    + right. split; reflexivity.
    + discriminate.
    + right. right. lia.
Defined.

(** C1 as stated fails: on a mask whose batch size differs from the
    query's, [forward] raises the mask assertion with the call to
    [sparse_dot_sdd] already in the trace. *)
Lemma forward_kernel_before_mask_error :
  ~ (forall (w : world) q k v att_mask scale a,
       fst (forward (K:=kernels) q k v att_mask scale w)
       = inl (AssertionError a) ->
       kernel_calls (trace (snd (forward q k v att_mask scale w)))
       = kernel_calls (trace w)).
Proof.
  intros Hclaim.
  specialize (Hclaim (world1 Float32 bad_mask) 0 1 2 (Some 3) 1%Z MaskShape).
  assert (Hrun : fst (forward (K:=kernels) 0 1 2 (Some 3) 1%Z
                        (world1 Float32 bad_mask))
                 = inl (AssertionError MaskShape))
    by (vm_compute; reflexivity).
  apply Hclaim, (f_equal (@length _)) in Hrun.
  vm_compute in Hrun. discriminate Hrun.
Defined.



(** The query holds 6 everywhere and its last dimension is 4: the first
    kernel call receives 6 / sqrt(4). *)
Lemma forward_scaling_witness :
  exists evs,
    trace (snd run_good) = [] ++ evs
    /\ (forall e rest, kernel_calls evs = e :: rest ->
          exists head_dim a,
            py_index (t_shape (qkv Float32 (Cuda 0))) (-1) = Some head_dim
            /\ e = SparseDotSdd a (as_dtype Float16 (qkv Float32 (Cuda 0)))
            /\ t_shape a = t_shape (qkv Float32 (Cuda 0))
            /\ t_dtype a = Float16
            /\ t_data a
               = map (fun x => vdiv x (math_sqrt head_dim))
                     (t_data (as_dtype Float16 (qkv Float32 (Cuda 0))))
            /\ forall x sc c, In (SparseSoftmax x sc c) rest -> sc = 1%Z)
    /\ (forall out, (inr 13 : exn + loc) = inr out ->
          exists a b kernel scores x z tv',
            kernel_calls evs
            = [ SparseDotSdd a b;
                SparseSoftmax x 1%Z (causal module1);
                SparseDotDsd z tv' ]
            /\ sparse_dot_sdd (self (snd run_good)) = Some kernel
            /\ matmul_call kernel a b = inr scores
            /\ masked_scores (Some 3) evs scores x).
Proof.
  apply (forward_scaling (K:=kernels) 0 1 2 (Some 3) 1%Z
           (world1 Float32 good_mask)
           (qkv Float32 (Cuda 0)) (qkv Float32 (Cuda 0))
           (qkv Float32 (Cuda 0)) (inr 13) (snd run_good));
    [reflexivity..|apply run_pair; vm_compute; reflexivity].
Defined.

(** Float32 in, Float32 out. *)
Lemma forward_dtype_witness :
  exists t a b x c z tv' evs,
    heap (snd run_good) !! 13 = Some t
    /\ t_dtype t = Float32
    /\ trace (snd run_good) = [] ++ evs
    /\ kernel_calls evs
       = [SparseDotSdd a b; SparseSoftmax x 1%Z c; SparseDotDsd z tv']
    /\ t_dtype a = Float16 /\ t_dtype b = Float16 /\ t_dtype tv' = Float16
    /\ (Some 3 = None
        \/ exists block_mask,
             In (AddMask block_mask) evs /\ t_dtype block_mask = Float16).
Proof.
  apply (forward_dtype (K:=kernels) 0 1 2 (Some 3) 1%Z
           (world1 Float32 good_mask)
           (qkv Float32 (Cuda 0)) (qkv Float32 (Cuda 0))
           (qkv Float32 (Cuda 0)) 13 (snd run_good));
    [reflexivity..|apply run_pair; vm_compute; reflexivity].
Defined.

(** The caller's query and mask after the call. *)
Lemma forward_frame_witness :
  heap (snd run_good) !! 0 = Some (qkv Float32 (Cuda 0))
  /\ heap (snd run_good) !! 3 = Some good_mask.
Proof.
  split;
    apply (forward_frame (K:=kernels) 0 1 2 (Some 3) 1%Z
             (world1 Float32 good_mask)
             (qkv Float32 (Cuda 0)) (qkv Float32 (Cuda 0))
             (qkv Float32 (Cuda 0))); reflexivity.
Defined.


Lemma mask_broadcast_equivalence_witness :
  let bm := block_mask (H:=numerics) (nonzero layout2) 16 mask2 in
  let w1 := snd (create_triton_kernels (Cuda 0) world4) in
  apply_mask 0 1 3 w1 = apply_mask 0 1 2 w1
  /\ apply_mask 0 1 2 w1
     = (inr tt,
        World (self w1)
              (<[0 := add_broadcast (H:=numerics) (zeros [1; 4; 16; 16]) bm]>
                 (heap world4))
              [AddMask bm])
  /\ t_shape bm = [1; 4; 1; 16]
  /\ get 0%Z bm [0; 3; 0; 7] = get 0%Z mask2 [0; 0; 0; 1 * 16 + 7].
Proof.
  intros bm w1.
  destruct (mask_broadcast_equivalence (H:=numerics) 0 1 2 3 (Cuda 0) world4
              qkv2 mask2 1 32 4 2 2
              eq_refl eq_refl eq_refl eq_refl eq_refl eq_refl eq_refl eq_refl)
    as (Heq & Hrun & Hshape & Hget).
  split; [exact Heq|].
  split; [exact (Hrun (zeros [1; 4; 16; 16]) eq_refl eq_refl eq_refl eq_refl)|].
  split; [exact Hshape|].
  apply (Hget 0 3 7 1 0 1); [vm_compute; lia..|reflexivity].
Defined.

(** C4 as stated fails: on the layout of shape (2, 2, 1) with all blocks
    active and a sequence of 32 = 2 * 16 positions, [forward] returns for the
    shared mask and for its expansion, and the block masks it adds differ:
    the blocks of the second head hold the values of positions 0 to 15 for
    the shared mask and those of positions 16 to 31 for the expansion. *)
Lemma mask_broadcast_differs :
  ~ (forall (w : world) q k v m m' scale (tm : tensor Z) B S nh nr nc
            out out',
       t_shape (layout (self w)) = [nh; nr; nc] ->
       heap w !! m = Some tm ->
       t_shape tm = [B; 1; 1; S] ->
       heap w !! m' = Some (broadcast_to 0%Z tm [B; nh; 1; S]) ->
       fst (forward (K:=kernels) q k v (Some m) scale w) = inr out ->
       fst (forward (K:=kernels) q k v (Some m') scale w) = inr out' ->
       added_masks (trace (snd (forward q k v (Some m') scale w)))
       = added_masks (trace (snd (forward q k v (Some m) scale w)))).
Proof.
  intros Hclaim.
  assert (Hrun : fst (forward (K:=kernels) 0 1 2 (Some 3) 1%Z world_tall)
                 = inr 9) by (vm_compute; reflexivity).
  assert (Hrun' : fst (forward (K:=kernels) 0 1 2 (Some 4) 1%Z world_tall)
                  = inr 9) by (vm_compute; reflexivity).
  specialize (Hclaim world_tall 0 1 2 3 4 1%Z mask2 1 32 2 2 1 9 9
                eq_refl eq_refl eq_refl eq_refl Hrun Hrun').
  apply (f_equal (map (fun bm => get 0%Z bm [0; 2; 0; 0]))) in Hclaim.
  vm_compute in Hclaim. discriminate Hclaim.
Defined.

(** *** Runs of kernel creation and of calls *)

Lemma create_triton_kernels_in_range_witness :
  exists tg bg,
    to_gather (self (snd (create_triton_kernels (Cuda 0) world2)))
    = Some (Gather (Some (Cuda 0)) tg)
    /\ broadcast_to_gather (self (snd (create_triton_kernels (Cuda 0) world2)))
       = Some (Gather (Some (Cuda 0)) bg)
    /\ length tg = length bg
    /\ Forall (fun x => x < 2 * 2) tg
    /\ Forall (fun y => y < 2) bg.
Proof.
  exact (create_triton_kernels_in_range (H:=numerics) (Cuda 0) world2 2 2 2
           eq_refl).
Defined.

Lemma create_triton_kernels_decode_witness :
  [0; 0; 1; 1] !! 3 = Some (3 mod 2) /\ 3 / 2 < 2.
Proof.
  exact (create_triton_kernels_decode (H:=numerics) (Cuda 0) world2 2 2 2
           (Gather (Some (Cuda 0)) [0; 0; 1; 3])
           (Gather (Some (Cuda 0)) [0; 0; 1; 1])
           eq_refl eq_refl eq_refl 3 3 eq_refl).
Defined.

Lemma create_triton_kernels_single_head_witness :
  to_gather (self (snd (create_triton_kernels (Cuda 0) (world_of []))))
  = broadcast_to_gather
      (self (snd (create_triton_kernels (Cuda 0) (world_of [])))).
Proof.
  exact (create_triton_kernels_single_head (H:=numerics) (Cuda 0)
           (world_of []) 1 1 eq_refl).
Defined.

Lemma create_triton_kernels_count_witness :
  exists tg bg,
    to_gather (self (snd (create_triton_kernels (Cuda 0) world2))) = Some tg
    /\ broadcast_to_gather (self (snd (create_triton_kernels (Cuda 0) world2)))
       = Some bg
    /\ length (g_index tg)
       = length (filter (fun x => x <> 0%Z) (t_data layout2))
    /\ length (g_index bg) = length (g_index tg).
Proof.
  exact (create_triton_kernels_count (H:=numerics) (Cuda 0) world2 2 2 2
           eq_refl eq_refl).
Defined.

Lemma create_triton_kernels_rebind_witness :
  create_triton_kernels (Cuda 1) (snd (create_triton_kernels (Cuda 0) world2))
  = create_triton_kernels (Cuda 1) world2.
Proof.
  exact (create_triton_kernels_rebind (H:=numerics) (Cuda 0) (Cuda 1) world2
           2 2 2 eq_refl).
Defined.

Lemma init_create_triton_kernels_2d_witness :
  exists s',
    create_triton_kernels (Cuda 0)
      (World (Module_ false (MkDropout 0%Z false)
                (expand_heads 0%Z layout_2d 3) 16%Z
                true true true false None None None None None) [] [])
    = (inr tt, World s' [] [])
    /\ broadcast_to_gather s'
       = Some (Gather (Some (Cuda 0))
                 (flat_map (fun _ => active_columns layout_2d) (seq 0 3)))
    /\ to_gather s'
       = Some (Gather (Some (Cuda 0))
                 (flat_map (fun h => map (fun j => h * 2 + j)
                                         (active_columns layout_2d))
                           (seq 0 3))).
Proof.
  exact (init_create_triton_kernels_2d (K:=kernels) layout_2d 16%Z 0%Z 3
           false (Cuda 0) _ [] [] 2 2 eq_refl eq_refl).
Defined.


Lemma forward_pipeline_witness :
  exists out w',
    forward 0 1 2 None 1%Z (world1 Float32 good_mask) = (inr out, w')
    /\ heap w' !! out = Some (as_dtype Float32 (zeros [1; 1; 16; 4]))
    /\ self w' = initialised (Cuda 0) module1
    /\ trace w'
       = [ SparseDotSdd
             (div_tensor (as_dtype Float16 (qkv Float32 (Cuda 0)))
                         (math_sqrt 4))
             (as_dtype Float16 (qkv Float32 (Cuda 0)));
           SparseSoftmax (zeros [1; 1; 16; 16]) 1%Z false;
           AttnDrop (zeros [1; 1; 16; 16]);
           SparseDotDsd (zeros [1; 1; 16; 16])
                        (as_dtype Float16 (qkv Float32 (Cuda 0))) ].
Proof.
  apply (forward_pipeline (K:=kernels) 0 1 2 1%Z (world1 Float32 good_mask)
           (Cuda 0) (qkv Float32 (Cuda 0)) (qkv Float32 (Cuda 0))
           (qkv Float32 (Cuda 0)) 16 4 1 1 1
           (zeros [1; 1; 16; 16]) (zeros [1; 1; 16; 16])
           (zeros [1; 1; 16; 4]));
    try reflexivity.
  right. split; reflexivity.
Defined.

Lemma forward_masked_witness :
  let bm := block_mask (H:=numerics) (nonzero layout2) 16 mask_heads in
  let masked := add_broadcast (H:=numerics) (zeros [1; 4; 16; 16]) bm in
  exists out w',
    forward 0 1 2 (Some 3) 1%Z world3 = (inr out, w')
    /\ heap w' !! out = Some (zeros [1; 2; 32; 4])
    /\ trace w'
       = [ SparseDotSdd (div_tensor qkv2 (math_sqrt 4)) qkv2;
           AddMask bm;
           SparseSoftmax masked 1%Z false;
           AttnDrop masked;
           SparseDotDsd masked qkv2 ]
    /\ t_shape bm = [1; 4; 1; 16]
    /\ get 0%Z masked [0; 3; 5; 7]
       = Z.add (get 0%Z (zeros [1; 4; 16; 16]) [0; 3; 5; 7])
               (get 0%Z mask_heads [0; 1; 0; 1 * 16 + 7]).
Proof.
  intros bm masked.
  destruct (forward_masked (H:=numerics) (K:=kernels) 0 1 2 3 1%Z world3
              (Cuda 0) qkv2 qkv2 qkv2 mask_heads 1 2 32 4 2 2
              (zeros [1; 4; 16; 16]) masked (zeros [1; 2; 32; 4]))
    as (out & w' & Hrun & Hout & Htr & Hshape & Hget);
    try reflexivity.
  - right. split; reflexivity.
  - discriminate.
  - now left.
  - exists out, w'. split; [exact Hrun|]. split; [exact Hout|].
    split; [exact Htr|]. split; [exact Hshape|].
    apply (Hget 0 3 5 7 1 0 1); [vm_compute; lia..|reflexivity].
Defined.

Lemma forward_kq_mismatch_witness :
  fst (forward 0 1 2 None 1%Z
         (world_of [qkv Float32 (Cuda 0); long_key; qkv Float32 (Cuda 0)]))
  = inl (AssertionError KQDimensions).
Proof.
  apply (forward_kq_mismatch (K:=kernels) 0 1 2 None 1%Z
           (world_of [qkv Float32 (Cuda 0); long_key; qkv Float32 (Cuda 0)])
           (Cuda 0)
           (qkv Float32 (Cuda 0)) long_key 16 32 1 1 1);
    try reflexivity.
  - intros m Hm. discriminate Hm.
  - right. split; reflexivity.
  - lia.
Defined.

Lemma forward_layout_mismatch_witness :
  fst (forward 0 1 2 None 1%Z (world_of [long_key; long_key; long_key]))
  = inl (AssertionError SequenceLayoutInconsistent).
Proof.
  apply (forward_layout_mismatch (K:=kernels) 0 1 2 None 1%Z
           (world_of [long_key; long_key; long_key]) (Cuda 0)
           long_key long_key 32 1 1 1);
    try reflexivity.
  - intros m Hm. discriminate Hm.
  - right. split; reflexivity.
  - simpl. lia.
Defined.

Lemma forward_low_rank_witness :
  fst (forward 0 1 2 None 1%Z
         (world_of [flat_query; qkv Float32 (Cuda 0); qkv Float32 (Cuda 0)]))
  = inl IndexError
  /\ kernel_calls
       (trace (snd (forward 0 1 2 None 1%Z
                      (world_of [flat_query; qkv Float32 (Cuda 0);
                                 qkv Float32 (Cuda 0)]))))
     = kernel_calls [].
Proof.
  apply (forward_low_rank (K:=kernels) 0 1 2 None 1%Z
           (world_of [flat_query; qkv Float32 (Cuda 0); qkv Float32 (Cuda 0)])
           (Cuda 0)
           flat_query (qkv Float32 (Cuda 0)) 1 1 1);
    try reflexivity.
  - intros m Hm. discriminate Hm.
  - right. split; reflexivity.
  - left. simpl. lia.
Defined.

Lemma forward_full_mask_witness :
  exists w',
    forward 0 1 2 (Some 3) 1%Z (world1 Float32 full_mask)
    = (inl RuntimeError, w')
    /\ trace w'
       = [ SparseDotSdd
             (div_tensor (as_dtype Float16 (qkv Float32 (Cuda 0)))
                         (math_sqrt 4))
             (as_dtype Float16 (qkv Float32 (Cuda 0))) ].
Proof.
  apply (forward_full_mask (K:=kernels) 0 1 2 3 1%Z (world1 Float32 full_mask)
           (Cuda 0) (qkv Float32 (Cuda 0)) (qkv Float32 (Cuda 0))
           (qkv Float32 (Cuda 0)) full_mask 1 1 16 16 4 1 1 1 1
           (zeros [1; 1; 16; 16]));
    try reflexivity; try lia.
  - right. split; reflexivity.
  - discriminate.
Defined.

Lemma forward_mask_warning_witness :
  exists evs,
    trace (snd (forward 0 1 2 (Some 3) 1%Z (world1 Float32 bool_mask)))
    = [] ++ evs
    /\ warnings evs = [mask_warning].
Proof.
  apply (forward_mask_warning (K:=kernels) 0 1 2 (Some 3) 1%Z
           (world1 Float32 bool_mask) (Cuda 0) (qkv Float32 (Cuda 0)) 1 1 1);
    try reflexivity.
  - intros m [= <-]. eexists. reflexivity.
  - right. split; reflexivity.
Defined.

Lemma forward_leaves_initialised_witness :
  self (snd (forward 0 1 2 (Some 3) 1%Z (world1 Float32 bad_mask)))
  = initialised (Cuda 0) module1.
Proof.
  apply (forward_leaves_initialised (K:=kernels) 0 1 2 (Some 3) 1%Z
           (world1 Float32 bad_mask) (Cuda 0) (qkv Float32 (Cuda 0)) 1 1 1);
    try reflexivity.
  - intros m [= <-]. eexists. reflexivity.
  - right. split; reflexivity.
Defined.

Lemma forward_result_fresh_witness :
  length (heap (world1 Float32 good_mask)) <= 13
  /\ 13 < length (heap (snd run_good)).
Proof.
  apply (forward_result_fresh (K:=kernels) 0 1 2 (Some 3) 1%Z
           (world1 Float32 good_mask) 13 (snd run_good)).
  apply run_pair. vm_compute. reflexivity.
Defined.

Lemma forward_failure_modes_witness :
  forward_error (AssertionError MaskShape) = true.
Proof.
  refine (forward_failure_modes (K:=kernels) 0 1 2 (Some 3) 1%Z
            (world1 Float32 bad_mask) (Cuda 0)
            (qkv Float32 (Cuda 0)) (qkv Float32 (Cuda 0))
            (qkv Float32 (Cuda 0)) 1 1 1
            (AssertionError MaskShape) (snd run_bad)
            eq_refl eq_refl eq_refl _ _ eq_refl _ _).
  - intros m [= <-]. eexists. reflexivity.
  - right. split; reflexivity.
  - discriminate.
  - apply run_pair. vm_compute. reflexivity.
Defined.

Lemma forward_mask_device_witness :
  exists w',
    forward 0 1 2 (Some 3) 1%Z (world1 Float32 cpu_mask)
    = (inl RuntimeError, w')
    /\ trace w'
       = [ SparseDotSdd
             (div_tensor (as_dtype Float16 (qkv Float32 (Cuda 0)))
                         (math_sqrt 4))
             (as_dtype Float16 (qkv Float32 (Cuda 0))) ].
Proof.
  refine (forward_mask_device (K:=kernels) 0 1 2 3 1%Z
            (world1 Float32 cpu_mask) (Cuda 0)
            (qkv Float32 (Cuda 0)) (qkv Float32 (Cuda 0))
            (qkv Float32 (Cuda 0)) cpu_mask 1 1 16 4 1 1
            (zeros [1; 1; 16; 16])
            eq_refl eq_refl eq_refl eq_refl _ _ eq_refl eq_refl eq_refl
            eq_refl eq_refl _ eq_refl eq_refl eq_refl _).
  - right. split; reflexivity.
  - discriminate.
  - now left.
  - discriminate.
Defined.

End Runs.
